(** * GoGi widget lifecycle, style resolution and mesh buffers

    A shallow embedding of three source files of the GoGi toolkit:
    - the 3D mesh base type ([MeshBase]: validation, GPU vectors, plane
      builder),
    - the 2D widget base type ([WidgetBase], [PartsWidgetBase]: render,
      re-render and move passes),
    - the style resolver ([StyleField], [WalkStyleStruct], [SetStyle]).

    Go values are modelled as the code has them: [int] is a 64-bit signed
    integer with wrap-around, [float32] is an IEEE-754 binary32 number
    (precision 24, emax 128), slices are lists, [map[string]interface{}] is
    a finite map from strings to dynamically typed values. *)

From stdpp Require Import base gmap strings list.
From Stdlib Require Import ZArith Lia SpecFloat.

Open Scope Z_scope.

(* ================================================================== *)
(** * Go machine integers *)
(* ================================================================== *)

Module GoInt.

Definition MaxInt : Z := 2 ^ 63 - 1.
Definition MinInt : Z := - 2 ^ 63.

(** A value that an [int] variable can hold. *)
Definition is_int (z : Z) : Prop := MinInt <= z <= MaxInt.

(** Two's-complement wrap-around of 64-bit signed arithmetic. *)
Definition wrap (z : Z) : Z := (z + 2 ^ 63) mod 2 ^ 64 - 2 ^ 63.

Definition add (a b : Z) : Z := wrap (a + b).
Definition mul (a b : Z) : Z := wrap (a * b).

(** Integer division truncates toward zero. *)
Definition div (a b : Z) : Z := a ÷ b.

(** [uint32(x)] conversion. *)
Definition uint32 (z : Z) : Z := z mod 2 ^ 32.

(** [len] of a slice, as an [int]. *)
Definition len {A} (l : list A) : Z := Z.of_nat (length l).

(** [ints.MaxInt(a, b)]: [if a > b { return a }; return b]. *)
Definition MaxInt2 (a b : Z) : Z := if a >? b then a else b.

(** [for i := 0; i < hi; i++ { s = body i s }].  The counter stays below
    [hi], itself an [int], so the increment never wraps. *)
Fixpoint loop_from {S : Type} (n : nat) (i : Z) (body : Z -> S -> S) (s : S) : S :=
  match n with
  | O => s
  | Datatypes.S n' => loop_from n' (i + 1) body (body i s)
  end.

Definition for_range {S : Type} (hi : Z) (body : Z -> S -> S) (s : S) : S :=
  loop_from (Z.to_nat hi) 0 body s.

(** The slice [new] is [old] with exactly [n] elements appended. *)
Definition appended {A} (old new : list A) (n : Z) : Prop :=
  exists added, new = old ++ added /\ len added = n.

End GoInt.

(* ================================================================== *)
(** * Run-time panics *)
(* ================================================================== *)

(** A Go call either returns or panics; nothing in these files recovers. *)
Inductive Outcome (A : Type) :=
| Returns (a : A)
| Panics (why : string).
Arguments Returns {A} a.
Arguments Panics {A} why.

(* ================================================================== *)
(** * float32 *)
(* ================================================================== *)

Module F32.

Definition prec : Z := 24.
Definition emax : Z := 128.

Definition t : Type := spec_float.

Definition zero : t := S754_zero false.
Definition add : t -> t -> t := SFadd prec emax.
Definition sub : t -> t -> t := SFsub prec emax.
Definition mul : t -> t -> t := SFmul prec emax.
Definition div : t -> t -> t := SFdiv prec emax.

(** [float32(i)] for an integer [i], rounding to nearest even. *)
Definition of_int (z : Z) : t := binary_normalize prec emax z 0 false.

(** [a > b] *)
Definition gtb (a b : t) : bool := SFltb b a.

(** [int(f)]: truncation toward zero.  For infinities, NaN and values
    outside the range of [int] Go leaves the result to the platform;
    the amd64 result, the minimum [int], is used. *)
Definition to_int (f : t) : Z :=
  match f with
  | S754_zero _ => 0
  | S754_finite s m e =>
    let mag := if 0 <=? e then Z.pos m * 2 ^ e else Z.pos m ÷ 2 ^ (- e) in
    let v := if s then - mag else mag in
    if (GoInt.MinInt <=? v) && (v <=? GoInt.MaxInt) then v else GoInt.MinInt
  | _ => GoInt.MinInt
  end.

End F32.

Abbreviation float32 := F32.t.

(* ================================================================== *)
(** * mat32: the vector helpers the mesh code uses *)
(* ================================================================== *)

Module mat32.

(** Modelled from the spec: [mat32.Dims] (package mat32 is not among the
    source files); the axis selection of a 3D vector. *)
Inductive Dims := X | Y | Z.

Definition Dims_eqb (a b : Dims) : bool :=
  match a, b with
  | X, X | Y, Y | Z, Z => true
  | _, _ => false
  end.

Record Vec3 := mkVec3 { v3x : float32; v3y : float32; v3z : float32 }.
Record Vec4 := mkVec4 { v4x : float32; v4y : float32; v4z : float32; v4w : float32 }.

Definition Vec3_zero : Vec3 := mkVec3 F32.zero F32.zero F32.zero.

(** [v.SetDim(dim, value)] *)
Definition SetDim (v : Vec3) (dim : Dims) (value : float32) : Vec3 :=
  match dim with
  | X => mkVec3 value (v3y v) (v3z v)
  | Y => mkVec3 (v3x v) value (v3z v)
  | Z => mkVec3 (v3x v) (v3y v) value
  end.

(** [ArrayF32.AppendVec3], [ArrayF32.Append], [ArrayF32.AppendVec4] *)
Definition AppendVec3 (a : list float32) (v : Vec3) : list float32 :=
  a ++ [v3x v; v3y v; v3z v].
Definition Append2 (a : list float32) (u v : float32) : list float32 :=
  a ++ [u; v].
Definition AppendVec4 (a : list float32) (v : Vec4) : list float32 :=
  a ++ [v4x v; v4y v; v4z v; v4w v].

(** An index expression outside the bounds of its slice. *)
Definition index_out_of_range : string := "index out of range".

(** [array[i] = v] *)
Definition store {A} (a : list A) (i : BinNums.Z) (v : A) : Outcome (list A) :=
  if (0 <=? i) && (i <? GoInt.len a) then Returns (<[Z.to_nat i := v]> a)
  else Panics index_out_of_range.

(** [Vec3.ToArray(array, offset)] and [Vec4.ToArray(array, offset)]: the
    components go to [array[offset]], [array[offset+1]], ... in turn. *)
Definition Vec3_ToArray (v : Vec3) (a : list float32) (offset : BinNums.Z)
  : Outcome (list float32) :=
  match store a offset (v3x v) with
  | Panics why => Panics why
  | Returns a =>
    match store a (GoInt.add offset 1) (v3y v) with
    | Panics why => Panics why
    | Returns a => store a (GoInt.add offset 2) (v3z v)
    end
  end.

Definition Vec4_ToArray (v : Vec4) (a : list float32) (offset : BinNums.Z)
  : Outcome (list float32) :=
  match store a offset (v4x v) with
  | Panics why => Panics why
  | Returns a =>
    match store a (GoInt.add offset 1) (v4y v) with
    | Panics why => Panics why
    | Returns a =>
      match store a (GoInt.add offset 2) (v4z v) with
      | Panics why => Panics why
      | Returns a => store a (GoInt.add offset 3) (v4w v)
      end
    end
  end.

End mat32.

(* ================================================================== *)
(** * gi3d: MeshBase *)
(* ================================================================== *)

Module Mesh.
Import GoInt.

(** ** The GPU buffer manager

    Modelled from the spec: [gpu.BufferMgr], [gpu.VectorsBuffer] and
    [gpu.IndexesBuffer] (package oswin/gpu declares them, outside the
    source files).  The model keeps what [MeshBase] stores into them. *)

Inductive Usage := StaticDraw | DynamicDraw.

(** The shader inputs a scene's renderers declare. *)
Inductive InVtx := InVtxPos | InVtxNorm | InVtxTexUV | InVtxColor.

Record VectorsBuffer := mkVectorsBuffer {
  vb_usage   : Usage;
  vb_vectors : list (InVtx * bool);          (* input, interleaved? *)
  vb_len     : Z;
  vb_data    : list (InVtx * list float32)   (* latest data first *)
}.

Record IndexesBuffer := mkIndexesBuffer {
  ib_usage : Usage;
  ib_len   : Z;
  ib_data  : list Z
}.

Record BufferMgr := mkBufferMgr {
  Vectors   : VectorsBuffer;
  Indexes   : IndexesBuffer;
  Activated : bool
}.

Definition NewVectorsBuffer (usg : Usage) : VectorsBuffer :=
  mkVectorsBuffer usg [] 0 [].
Definition NewIndexesBuffer (usg : Usage) : IndexesBuffer :=
  mkIndexesBuffer usg 0 [].

Definition NumVectors (vb : VectorsBuffer) : Z := len (vb_vectors vb).
Definition DeleteAllVectors (vb : VectorsBuffer) : VectorsBuffer :=
  mkVectorsBuffer (vb_usage vb) [] (vb_len vb) [].
Definition AddVectors (v : InVtx) (interleave : bool) (vb : VectorsBuffer) : VectorsBuffer :=
  mkVectorsBuffer (vb_usage vb) (vb_vectors vb ++ [(v, interleave)]) (vb_len vb) (vb_data vb).
Definition SetLen (n : Z) (vb : VectorsBuffer) : VectorsBuffer :=
  mkVectorsBuffer (vb_usage vb) (vb_vectors vb) n (vb_data vb).
Definition SetVecData (v : InVtx) (d : list float32) (vb : VectorsBuffer) : VectorsBuffer :=
  mkVectorsBuffer (vb_usage vb) (vb_vectors vb) (vb_len vb) ((v, d) :: vb_data vb).

Definition IdxSetLen (n : Z) (ib : IndexesBuffer) : IndexesBuffer :=
  mkIndexesBuffer (ib_usage ib) n (ib_data ib).
Definition IdxSet (d : list Z) (ib : IndexesBuffer) : IndexesBuffer :=
  mkIndexesBuffer (ib_usage ib) (ib_len ib) d.

Definition BufferMgr_Activate (b : BufferMgr) : BufferMgr :=
  mkBufferMgr (Vectors b) (Indexes b) true.

(** ** The mesh *)

(** [MeshBase].  The [BBox] field is left out: none of the methods below
    reads or writes it. *)
Record MeshBase := mkMeshBase {
  Nm      : string;
  Dynamic : bool;
  Trans   : bool;
  Vtx     : list float32;
  Norm    : list float32;
  TexUV   : list float32;
  Idx     : list Z;             (* uint32 *)
  Color   : list float32;
  Buff    : option BufferMgr    (* nil interface = None *)
}.

Definition set_Vtx (v : list float32) (ms : MeshBase) : MeshBase :=
  mkMeshBase (Nm ms) (Dynamic ms) (Trans ms) v (Norm ms) (TexUV ms) (Idx ms) (Color ms) (Buff ms).
Definition set_Norm (v : list float32) (ms : MeshBase) : MeshBase :=
  mkMeshBase (Nm ms) (Dynamic ms) (Trans ms) (Vtx ms) v (TexUV ms) (Idx ms) (Color ms) (Buff ms).
Definition set_TexUV (v : list float32) (ms : MeshBase) : MeshBase :=
  mkMeshBase (Nm ms) (Dynamic ms) (Trans ms) (Vtx ms) (Norm ms) v (Idx ms) (Color ms) (Buff ms).
Definition set_Idx (v : list Z) (ms : MeshBase) : MeshBase :=
  mkMeshBase (Nm ms) (Dynamic ms) (Trans ms) (Vtx ms) (Norm ms) (TexUV ms) v (Color ms) (Buff ms).
Definition set_Color (v : list float32) (ms : MeshBase) : MeshBase :=
  mkMeshBase (Nm ms) (Dynamic ms) (Trans ms) (Vtx ms) (Norm ms) (TexUV ms) (Idx ms) v (Buff ms).
Definition set_Buff (b : option BufferMgr) (ms : MeshBase) : MeshBase :=
  mkMeshBase (Nm ms) (Dynamic ms) (Trans ms) (Vtx ms) (Norm ms) (TexUV ms) (Idx ms) (Color ms) b.

Definition HasColor (ms : MeshBase) : bool := len (Color ms) >? 0.

Definition IsTransparent (ms : MeshBase) : bool :=
  if negb (HasColor ms) then false else Trans ms.

Definition Reset (ms : MeshBase) : MeshBase :=
  mkMeshBase (Nm ms) (Dynamic ms) (Trans ms) [] [] [] [] [] (Buff ms).

(** The errors [Validate] builds with [fmt.Errorf]; the counts are the
    numbers formatted into the message. *)
Inductive MeshError :=
| ErrNoVerticies
| ErrNorms (nln vln : Z)
| ErrTexUV (tln vln : Z)
| ErrColors (cln vln : Z).

(** What a fallible method leaves behind: the lines given to
    [log.Println] and the returned [error] ([None] is [nil]). *)
Definition Checked : Type := list MeshError * option MeshError.

(** [err := fmt.Errorf(...); log.Println(err); return err] *)
Definition fail (e : MeshError) : Checked := ([e], Some e).
Definition ok : Checked := ([], None).

Definition Validate (ms : MeshBase) : Checked :=
  let vln := div (len (Vtx ms)) 3 in
  if vln =? 0 then fail ErrNoVerticies else
  let nln := div (len (Norm ms)) 3 in
  if negb (nln =? vln) then fail (ErrNorms nln vln) else
  let tln := div (len (TexUV ms)) 2 in
  if negb (tln =? vln) then fail (ErrTexUV tln vln) else
  let cln := div (len (Color ms)) 4 in
  if cln =? 0 then ok else
  if negb (cln =? vln) then fail (ErrColors cln vln) else
  ok.

(** [Validate() != nil] *)
Definition Validate_fails (ms : MeshBase) : bool :=
  match snd (Validate ms) with Some _ => true | None => false end.

(** [MakeVectors(sc)].  The scene only supplies the four shader inputs,
    here the constructors of [InVtx]. *)
Definition MakeVectors (ms : MeshBase) : Checked * MeshBase :=
  let err := Validate ms in
  match snd err with
  | Some _ => (err, ms)
  | None =>
    let b :=
      match Buff ms with
      | None =>
        let usg := if Dynamic ms then DynamicDraw else StaticDraw in
        mkBufferMgr (NewVectorsBuffer usg) (NewIndexesBuffer StaticDraw) false
      | Some b => b
      end in
    let vbuf := Vectors b in
    let ibuf := Indexes b in
    let hasColor := HasColor ms in
    let nvec := if hasColor then 3 + 1 else 3 in
    let vbuf :=
      if negb (NumVectors vbuf =? nvec) then
        let vbuf := DeleteAllVectors vbuf in
        let vbuf := AddVectors InVtxPos true vbuf in
        let vbuf := AddVectors InVtxNorm true vbuf in
        let vbuf := AddVectors InVtxTexUV true vbuf in
        if hasColor then AddVectors InVtxColor false vbuf else vbuf
      else vbuf in
    let vln := div (len (Vtx ms)) 3 in
    let vbuf := SetLen vln vbuf in
    let vbuf := SetVecData InVtxPos (Vtx ms) vbuf in
    let vbuf := SetVecData InVtxNorm (Norm ms) vbuf in
    let vbuf := SetVecData InVtxTexUV (TexUV ms) vbuf in
    let vbuf := if hasColor then SetVecData InVtxColor (Color ms) vbuf else vbuf in
    let iln := len (Idx ms) in
    let ibuf := IdxSetLen iln ibuf in
    let ibuf := IdxSet (Idx ms) ibuf in
    (ok, set_Buff (Some (mkBufferMgr vbuf ibuf (Activated b))) ms)
  end.

(** A method call through the nil [gpu.BufferMgr] interface. *)
Definition nil_deref : string := "invalid memory address or nil pointer dereference".

(** [Activate(sc)]: the error of [MakeVectors] is dropped, then
    [ms.Buff.Activate()] is called whatever [ms.Buff] holds. *)
Definition Activate (ms : MeshBase) : Outcome (list MeshError * MeshBase) :=
  let '(lg, ms) :=
    match Buff ms with
    | None => let '(err, ms') := MakeVectors ms in (fst err, ms')
    | Some _ => ([], ms)
    end in
  match Buff ms with
  | None => Panics nil_deref
  | Some b => Returns (lg, set_Buff (Some (BufferMgr_Activate b)) ms)
  end.

(** [gpu.Draw.TrianglesIndexed(start, count)] *)
Record DrawCall := TrianglesIndexed { dc_start : Z; dc_count : Z }.

(** [Render3D()]: the draw calls submitted. *)
Definition Render3D (ms : MeshBase) : Outcome (list DrawCall) :=
  match Buff ms with
  | None => Panics nil_deref
  | Some b => Returns [TrianglesIndexed 0 (ib_len (Indexes b))]
  end.

(** Drawing a mesh in a frame: [Activate] then [Render3D]. *)
Definition draw (ms : MeshBase) : Outcome (list DrawCall) :=
  match Activate ms with
  | Panics why => Panics why
  | Returns (_, ms') => Render3D ms'
  end.

(** ** Shape primitives *)

Definition PlaneSize (wsegs hsegs : Z) : Z :=
  let wsegs := MaxInt2 wsegs 1 in
  let hsegs := MaxInt2 hsegs 1 in
  mul (add wsegs 1) (add hsegs 1).

Section Plane.
Import mat32.

(** [gi.Color] with its [IsNil] test, and [ColorToVec4f]: declared in
    files outside the source files, taken as parameters. *)
Variable GiColor : Type.
Variable IsNil : GiColor -> bool.
Variable ColorToVec4f : GiColor -> Vec4.

(** The axis orthogonal to the plane. *)
Definition plane_normal_axis (waxis haxis : Dims) : Dims :=
  if (Dims_eqb waxis X && Dims_eqb haxis Y) || (Dims_eqb waxis Y && Dims_eqb haxis X)
  then Z
  else if (Dims_eqb waxis X && Dims_eqb haxis Z) || (Dims_eqb waxis Z && Dims_eqb haxis X)
  then Y
  else if (Dims_eqb waxis Z && Dims_eqb haxis Y) || (Dims_eqb waxis Y && Dims_eqb haxis Z)
  then X
  else Z.

Definition AddPlane (waxis haxis : Dims) (wdir hdir : BinNums.Z)
    (width height woff hoff zoff : float32) (wsegs hsegs : BinNums.Z)
    (clr : GiColor) (ms : MeshBase) : MeshBase :=
  let idxSt := div (len (Vtx ms)) 3 in
  let w := plane_normal_axis waxis haxis in
  let wsegs := MaxInt2 wsegs 1 in
  let hsegs := MaxInt2 hsegs 1 in
  let norm :=
    if F32.gtb zoff F32.zero
    then SetDim Vec3_zero w (F32.of_int 1)
    else SetDim Vec3_zero w (F32.of_int (-1)) in
  let wsegs1 := add wsegs 1 in
  let hsegs1 := add hsegs 1 in
  let segWidth := F32.div width (F32.of_int wsegs) in
  let segHeight := F32.div height (F32.of_int hsegs) in
  let fwdir := F32.of_int wdir in
  let fhdir := F32.of_int hdir in
  let woff := if wdir <? 0 then F32.add width woff else woff in
  let hoff := if hdir <? 0 then F32.add height hoff else hoff in
  (* the plane vertices, norms, and uv coordinates *)
  let ms :=
    for_range hsegs1 (fun iy ms =>
      for_range wsegs1 (fun ix ms =>
        let vtx := Vec3_zero in
        let vtx := SetDim vtx waxis
                     (F32.add (F32.mul (F32.mul (F32.of_int ix) segWidth) fwdir) woff) in
        let vtx := SetDim vtx haxis
                     (F32.add (F32.mul (F32.mul (F32.of_int iy) segHeight) fhdir) hoff) in
        let vtx := SetDim vtx w zoff in
        let ms := set_Vtx (AppendVec3 (Vtx ms) vtx) ms in
        let ms := set_Norm (AppendVec3 (Norm ms) norm) ms in
        let ms := set_TexUV
                    (Append2 (TexUV ms)
                       (F32.div (F32.of_int ix) (F32.of_int wsegs))
                       (F32.sub (F32.of_int 1)
                          (F32.div (F32.of_int iy) (F32.of_int hsegs)))) ms in
        if negb (IsNil clr)
        then set_Color (AppendVec4 (Color ms) (ColorToVec4f clr)) ms
        else ms) ms) ms in
  (* the indices *)
  for_range hsegs (fun iy ms =>
    for_range wsegs (fun ix ms =>
      let a := add ix (mul wsegs1 iy) in
      let b := add ix (mul wsegs1 (add iy 1)) in
      let c := add (add ix 1) (mul wsegs1 (add iy 1)) in
      let d := add (add ix 1) (mul wsegs1 iy) in
      set_Idx (Idx ms ++ [uint32 (add a idxSt); uint32 (add b idxSt);
                          uint32 (add d idxSt); uint32 (add b idxSt);
                          uint32 (add c idxSt); uint32 (add d idxSt)]) ms) ms) ms.

(** [SetPlaneVtx]: the vertex and (optional) color values of a plane are
    written over the arrays from the vertex index [startIdx] on.  The loop
    state is the mesh with the two running offsets [vidx] and [cidx]. *)
Definition SetPlaneVtx (startIdx : BinNums.Z) (waxis haxis : Dims) (wdir hdir : BinNums.Z)
    (width height woff hoff zoff : float32) (wsegs hsegs : BinNums.Z)
    (clr : GiColor) (ms : MeshBase) : Outcome MeshBase :=
  let w := plane_normal_axis waxis haxis in
  let wsegs := MaxInt2 wsegs 1 in
  let hsegs := MaxInt2 hsegs 1 in
  let wsegs1 := add wsegs 1 in
  let hsegs1 := add hsegs 1 in
  let segWidth := F32.div width (F32.of_int wsegs) in
  let segHeight := F32.div height (F32.of_int hsegs) in
  let fwdir := F32.of_int wdir in
  let fhdir := F32.of_int hdir in
  let woff := if wdir <? 0 then F32.add width woff else woff in
  let hoff := if hdir <? 0 then F32.add height hoff else hoff in
  let vidx := mul startIdx 3 in
  let cidx := mul startIdx 4 in
  match
    for_range hsegs1 (fun iy st =>
      for_range wsegs1 (fun ix st =>
        match st with
        | Panics why => Panics why
        | Returns (ms, vidx, cidx) =>
          let vtx := Vec3_zero in
          let vtx := SetDim vtx waxis
                       (F32.add (F32.mul (F32.mul (F32.of_int ix) segWidth) fwdir) woff) in
          let vtx := SetDim vtx haxis
                       (F32.add (F32.mul (F32.mul (F32.of_int iy) segHeight) fhdir) hoff) in
          let vtx := SetDim vtx w zoff in
          match Vec3_ToArray vtx (Vtx ms) vidx with
          | Panics why => Panics why
          | Returns a =>
            let ms := set_Vtx a ms in
            if negb (IsNil clr) then
              match Vec4_ToArray (ColorToVec4f clr) (Color ms) cidx with
              | Panics why => Panics why
              | Returns c => Returns (set_Color c ms, add vidx 3, add cidx 4)
              end
            else Returns (ms, add vidx 3, cidx)
          end
        end) st) (Returns (ms, vidx, cidx))
  with
  | Panics why => Panics why
  | Returns (ms, _, _) => Returns ms
  end.

(** ** The plane, point by point *)

(** The floats of the cells of a [W] by [H] grid, row after row. *)
Definition grid {A} (W H : BinNums.Z) (cell : BinNums.Z -> BinNums.Z -> list A) : list A :=
  flat_map (fun iy => flat_map (fun ix => cell ix iy) (seqZ 0 W)) (seqZ 0 H).

Definition Vec3_floats (v : Vec3) : list float32 := [v3x v; v3y v; v3z v].
Definition Vec4_floats (v : Vec4) : list float32 := [v4x v; v4y v; v4z v; v4w v].

(** The vertex at the grid position [(ix, iy)]. *)
Definition plane_vertex (waxis haxis : Dims) (wdir hdir : BinNums.Z)
    (width height woff hoff zoff : float32) (wsegs hsegs : BinNums.Z)
    (ix iy : BinNums.Z) : Vec3 :=
  let w := plane_normal_axis waxis haxis in
  let wsegs := MaxInt2 wsegs 1 in
  let hsegs := MaxInt2 hsegs 1 in
  let segWidth := F32.div width (F32.of_int wsegs) in
  let segHeight := F32.div height (F32.of_int hsegs) in
  let fwdir := F32.of_int wdir in
  let fhdir := F32.of_int hdir in
  let woff := if wdir <? 0 then F32.add width woff else woff in
  let hoff := if hdir <? 0 then F32.add height hoff else hoff in
  let vtx := Vec3_zero in
  let vtx := SetDim vtx waxis
               (F32.add (F32.mul (F32.mul (F32.of_int ix) segWidth) fwdir) woff) in
  let vtx := SetDim vtx haxis
               (F32.add (F32.mul (F32.mul (F32.of_int iy) segHeight) fhdir) hoff) in
  SetDim vtx w zoff.

(** The normal every vertex of the plane gets. *)
Definition plane_normal (waxis haxis : Dims) (zoff : float32) : Vec3 :=
  let w := plane_normal_axis waxis haxis in
  if F32.gtb zoff F32.zero
  then SetDim Vec3_zero w (F32.of_int 1)
  else SetDim Vec3_zero w (F32.of_int (-1)).

(** The texture coordinate at [(ix, iy)]. *)
Definition plane_texuv (wsegs hsegs ix iy : BinNums.Z) : list float32 :=
  [F32.div (F32.of_int ix) (F32.of_int (MaxInt2 wsegs 1));
   F32.sub (F32.of_int 1) (F32.div (F32.of_int iy) (F32.of_int (MaxInt2 hsegs 1)))].

(** The two triangles of the grid cell [(ix, iy)]. *)
Definition plane_quad (wsegs1 idxSt ix iy : BinNums.Z) : list BinNums.Z :=
  let a := add ix (mul wsegs1 iy) in
  let b := add ix (mul wsegs1 (add iy 1)) in
  let c := add (add ix 1) (mul wsegs1 (add iy 1)) in
  let d := add (add ix 1) (mul wsegs1 iy) in
  [uint32 (add a idxSt); uint32 (add b idxSt); uint32 (add d idxSt);
   uint32 (add b idxSt); uint32 (add c idxSt); uint32 (add d idxSt)].

(** One round of the loops of [SetPlaneVtx]: the vertex and the color go
    to the running offsets, which move on. *)
Definition SetPlaneVtx_round (clr : GiColor) (vtx : Vec3)
    (st : Outcome (MeshBase * BinNums.Z * BinNums.Z))
  : Outcome (MeshBase * BinNums.Z * BinNums.Z) :=
  match st with
  | Panics why => Panics why
  | Returns (ms, vidx, cidx) =>
    match Vec3_ToArray vtx (Vtx ms) vidx with
    | Panics why => Panics why
    | Returns a =>
      let ms := set_Vtx a ms in
      if negb (IsNil clr) then
        match Vec4_ToArray (ColorToVec4f clr) (Color ms) cidx with
        | Panics why => Panics why
        | Returns c => Returns (set_Color c ms, add vidx 3, add cidx 4)
        end
      else Returns (ms, add vidx 3, cidx)
    end
  end.

End Plane.

(** ** The validity condition in the words of the specification *)

(** The specification's reading of [Validate]: an error exactly when the
    vertex count is zero, or the normal or texcoord count differs from
    it, or colors are present ([HasColor]) and their count differs. *)
Definition Validate_as_specified (ms : MeshBase) : Prop :=
  let vln := div (len (Vtx ms)) 3 in
  let nln := div (len (Norm ms)) 3 in
  let tln := div (len (TexUV ms)) 2 in
  let cln := div (len (Color ms)) 4 in
  Validate_fails ms = true <->
  (vln = 0 \/ nln <> vln \/ tln <> vln \/ (HasColor ms = true /\ cln <> vln)).

(** ** Sample meshes *)

Definition f1 : float32 := F32.of_int 1.

(** A mesh nobody has filled or built yet. *)
Definition mesh_empty : MeshBase :=
  mkMeshBase "empty" false false [] [] [] [] [] None.

(** One vertex with its normal and texture coordinate, flagged
    transparent, no colors. *)
Definition mesh_point : MeshBase :=
  mkMeshBase "point" false true [f1; f1; f1] [f1; f1; f1] [f1; f1] [] [] None.

(** The same vertex with a single stray float in [Color]. *)
Definition mesh_stray_color : MeshBase :=
  set_Color [f1] mesh_point.

(** An instance of the color parameters of [AddPlane]: four 8-bit
    channels, nil when all are zero, scaled to the unit interval. *)
Record RGBA := mkRGBA { chR : Z; chG : Z; chB : Z; chA : Z }.

Definition RGBA_IsNil (c : RGBA) : bool :=
  (chR c =? 0) && (chG c =? 0) && (chB c =? 0) && (chA c =? 0).

Definition RGBA_ToVec4f (c : RGBA) : mat32.Vec4 :=
  let ch x := F32.div (F32.of_int x) (F32.of_int 255) in
  mat32.mkVec4 (ch (chR c)) (ch (chG c)) (ch (chB c)) (ch (chA c)).

Definition red : RGBA := mkRGBA 255 0 0 255.

(** A unit plane in X-Y at z = 1 with two segments across and (after
    clamping) one down. *)
Definition mesh_plane : MeshBase :=
  AddPlane RGBA RGBA_IsNil RGBA_ToVec4f mat32.X mat32.Y 1 1 f1 f1
    F32.zero F32.zero f1 2 0 red mesh_empty.

(** The buffer of an earlier build, of one triangle. *)
Definition old_buffer : BufferMgr :=
  mkBufferMgr (SetLen 3 (NewVectorsBuffer StaticDraw))
    (IdxSet [0; 1; 2] (IdxSetLen 3 (NewIndexesBuffer StaticDraw))) false.

(** The plane, still holding that buffer. *)
Definition mesh_rebuilt_late : MeshBase := set_Buff (Some old_buffer) mesh_plane.

End Mesh.

(* ================================================================== *)
(** * image: integer points and rectangles *)
(* ================================================================== *)

Module image.

Record Point := mkPoint { X : Z; Y : Z }.
Record Rectangle := mkRectangle { Min : Point; Max : Point }.

Definition ZP : Point := mkPoint 0 0.
Definition ZR : Rectangle := mkRectangle ZP ZP.

(** [r.Empty()]: the rectangle contains no points. *)
Definition Empty (r : Rectangle) : bool :=
  (X (Min r) >=? X (Max r)) || (Y (Min r) >=? Y (Max r)).

(** [r.Add(p)] *)
Definition Add (r : Rectangle) (p : Point) : Rectangle :=
  mkRectangle (mkPoint (GoInt.add (X (Min r)) (X p)) (GoInt.add (Y (Min r)) (Y p)))
              (mkPoint (GoInt.add (X (Max r)) (X p)) (GoInt.add (Y (Max r)) (Y p))).

(** [r.Intersect(s)] *)
Definition Intersect (r s : Rectangle) : Rectangle :=
  let r := mkRectangle
             (mkPoint (Z.max (X (Min r)) (X (Min s))) (Z.max (Y (Min r)) (Y (Min s))))
             (mkPoint (Z.min (X (Max r)) (X (Max s))) (Z.min (Y (Max r)) (Y (Max s)))) in
  if Empty r then ZR else r.

End image.

(* ================================================================== *)
(** * gi: WidgetBase and PartsWidgetBase *)
(* ================================================================== *)

Module Widget.
Import GoInt.

Record Vec2D := mkVec2D { VX : float32; VY : float32 }.

(** [a.Add(b)] *)
Definition Vec2D_Add (a b : Vec2D) : Vec2D :=
  mkVec2D (F32.add (VX a) (VX b)) (F32.add (VY a) (VY b)).

Definition NewVec2DFmPoint (pt : image.Point) : Vec2D :=
  mkVec2D (F32.of_int (image.X pt)) (F32.of_int (image.Y pt)).

(** Modelled from the spec: [LayoutData] (declared with the layout code,
    outside the source files): allocated position and size, the relative
    offset, the original position kept as the baseline of moves, and the
    preferred size. *)
Record LayoutData := mkLayoutData {
  AllocPos     : Vec2D;
  AllocPosRel  : Vec2D;
  AllocSize    : Vec2D;
  AllocPosOrig : Vec2D;
  SizePref     : Vec2D
}.

Definition set_AllocPos (p : Vec2D) (ld : LayoutData) : LayoutData :=
  mkLayoutData p (AllocPosRel ld) (AllocSize ld) (AllocPosOrig ld) (SizePref ld).

(** Event priorities and kinds of the window's event manager; the widget
    code names [RegPri], [oswin.MouseEvent] and [oswin.MouseHoverEvent]. *)
Inductive EventPris := HiPri | RegPri | LowPri.
Inductive EventType := MouseEvent | MouseHoverEvent | KeyChordEvent.

(** The viewport a node renders into: the bounds of its pixels. *)
Record Viewport2D := mkViewport2D { PixelsBounds : image.Rectangle }.

(** Modelled from the spec: [Node2DBase], the embedded base of every
    widget (declared outside the source files): its name, the dirty and
    overlay flag bits, the bound render surface, the cached bounding
    boxes, and the node's input-event bindings. *)
Record Node2DBase := mkNode2DBase {
  Nm           : string;
  FullReRender : bool;
  Overlay      : bool;
  Viewport     : option Viewport2D;      (* nil = None *)
  BBox         : image.Rectangle;
  ObjBBox      : image.Rectangle;
  VpBBox       : image.Rectangle;
  WinBBox      : image.Rectangle;
  EventConns   : list (EventType * EventPris)
}.

Definition set_FullReRender (b : bool) (g : Node2DBase) : Node2DBase :=
  mkNode2DBase (Nm g) b (Overlay g) (Viewport g) (BBox g) (ObjBBox g)
    (VpBBox g) (WinBBox g) (EventConns g).
Definition set_EventConns (c : list (EventType * EventPris)) (g : Node2DBase) : Node2DBase :=
  mkNode2DBase (Nm g) (FullReRender g) (Overlay g) (Viewport g) (BBox g) (ObjBBox g)
    (VpBBox g) (WinBBox g) c.

(** Nodes live on the heap and are reached through pointers. *)
Definition Addr : Type := nat.

(** The tree of node pointers: a plain widget with its children, or a
    parts widget that also owns a [Parts] sub-tree. *)
#[warnings="-register-all"]
Inductive Node2D :=
| IsWidget (this : Addr) (Kids : list Node2D)
| IsPartsWidget (this : Addr) (Parts : Node2D) (Kids : list Node2D).

Definition This (n : Node2D) : Addr :=
  match n with IsWidget a _ | IsPartsWidget a _ _ => a end.

(** Every node of the subtree: the node, then its parts, then its
    children. *)
Fixpoint subtree (n : Node2D) : list Addr :=
  match n with
  | IsWidget a ks => a :: flat_map subtree ks
  | IsPartsWidget a p ks => a :: subtree p ++ flat_map subtree ks
  end.

(** The calls a pass makes to its collaborators, in order: the render
    surface, the event manager, and the tree-wide passes of the node
    base. *)
Inductive Call :=
| CPushBounds (who : string) (r : image.Rectangle)
| CPopBounds (who : string)
| CConnectToViewport (who : string)
| CDisconnectAllEvents (who : string) (pri : EventPris)
| CUpdateStart (who : string)
| CInit2DTree (who : string)
| CStyle2DTree (who : string)
| CSize2DTree (who : string)
| CLayout2DTree (who : string) (ld : LayoutData)   (* LayData on entry *)
| CRender2DTree (who : string)
| CUpdateEndNoSig (who : string) (updt : bool).

Definition nil_deref : string := "invalid memory address or nil pointer dereference".

Section Widgets.

(** The style snapshot and its [BoxSpace] (margin, border and padding),
    declared with the style code. *)
Variable Style : Type.
Variable BoxSpace : Style -> float32.

(** [WidgetBase].  [Tooltip], [DefStyle], [WidgetSig] and
    [CtxtMenuFunc] play no part in the passes below and are left out. *)
Record WidgetBase := mkWidgetBase {
  Node    : Node2DBase;
  Sty     : Style;
  LayData : LayoutData
}.

Definition set_Node (b : Node2DBase) (g : WidgetBase) : WidgetBase :=
  mkWidgetBase b (Sty g) (LayData g).
Definition set_LayData (ld : LayoutData) (g : WidgetBase) : WidgetBase :=
  mkWidgetBase (Node g) (Sty g) ld.

Definition Heap : Type := Addr -> WidgetBase.

(** Update in place the node a pointer refers to. *)
Definition modify (a : Addr) (f : WidgetBase -> WidgetBase) (h : Heap) : Heap :=
  fun b => if Nat.eqb b a then f (h a) else h b.

(** Methods of the embedded node base, declared outside the source
    files and taken as parameters.  [Node2DBase] methods see the base
    only; the tree-wide passes and the update bracket may change any
    node. *)
Variable ComputeBBox2DBase :
  image.Rectangle -> image.Point -> Node2DBase -> Node2DBase.
Variable ConnectToViewport : Node2DBase -> Node2DBase.
Variable UpdateStart : Node2D -> Heap -> bool * Heap.
Variable UpdateEndNoSig : bool -> Node2D -> Heap -> Heap.
Variable Init2DTree Style2DTree Size2DTree Layout2DTree Render2DTree :
  Node2D -> Heap -> Heap.

Definition NeedsFullReRender (g : WidgetBase) : bool := FullReRender (Node g).
Definition IsOverlay (g : WidgetBase) : bool := Overlay (Node g).
Definition ClearFullReRender (g : WidgetBase) : WidgetBase :=
  set_Node (set_FullReRender false (Node g)) g.

(** Modelled from the spec: [DisconnectAllEvents] (declared outside the
    source files) disconnects all input-event bindings of the node. *)
Definition DisconnectAllEvents (pri : EventPris) (g : WidgetBase)
  : WidgetBase * list Call :=
  (set_Node (set_EventConns [] (Node g)) g, [CDisconnectAllEvents (Nm (Node g)) pri]).

(** [ChildrenBBox2DWidget] *)
Definition ChildrenBBox2D (g : WidgetBase) : image.Rectangle :=
  let nb := VpBBox (Node g) in
  let spc := F32.to_int (BoxSpace (Sty g)) in
  image.mkRectangle
    (image.mkPoint (add (image.X (image.Min nb)) spc) (add (image.Y (image.Min nb)) spc))
    (image.mkPoint (add (image.X (image.Max nb)) (- spc)) (add (image.Y (image.Max nb)) (- spc))).

(** [ReRender2DTree] *)
Definition ReRender2DTree (n : Node2D) (h : Heap) : Heap * list Call :=
  let g := This n in
  let who := Nm (Node (h g)) in
  let ld := LayData (h g) in                       (* save *)
  let '(updt, h) := UpdateStart n h in
  let h := Init2DTree n h in
  let h := Style2DTree n h in
  let h := Size2DTree n h in
  let h := modify g (set_LayData ld) h in          (* restore *)
  let entry := LayData (h g) in
  let h := Layout2DTree n h in
  let h := Render2DTree n h in
  let h := UpdateEndNoSig updt n h in
  (h, [CUpdateStart who; CInit2DTree who; CStyle2DTree who; CSize2DTree who;
       CLayout2DTree who entry; CRender2DTree who; CUpdateEndNoSig who updt]).

(** [FullReRenderIfNeeded]: [Some] is [true] with the state after the
    re-render, [None] is [false] (nothing was touched). *)
Definition FullReRenderIfNeeded (n : Node2D) (h : Heap) : option (Heap * list Call) :=
  let g := This n in
  if negb (image.Empty (VpBBox (Node (h g)))) && NeedsFullReRender (h g) then
    let h := modify g ClearFullReRender h in
    Some (ReRender2DTree n h)
  else None.

(** [PushBounds] *)
Definition PushBounds (g : WidgetBase) : Outcome (bool * WidgetBase * list Call) :=
  let who := Nm (Node g) in
  if IsOverlay g then
    let g := ClearFullReRender g in
    match Viewport (Node g) with
    | Some _ =>
      let g := set_Node (ConnectToViewport (Node g)) g in
      match Viewport (Node g) with
      | Some vp =>
        Returns (true, g, [CConnectToViewport who; CPushBounds who (PixelsBounds vp)])
      | None => Panics nil_deref
      end
    | None => Returns (true, g, [])
    end
  else if image.Empty (VpBBox (Node g)) then
    Returns (false, ClearFullReRender g, [])
  else
    match Viewport (Node g) with
    | None => Panics nil_deref
    | Some _ =>
      let r := VpBBox (Node g) in
      let g := set_Node (ConnectToViewport (Node g)) g in
      Returns (true, g, [CPushBounds who r; CConnectToViewport who])
    end.

(** [PopBounds] *)
Definition PopBounds (g : WidgetBase) : Outcome (WidgetBase * list Call) :=
  let g := ClearFullReRender g in
  match Viewport (Node g) with
  | None => Panics nil_deref
  | Some _ => Returns (g, [CPopBounds (Nm (Node g))])
  end.

Definition Kids_of (n : Node2D) : list Node2D :=
  match n with IsWidget _ ks | IsPartsWidget _ _ ks => ks end.

(** [Render2D], with [Render2DChildren] (declared outside the source
    files) modelled from the spec: the children are rendered in
    child-list order. *)
Fixpoint Render2D (n : Node2D) (h : Heap) {struct n} : Outcome (Heap * list Call) :=
  let Render2DChildren :=
    fix go (ks : list Node2D) (h : Heap) : Outcome (Heap * list Call) :=
      match ks with
      | [] => Returns (h, [])
      | k :: ks' =>
        match Render2D k h with
        | Panics why => Panics why
        | Returns (h, t1) =>
          match go ks' h with
          | Panics why => Panics why
          | Returns (h, t2) => Returns (h, t1 ++ t2)
          end
        end
      end in
  let g := This n in
  match FullReRenderIfNeeded n h with
  | Some done => Returns done
  | None =>
    match PushBounds (h g) with
    | Panics why => Panics why
    | Returns (true, g', t1) =>
      let h := modify g (fun _ => g') h in
      match Render2DChildren (Kids_of n) h with
      | Panics why => Panics why
      | Returns (h, t2) =>
        match PopBounds (h g) with
        | Panics why => Panics why
        | Returns (g', t3) => Returns (modify g (fun _ => g') h, t1 ++ t2 ++ t3)
        end
      end
    | Returns (false, g', t1) =>
      let '(g', t2) := DisconnectAllEvents RegPri g' in
      Returns (modify g (fun _ => g') h, t1 ++ t2)
    end
  end.

(** [ComputeBBox2D]: the base computation, which a parts widget also
    passes on to its [Parts]. *)
Fixpoint ComputeBBox2D (parBBox : image.Rectangle) (delta : image.Point)
    (n : Node2D) (h : Heap) : Heap :=
  let base := modify (This n)
                (fun g => set_Node (ComputeBBox2DBase parBBox delta (Node g)) g) in
  match n with
  | IsWidget _ _ => base h
  | IsPartsWidget _ p _ => ComputeBBox2D parBBox delta p (base h)
  end.

(** [Move2DBase] *)
Definition Move2DBase (delta : image.Point) (parBBox : image.Rectangle)
    (n : Node2D) (h : Heap) : Heap :=
  let h := modify (This n)
             (fun g => set_LayData
                         (set_AllocPos
                            (Vec2D_Add (AllocPosOrig (LayData g)) (NewVec2DFmPoint delta))
                            (LayData g)) g) h in
  ComputeBBox2D parBBox delta n h.

(** [WidgetBase.Move2D] and [PartsWidgetBase.Move2D].

    Modelled from the spec: [Move2DChildren] and the [Move2D] of the
    [Parts] layout (declared outside the source files) propagate the
    same delta to the children and parts; the children get the node's
    [ChildrenBBox2D] as their parent box. *)
Fixpoint Move2D (delta : image.Point) (parBBox : image.Rectangle)
    (n : Node2D) (h : Heap) {struct n} : Heap :=
  let Move2DChildren :=
    fix go (cbb : image.Rectangle) (ks : list Node2D) (h : Heap) : Heap :=
      match ks with
      | [] => h
      | k :: ks' => go cbb ks' (Move2D delta cbb k h)
      end in
  match n with
  | IsWidget g ks =>
    let h := Move2DBase delta parBBox n h in
    Move2DChildren (ChildrenBBox2D (h g)) ks h
  | IsPartsWidget g p ks =>
    let h := Move2DBase delta parBBox n h in
    let h := Move2D delta parBBox p h in
    Move2DChildren (ChildrenBBox2D (h g)) ks h
  end.

(** [Render2DChildren] as [Render2D] runs it. *)
Fixpoint Render2DChildren (ks : list Node2D) (h : Heap) : Outcome (Heap * list Call) :=
  match ks with
  | [] => Returns (h, [])
  | k :: ks' =>
    match Render2D k h with
    | Panics why => Panics why
    | Returns (h, t1) =>
      match Render2DChildren ks' h with
      | Panics why => Panics why
      | Returns (h, t2) => Returns (h, t1 ++ t2)
      end
    end
  end.

(** [Move2DChildren] as [Move2D] runs it. *)
Definition Move2DChildren (delta : image.Point)
  : image.Rectangle -> list Node2D -> Heap -> Heap :=
  fix go (cbb : image.Rectangle) (ks : list Node2D) (h : Heap) : Heap :=
    match ks with
    | [] => h
    | k :: ks' => go cbb ks' (Move2D delta cbb k h)
    end.

(** ** What a move may change *)

(** What a move by [delta] may do to the layout data of a node: its size
    and baseline stay, its position stays or becomes baseline plus delta. *)
Definition moves_only (delta : image.Point) (h h' : Heap) : Prop :=
  forall a,
    AllocSize (LayData (h' a)) = AllocSize (LayData (h a)) /\
    AllocPosOrig (LayData (h' a)) = AllocPosOrig (LayData (h a)) /\
    (AllocPos (LayData (h' a)) = AllocPos (LayData (h a)) \/
     AllocPos (LayData (h' a)) =
       Vec2D_Add (AllocPosOrig (LayData (h a))) (NewVec2DFmPoint delta)).

(** The node at [a] sits at its baseline plus delta. *)
Definition moved (delta : image.Point) (h : Heap) (a : Addr) : Prop :=
  AllocPos (LayData (h a)) =
  Vec2D_Add (AllocPosOrig (LayData (h a))) (NewVec2DFmPoint delta).

(** ** The re-render entry point in the words of the specification *)

(** The calls of a full re-pass of the node [who], whose layout step
    starts from the layout data [ld]. *)
Definition full_repass (who : string) (ld : LayoutData) (updt : bool) : list Call :=
  [CUpdateStart who; CInit2DTree who; CStyle2DTree who; CSize2DTree who;
   CLayout2DTree who ld; CRender2DTree who; CUpdateEndNoSig who updt].

(** The specification's reading of the render entry point: whenever the
    dirty flag is set, the node performs the full re-pass from its saved
    layout data. *)
Definition Render2D_repasses_whenever_dirty : Prop :=
  forall (n : Node2D) (h : Heap),
    NeedsFullReRender (h (This n)) = true ->
    exists h' updt,
      Render2D n h =
      Returns (h', full_repass (Nm (Node (h (This n)))) (LayData (h (This n))) updt).

(** ** Nodes ready to render *)

(** A node that is not dirty and is bound to a viewport. *)
Definition ready (g : WidgetBase) : Prop :=
  FullReRender (Node g) = false /\ Viewport (Node g) <> None.

(** The clip bounds a trace pushes, and those it pops. *)
Definition pushes (t : list Call) : nat :=
  length (List.filter (fun c => match c with CPushBounds _ _ => true | _ => false end) t).
Definition pops (t : list Call) : nat :=
  length (List.filter (fun c => match c with CPopBounds _ => true | _ => false end) t).

End Widgets.

Arguments Node {Style} _.
Arguments Sty {Style} _.
Arguments LayData {Style} _.
Arguments mkWidgetBase {Style} _ _ _.
Arguments NeedsFullReRender {Style} _.
Arguments IsOverlay {Style} _.
Arguments ClearFullReRender {Style} _.
Arguments DisconnectAllEvents {Style} _ _.
Arguments modify {Style} _ _ _ _.
Arguments set_Node {Style} _ _.
Arguments set_LayData {Style} _ _.
Arguments moves_only {Style} _ _ _.
Arguments moved {Style} _ _ _.
Arguments ready {Style} _.

(** ** The layout pass of one node *)

Definition set_AllocPosOrig (p : Vec2D) (ld : LayoutData) : LayoutData :=
  mkLayoutData (AllocPos ld) (AllocPosRel ld) (AllocSize ld) p (SizePref ld).
Definition set_BBox (r : image.Rectangle) (g : Node2DBase) : Node2DBase :=
  mkNode2DBase (Nm g) (FullReRender g) (Overlay g) (Viewport g) r (ObjBBox g)
    (VpBBox g) (WinBBox g) (EventConns g).
Definition set_Sty {Style} (s : Style) (g : WidgetBase Style) : WidgetBase Style :=
  mkWidgetBase (Node g) s (LayData g).

Definition Vec2DZero : Vec2D := mkVec2D F32.zero F32.zero.

Section Layout.

Variable Style : Type.
Variable ComputeBBox2DBase : image.Rectangle -> image.Point -> Node2DBase -> Node2DBase.

(** Declared outside the source files and taken as parameters:
    [RectFromPosSize]; the style's [SetUnitContext]; the node's own
    [Init2D] and [Style2D], reached through its interface; whether the
    node is a viewport ([AsViewport2D() != nil]); the parent widget
    ([KiToNode2D(g.Par)], then [AsWidget()]), if there is one; and
    [IsField()]. *)
Variable RectFromPosSize : Vec2D -> Vec2D -> image.Rectangle.
Variable SetUnitContext : option Viewport2D -> Vec2D -> Style -> Style.
Variable Init2D Style2D : Node2D -> Heap Style -> Heap Style.
Variable AsViewport2D : Node2D -> bool.
Variable ParentWidget : Node2D -> option Addr.
Variable IsField : Node2D -> bool.

(** [AddParentPos]: layout positions are relative to the parent; the
    result is the size of the parent. *)
Definition AddParentPos (n : Node2D) (h : Heap Style) : Vec2D * Heap Style :=
  match ParentWidget n with
  | Some pw =>
    let h :=
      if negb (IsField n) then
        modify (This n)
          (fun g => set_LayData
                      (set_AllocPos
                         (Vec2D_Add (AllocPos (LayData (h pw))) (AllocPosRel (LayData g)))
                         (LayData g)) g) h
      else h in
    (AllocSize (LayData (h pw)), h)
  | None => (Vec2DZero, h)
  end.

(** [BBoxFromAlloc], which is [BBox2D] for widgets. *)
Definition BBoxFromAlloc (g : WidgetBase Style) : image.Rectangle :=
  RectFromPosSize (AllocPos (LayData g)) (AllocSize (LayData g)).

(** [Layout2DBase] *)
Definition Layout2DBase (parBBox : image.Rectangle) (initStyle : bool)
    (n : Node2D) (h : Heap Style) : Heap Style :=
  let g := This n in
  let h :=
    match Viewport (Node (h g)) with
    | None =>                                            (* robust *)
      if negb (AsViewport2D n) then Style2D n (Init2D n h) else h
    | Some _ => h
    end in
  let '(psize, h) := AddParentPos n h in
  let h := modify g (fun w => set_LayData
                                (set_AllocPosOrig (AllocPos (LayData w)) (LayData w)) w) h in
  let h :=
    if initStyle then
      modify g (fun w => set_Sty (SetUnitContext (Viewport (Node w)) psize (Sty w)) w) h
    else h in
  let h := modify g (fun w => set_Node (set_BBox (BBoxFromAlloc w) (Node w)) w) h in
  ComputeBBox2D Style ComputeBBox2DBase parBBox image.ZP n h.

End Layout.

(** ** Parts of a widget *)

(** The types of parts that [ConfigPartsIconLabel] asks for. *)
Inductive PartType := KiT_Icon | KiT_Space | KiT_Label.

(** [kit.TypeAndNameList], with [Add] appending. *)
Definition TypeAndNameList : Type := list (PartType * string).

Section ConfigParts.

(** [IconName(icnm).IsValid()], declared with the icons. *)
Variable IconName_IsValid : string -> bool.

(** [ConfigPartsIconLabel]: the config with the indexes of the icon and of
    the label in it, [-1] for a part that is left out. *)
Definition ConfigPartsIconLabel (icnm txt : string) : TypeAndNameList * Z * Z :=
  let config : TypeAndNameList := [] in
  let icIdx := -1 in
  let lbIdx := -1 in
  let '(config, icIdx) :=
    if IconName_IsValid icnm then
      let config := config ++ [(KiT_Icon, "icon")] in
      let icIdx := 0 in
      if negb (String.eqb txt "") then (config ++ [(KiT_Space, "space")], icIdx)
      else (config, icIdx)
    else (config, icIdx) in
  if negb (String.eqb txt "") then
    let lbIdx := len config in
    (config ++ [(KiT_Label, "label")], icIdx, lbIdx)
  else (config, icIdx, lbIdx).

End ConfigParts.

(** ** A sample instance of the parameters *)

(** A style that is just its box space. *)
Definition SampleStyle : Type := float32.
Definition sample_BoxSpace (s : SampleStyle) : float32 := s.

(** The bounding boxes follow the moved box, clipped by the parent. *)
Definition sample_ComputeBBox2DBase (parBBox : image.Rectangle) (delta : image.Point)
    (g : Node2DBase) : Node2DBase :=
  let obj := image.Add (BBox g) delta in
  let vp := image.Intersect parBBox obj in
  mkNode2DBase (Nm g) (FullReRender g) (Overlay g) (Viewport g) (BBox g) obj vp vp
    (EventConns g).

Definition sample_ConnectToViewport (g : Node2DBase) : Node2DBase := g.
Definition sample_UpdateStart (n : Node2D) (h : Heap SampleStyle) : bool * Heap SampleStyle :=
  (true, h).
Definition sample_UpdateEndNoSig (updt : bool) (n : Node2D) (h : Heap SampleStyle)
  : Heap SampleStyle := h.
Definition sample_pass (n : Node2D) (h : Heap SampleStyle) : Heap SampleStyle := h.

Definition rect (x0 y0 x1 y1 : Z) : image.Rectangle :=
  image.mkRectangle (image.mkPoint x0 y0) (image.mkPoint x1 y1).
Definition vec (x y : Z) : Vec2D := mkVec2D (F32.of_int x) (F32.of_int y).

(** A laid-out widget at [(x, y)] of size [w] by [h], drawn into a 100 by
    100 viewport, bound to mouse events. *)
Definition sample_widget (nm : string) (dirty : bool) (vpbb : image.Rectangle)
    (x y w h : Z) : WidgetBase SampleStyle :=
  mkWidgetBase
    (mkNode2DBase nm dirty false (Some (mkViewport2D (rect 0 0 100 100)))
       (rect x y (x + w) (y + h)) (rect x y (x + w) (y + h)) vpbb vpbb
       [(MouseEvent, RegPri); (MouseHoverEvent, RegPri)])
    (F32.of_int 2)
    (mkLayoutData (vec x y) (vec 0 0) (vec w h) (vec x y) (vec w h)).

(** A button (a parts widget at address 0 with its parts layout at 1 and a
    label inside it at 2) with one child at 3. *)
Definition sample_tree : Node2D :=
  IsPartsWidget 0%nat (IsWidget 1%nat [IsWidget 2%nat []]) [IsWidget 3%nat []].

Definition sample_heap : Heap SampleStyle := fun a =>
  match a with
  | 0%nat => sample_widget "button" true (rect 10 10 60 30) 10 10 50 20
  | 1%nat => sample_widget "parts" false (rect 12 12 58 28) 12 12 46 16
  | 2%nat => sample_widget "label" false (rect 12 12 58 28) 12 12 46 16
  | _ => sample_widget "child" false (rect 20 40 40 50) 20 40 20 10
  end.

(** The button and its parts after a render: nothing is dirty. *)
Definition calm_heap : Heap SampleStyle := fun _ =>
  sample_widget "button" false (rect 10 10 60 30) 10 10 50 20.

(** A visible button that was never bound to a viewport. *)
Definition unbound_heap : Heap SampleStyle := fun _ =>
  mkWidgetBase
    (mkNode2DBase "button" false false None (rect 10 10 60 30) (rect 10 10 60 30)
       (rect 10 10 60 30) (rect 10 10 60 30) [])
    (F32.of_int 2)
    (mkLayoutData (vec 10 10) (vec 0 0) (vec 50 20) (vec 10 10) (vec 50 20)).

(** The layout parameters: boxes from truncated corners, a unit context
    that leaves the style alone, no overrides of [Init2D] and [Style2D],
    and the button at address 0 as the parent widget of all other nodes. *)
Definition sample_RectFromPosSize (pos sz : Vec2D) : image.Rectangle :=
  image.mkRectangle
    (image.mkPoint (F32.to_int (VX pos)) (F32.to_int (VY pos)))
    (image.mkPoint (F32.to_int (F32.add (VX pos) (VX sz)))
                   (F32.to_int (F32.add (VY pos) (VY sz)))).
Definition sample_SetUnitContext (vp : option Viewport2D) (psize : Vec2D)
    (s : SampleStyle) : SampleStyle := s.
Definition sample_AsViewport2D (n : Node2D) : bool := false.
Definition sample_ParentWidget (n : Node2D) : option Addr :=
  match This n with
  | 0%nat => None
  | _ => Some 0%nat
  end.
Definition sample_IsField (n : Node2D) : bool := false.

(** The same button, dirty, scrolled out of view: its cached viewport box
    is empty. *)
Definition hidden_tree : Node2D := IsWidget 0%nat [].
Definition hidden_heap : Heap SampleStyle := fun _ =>
  sample_widget "button" true image.ZR 10 10 50 20.

End Widget.

(* ================================================================== *)
(** * float64 *)
(* ================================================================== *)

Module F64.

Definition prec : Z := 53.
Definition emax : Z := 1024.

Definition t : Type := spec_float.

(** [float64(i)] for an integer [i]. *)
Definition of_int (z : Z) : t := binary_normalize prec emax z 0 false.

(** [float64(f)] for a [float32]: every binary32 number is a binary64
    number. *)
Definition of_f32 (f : float32) : t :=
  match f with
  | S754_finite s m e => binary_normalize prec emax (if s then Z.neg m else Z.pos m) e s
  | other => other
  end.

End F64.

Abbreviation float64 := F64.t.

(* ================================================================== *)
(** * reflect: struct tags *)
(* ================================================================== *)

Module reflect.

(** The double-quote character. *)
Definition dquote : Ascii.ascii := Ascii.ascii_of_nat 34.
Definition backslash : Ascii.ascii := Ascii.ascii_of_nat 92.
Definition space : Ascii.ascii := Ascii.ascii_of_nat 32.
Definition colon : Ascii.ascii := Ascii.ascii_of_nat 58.

(** A quoted tag value, and a [key:"value"] pair. *)
Definition quoted (v : string) : string :=
  String dquote (v +:+ String dquote EmptyString).
Definition kv (k v : string) : string := k +:+ ":" +:+ quoted v.

(** ** [StructTag.Get]

    The lookup of the Go library: skip leading spaces; scan a name up to a
    colon (a space, a quote or a control character ends it); expect the
    colon and a quoted string; compare the name with the key; go on with
    what follows the quoted string.  Anything unexpected ends the search
    with the empty string. *)

Fixpoint skip_spaces (s : string) : string :=
  match s with
  | String c s' => if Ascii.eqb c space then skip_spaces s' else s
  | EmptyString => s
  end.

(** A character of a name: above the space, and neither a colon, a
    double quote nor the delete character. *)
Definition name_char (c : Ascii.ascii) : bool :=
  (32 <? Ascii.nat_of_ascii c)%nat && negb (Ascii.eqb c colon) && negb (Ascii.eqb c dquote)
  && negb (Ascii.nat_of_ascii c =? 127)%nat.

(** The scanned name and the rest of the tag, starting at [tag[i]]. *)
Fixpoint scan_name (s : string) : string * string :=
  match s with
  | String c s' =>
    if name_char c then let '(nm, rest) := scan_name s' in (String c nm, rest)
    else (EmptyString, s)
  | EmptyString => (EmptyString, EmptyString)
  end.

(** After the opening quote: the text up to the closing quote and what
    follows it; a backslash takes the next character with it.  [None] when
    the quote is never closed. *)
Fixpoint scan_quoted (skip : bool) (s : string) : option (string * string) :=
  match s with
  | EmptyString => None
  | String c s' =>
    if skip then
      match scan_quoted false s' with
      | Some (v, rest) => Some (String c v, rest)
      | None => None
      end
    else if Ascii.eqb c dquote then Some (EmptyString, s')
    else
      match scan_quoted (Ascii.eqb c backslash) s' with
      | Some (v, rest) => Some (String c v, rest)
      | None => None
      end
  end.

Fixpoint has_backslash (s : string) : bool :=
  match s with
  | String c s' => Ascii.eqb c backslash || has_backslash s'
  | EmptyString => false
  end.

(** [strconv.Unquote] of the quoted value.  The tags of this program hold
    no escape sequence; a value with one is answered as not found. *)
Definition Unquote (v : string) : option string :=
  if has_backslash v then None else Some v.

(** The search loop; every round consumes at least three characters. *)
Fixpoint Lookup_loop (fuel : nat) (tag key : string) : option string :=
  match fuel with
  | O => None
  | S fuel =>
    let tag := skip_spaces tag in
    match tag with
    | EmptyString => None
    | _ =>
      match scan_name tag with
      | (EmptyString, _) => None
      | (name, String c1 (String c2 rest)) =>
        if Ascii.eqb c1 colon && Ascii.eqb c2 dquote then
          match scan_quoted false rest with
          | None => None
          | Some (v, rest') =>
            if String.eqb key name then Unquote v
            else Lookup_loop fuel rest' key
          end
        else None
      | (_, _) => None
      end
    end
  end.

(** [tag.Get(key)] *)
Definition Get (tag key : string) : string :=
  match Lookup_loop (S (String.length tag)) tag key with
  | Some v => v
  | None => EmptyString
  end.

(** ** Types and struct fields *)

(** A Go type as the style walk sees it: a struct with its fields, or any
    other named type. *)
#[warnings="-register-all"]
Inductive GoType :=
| TNamed (name : string)
| TStruct (name : string) (fields : list StructField)
with StructField :=
| mkStructField (Name PkgPath Tag : string) (Typ : GoType).

Definition Name_of (t : GoType) : string :=
  match t with TNamed n | TStruct n _ => n end.

Definition Tag (sf : StructField) : string :=
  match sf with mkStructField _ _ tg _ => tg end.
Definition PkgPath (sf : StructField) : string :=
  match sf with mkStructField _ p _ _ => p end.
Definition Typ (sf : StructField) : GoType :=
  match sf with mkStructField _ _ _ t => t end.
Definition FieldName (sf : StructField) : string :=
  match sf with mkStructField n _ _ _ => n end.

(** Identity of types ([pt != ot]). *)
Fixpoint GoType_eqb (a b : GoType) {struct a} : bool :=
  match a, b with
  | TNamed n, TNamed m => String.eqb n m
  | TStruct n fs, TStruct m gs =>
    String.eqb n m &&
    (fix go (fs gs : list StructField) {struct fs} : bool :=
       match fs, gs with
       | [], [] => true
       | mkStructField n1 p1 t1 ty1 :: fs', mkStructField n2 p2 t2 ty2 :: gs' =>
         String.eqb n1 n2 && String.eqb p1 p2 && String.eqb t1 t2
         && GoType_eqb ty1 ty2 && go fs' gs'
       | _, _ => false
       end) fs gs
  | _, _ => false
  end.

End reflect.

(* ================================================================== *)
(** * gi: style resolution *)
(* ================================================================== *)

Module Style.
Import reflect.

(** What [log.Printf] is given. *)
Inductive LogLine :=
| LogNotStruct (type_name : string)        (* only works on structs *)
| LogInheritanceType (ot pt : string)      (* inheritance only for same type *)
| LogBadInheritTag (inhs : string)         (* bad inherit tag *)
| LogStyleField (err : string).            (* StyleField: err *)

(** The panics of package reflect that the walk can run into. *)
Definition panic_set_zero : string :=
  "reflect: call of reflect.Value.Set on zero Value".
Definition panic_convert_zero : string :=
  "reflect: call of reflect.Value.Convert on zero Value".
Definition panic_convert : string :=
  "reflect.Value.Convert: value cannot be converted to the type".
Definition panic_field_index : string :=
  "reflect: Field index out of range".

(** [units.Px] and the other units of a [units.Value]. *)
Inductive Unit := Px | Em | Pct | Dot.

Section Resolver.

(** [Color] with its [SetFromString], [units.Value] with its
    [SetFromString] and [Set], and the enum registry [ki.Enums]: declared
    outside the source files, taken as parameters. *)
Variable Color : Type.
Variable Color_SetFromString : Color -> string -> Color * option string.
Variable UnitsValue : Type.
Variable UnitsValue_SetFromString : UnitsValue -> string -> UnitsValue.
Variable UnitsValue_Set : UnitsValue -> float64 -> Unit -> UnitsValue.
Variable FindEnum : string -> bool.
Variable SetEnumValueFromAltString : string -> Z -> string -> Z.

(** A property value, [interface{}]: its dynamic type and value. *)
Inductive Iface :=
| INil
| IString (s : string)
| IBool (b : bool)
| IInt (z : Z)
| IFloat32 (f : float32)
| IFloat64 (f : float64)
| IUnitsValue (u : UnitsValue)
| IOther (type_name : string).   (* a pointer, struct, slice, map, ... *)

(** The value of a style struct or of one of its fields.  [Color] and
    [units.Value] are structs that the walk does not enter. *)
#[warnings="-register-all"]
Inductive Value :=
| VBool (b : bool)
| VInt (z : Z)                   (* the kinds from Int to Uint64 *)
| VFloat64 (f : float64)
| VString (s : string)
| VColor (c : Color)
| VUnits (u : UnitsValue)
| VStruct (fields : list Value).

Abbreviation Props := (gmap string Iface).

(** [vf.Set(x)] for the field [x] of a parent or default style, the zero
    [reflect.Value] ([None]) when that style is nil. *)
Definition Set_from (x : option Value) (lg : list LogLine)
  : Outcome (Value * list LogLine) :=
  match x with
  | Some v => Returns (v, lg)
  | None => Panics panic_set_zero
  end.

(** [reflect.ValueOf(prv).Convert(reflect.TypeOf(0.0))] *)
Definition Convert_float64 (prv : Iface) : Outcome float64 :=
  match prv with
  | IInt z => Returns (F64.of_int z)
  | IFloat32 f => Returns (F64.of_f32 f)
  | IFloat64 f => Returns f
  | INil => Panics panic_convert_zero
  | _ => Panics panic_convert
  end.

(** [StyleField]: the standard field processing function. *)
Definition StyleField (sf : StructField) (vf : Value) (pf df : option Value)
    (hasPar : bool) (tag : string) (props : Props)
  : Outcome (Value * list LogLine) :=
  (* first process inherit flag *)
  let inhs := Get (Tag sf) "inherit" in
  let first : Outcome (Value * list LogLine) :=
    if String.eqb inhs "true" then
      if hasPar then Set_from pf [] else Returns (vf, [])
    else if negb (String.eqb inhs "") && negb (String.eqb inhs "false") then
      Returns (vf, [LogBadInheritTag inhs])
    else Returns (vf, []) in
  match first with
  | Panics why => Panics why
  | Returns (vf, lg) =>
    match props !! tag with
    | None => Returns (vf, lg)
    | Some prv =>
      let prstr := match prv with IString s => s | _ => "" end in
      let keyword :=
        match prv with
        | IString s =>
          if String.eqb s "inherit" && hasPar then Some pf
          else if String.eqb s "initial" && hasPar then Some df
          else None
        | _ => None
        end in
      match keyword with
      | Some x => Set_from x lg
      | None =>
        match vf with
        | VColor c =>
          let '(c, err) := Color_SetFromString c prstr in
          Returns (VColor c,
                   lg ++ match err with Some e => [LogStyleField e] | None => [] end)
        | VUnits u =>
          match prv with
          | IString s => Returns (VUnits (UnitsValue_SetFromString u s), lg)
          | IUnitsValue v => Returns (VUnits v, lg)
          | _ => (* assume Px as an implicit default *)
            match Convert_float64 prv with
            | Panics why => Panics why
            | Returns prvflt => Returns (VUnits (UnitsValue_Set u prvflt Px), lg)
            end
          end
        | VStruct _ => Returns (vf, lg)   (* no can do any struct otherwise *)
        | VInt z =>                       (* some kind of int *)
          if FindEnum (Name_of (Typ sf)) then
            Returns (VInt (SetEnumValueFromAltString (Name_of (Typ sf)) z prstr), lg)
          else Returns (vf, lg)
        | VBool _ | VFloat64 _ | VString _ =>
          (* Convert(reflect.TypeOf(vt)): to the type of the type descriptor *)
          Panics panic_convert
        end
      end
    end
  end.

(** The fields of kind bool, float or string: neither a struct nor some
    kind of int, they reach the final conversion of [StyleField]. *)
Definition plain_kind (vf : Value) : bool :=
  match vf with
  | VBool _ | VFloat64 _ | VString _ => true
  | _ => false
  end.

(** The field processing function handed to [WalkStyleStruct]. *)
Definition WalkStyleFieldFun : Type :=
  StructField -> Value -> option Value -> option Value -> bool -> string -> Props
  -> Outcome (Value * list LogLine).

(** [tagEff] *)
Definition effective_tag (outerTag tag : string) : string :=
  if negb (String.eqb outerTag "") && (0 <? String.length tag)%nat then
    match tag with
    | String c _ =>
      if Ascii.eqb c (Ascii.ascii_of_nat 46) then outerTag +:+ tag
      else outerTag +:+ "-" +:+ tag
    | EmptyString => tag
    end
  else tag.

(** [ft.Kind() == reflect.Struct && ft.Name() != "Value" && ft.Name() != "Color"] *)
Definition walks_into (ft : GoType) : bool :=
  match ft with
  | TStruct nm _ => negb (String.eqb nm "Value") && negb (String.eqb nm "Color")
  | TNamed _ => false
  end.

(** [reflect.ValueOf(x).Elem()] of a parent or default style as the list
    of its fields still ahead. *)
Definition fields_of (x : option Value) : Outcome (option (list Value)) :=
  match x with
  | None => Returns None
  | Some (VStruct l) => Returns (Some l)
  | Some _ => Panics panic_field_index
  end.

(** [.Field(i)] and the fields after it. *)
Definition next_field (l : option (list Value))
  : Outcome (option Value * option (list Value)) :=
  match l with
  | None => Returns (None, None)
  | Some (x :: l') => Returns (Some x, Some l')
  | Some [] => Panics panic_field_index
  end.

Definition rest_fields (l : option (list Value)) : option (list Value) :=
  match l with
  | Some (_ :: l') => Some l'
  | other => other
  end.

(** [WalkStyleStruct]: calls [fun_] on each field with a valid xml tag.
    [obj] is the struct behind the pointer handed over; the result is the
    struct after the walk.  [parent] comes with its type. *)
Fixpoint WalkStyleStruct (ot : GoType) (obj : Value) (parent : option (GoType * Value))
    (defs : option Value) (outerTag : string) (props : Props)
    (fun_ : WalkStyleFieldFun) {struct ot} : Outcome (Value * list LogLine) :=
  match ot with
  | TNamed nm => Returns (obj, [LogNotStruct nm])
  | TStruct nm fields =>
    let '(parent, lg0) :=
      match parent with
      | Some (pt, pv) =>
        if GoType_eqb pt ot then (Some pv, [])
        else (None, [LogInheritanceType nm (Name_of pt)])
      | None => (None, [])
      end in
    let hasPar := match parent with Some _ => true | None => false end in
    match obj, fields_of parent, fields_of defs with
    | VStruct vs, Returns ps, Returns ds =>
      match
      (fix loop (fields : list StructField) (vs : list Value)
                (ps ds : option (list Value)) {struct fields}
         : Outcome (list Value * list LogLine) :=
         match fields, vs with
         | [], _ => Returns (vs, [])
         | _ :: _, [] => Panics panic_field_index
         | sf :: fields', vf :: vs' =>
           let continue_with (r : Outcome (Value * list LogLine)) :=
             match r with
             | Panics why => Panics why
             | Returns (vf', lg1) =>
               match loop fields' vs' (rest_fields ps) (rest_fields ds) with
               | Panics why => Panics why
               | Returns (vs'', lg2) => Returns (vf' :: vs'', lg1 ++ lg2)
               end
             end in
           match sf with
           | mkStructField _ pkgPath tg ft =>
             if negb (String.eqb pkgPath "") then       (* skip unexported fields *)
               continue_with (Returns (vf, []))
             else
               let tag := Get tg "xml" in
               if String.eqb tag "-" then continue_with (Returns (vf, []))
               else
                 let tagEff := effective_tag outerTag tag in
                 match next_field ps, next_field ds with
                 | Returns (pf, _), Returns (df, _) =>
                   if walks_into ft then
                     continue_with
                       (WalkStyleStruct ft vf
                          (match pf with Some p => Some (ft, p) | None => None end)
                          df tag props fun_)
                   else if String.eqb tag "" then  (* non-struct = don't process *)
                     continue_with (Returns (vf, []))
                   else
                     continue_with (fun_ sf vf pf df hasPar tagEff props)
                 | Panics why, _ | _, Panics why => Panics why
                 end
           end
         end) fields vs ps ds
      with
      | Panics why => Panics why
      | Returns (vs', lg) => Returns (VStruct vs', lg0 ++ lg)
      end
    | VStruct _, Panics why, _ | VStruct _, _, Panics why => Panics why
    | _, _, _ => Panics panic_field_index
    end
  end.

(** The loop over the fields, as [WalkStyleStruct] runs it. *)
Definition WalkFields (hasPar : bool) (outerTag : string) (props : Props)
    (fun_ : WalkStyleFieldFun)
  : list StructField -> list Value -> option (list Value) -> option (list Value)
    -> Outcome (list Value * list LogLine) :=
  fix loop (fields : list StructField) (vs : list Value)
           (ps ds : option (list Value)) {struct fields}
    : Outcome (list Value * list LogLine) :=
    match fields, vs with
    | [], _ => Returns (vs, [])
    | _ :: _, [] => Panics panic_field_index
    | sf :: fields', vf :: vs' =>
      let continue_with (r : Outcome (Value * list LogLine)) :=
        match r with
        | Panics why => Panics why
        | Returns (vf', lg1) =>
          match loop fields' vs' (rest_fields ps) (rest_fields ds) with
          | Panics why => Panics why
          | Returns (vs'', lg2) => Returns (vf' :: vs'', lg1 ++ lg2)
          end
        end in
      match sf with
      | mkStructField _ pkgPath tg ft =>
        if negb (String.eqb pkgPath "") then
          continue_with (Returns (vf, []))
        else
          let tag := Get tg "xml" in
          if String.eqb tag "-" then continue_with (Returns (vf, []))
          else
            let tagEff := effective_tag outerTag tag in
            match next_field ps, next_field ds with
            | Returns (pf, _), Returns (df, _) =>
              if walks_into ft then
                continue_with
                  (WalkStyleStruct ft vf
                     (match pf with Some p => Some (ft, p) | None => None end)
                     df tag props fun_)
              else if String.eqb tag "" then
                continue_with (Returns (vf, []))
              else
                continue_with (fun_ sf vf pf df hasPar tagEff props)
            | Panics why, _ | _, Panics why => Panics why
            end
      end
    end.

(** [StyleUnitsValue]: manual method for getting a units value directly;
    the result tells whether the property was there. *)
Definition StyleUnitsValue (tag : string) (uv : UnitsValue) (props : Props)
  : bool * UnitsValue :=
  match props !! tag with
  | None => (false, uv)
  | Some prv =>
    (true,
     match prv with
     | IString v => UnitsValue_SetFromString uv v
     | IFloat64 v => UnitsValue_Set uv v Px             (* assume px *)
     | IFloat32 v => UnitsValue_Set uv (F64.of_f32 v) Px
     | IInt v => UnitsValue_Set uv (F64.of_int v) Px
     | _ => uv
     end)
  end.

End Resolver.

Arguments INil {UnitsValue}.
Arguments IString {UnitsValue} s.
Arguments IBool {UnitsValue} b.
Arguments IInt {UnitsValue} z.
Arguments IFloat32 {UnitsValue} f.
Arguments IFloat64 {UnitsValue} f.
Arguments IUnitsValue {UnitsValue} u.
Arguments IOther {UnitsValue} type_name.
Arguments VBool {Color UnitsValue} b.
Arguments VInt {Color UnitsValue} z.
Arguments VFloat64 {Color UnitsValue} f.
Arguments VString {Color UnitsValue} s.
Arguments VColor {Color UnitsValue} c.
Arguments VUnits {Color UnitsValue} u.
Arguments VStruct {Color UnitsValue} fields.
Arguments plain_kind {Color UnitsValue} vf.

(** ** Values that have the shape of their type *)

(** As far as the walk looks: a struct value for a struct type, with a
    value for each of its fields, and so on for the fields that the walk
    enters. *)
Fixpoint walkable {Color UnitsValue : Type} (t : GoType) (v : Value Color UnitsValue)
    {struct t} : bool :=
  match t, v with
  | TStruct _ fields, VStruct vs =>
    (fix go (fields : list StructField) (vs : list (Value Color UnitsValue))
         {struct fields} : bool :=
       match fields, vs with
       | [], _ => true
       | _ :: _, [] => false
       | mkStructField _ _ _ ft :: fields', vf :: vs' =>
         (if walks_into ft then walkable ft vf else true) && go fields' vs'
       end) fields vs
  | TStruct _ _, _ => false
  | TNamed _, _ => true
  end.

(** The fields of a walkable struct value, as [walkable] checks them. *)
Definition walkable_fields {Color UnitsValue : Type}
  : list StructField -> list (Value Color UnitsValue) -> bool :=
  fix go (fields : list StructField) (vs : list (Value Color UnitsValue))
      {struct fields} : bool :=
    match fields, vs with
    | [], _ => true
    | _ :: _, [] => false
    | mkStructField _ _ _ ft :: fields', vf :: vs' =>
      (if walks_into ft then walkable ft vf else true) && go fields' vs'
    end.

(** The same for a default style, which may be nil. *)
Definition walkable_or_nil {Color UnitsValue : Type} (t : GoType)
    (v : option (Value Color UnitsValue)) : bool :=
  match v with
  | Some v => walkable t v
  | None => true
  end.

(** ** The [Style] struct *)

(** A field tag with the xml name and the description, as the source
    writes them: separated by a comma. *)
Definition xml_desc (xml desc : string) : string :=
  kv "xml" xml +:+ "," +:+ kv "desc" desc.

Definition Color_T : GoType := TStruct "Color" [].
Definition Value_T : GoType := TStruct "Value" [].

Definition BorderStyle_T : GoType :=
  TStruct "BorderStyle"
    [ mkStructField "Style" "" (xml_desc "style" "how to draw the border")
        (TNamed "BorderDrawStyle");
      mkStructField "Width" "" (xml_desc "width" "width of the border") Value_T;
      mkStructField "Radius" "" (xml_desc "radius" "rounding of the corners") Value_T;
      mkStructField "Color" "" (xml_desc "color" "color of the border") Color_T ].

Definition ShadowStyle_T : GoType :=
  TStruct "ShadowStyle"
    [ mkStructField "HOffset" ""
        (xml_desc ".h-offset" "horizontal offset of shadow -- positive = right side, negative = left side")
        Value_T;
      mkStructField "VOffset" ""
        (xml_desc ".v-offset" "vertical offset of shadow -- positive = below, negative = above")
        Value_T;
      mkStructField "Blur" ""
        (xml_desc ".blur" "blur radius -- higher numbers = more blurry") Value_T;
      mkStructField "Spread" ""
        (xml_desc ".spread" "spread radius -- positive number increases size of shadow, negative descreases size")
        Value_T;
      mkStructField "Color" "" (xml_desc ".color" "color of the shadow") Color_T;
      mkStructField "Inset" ""
        (xml_desc ".inset" "shadow is inset within box instead of outset outside of box")
        (TNamed "bool") ].

Definition BackgroundStyle_T : GoType :=
  TStruct "BackgroundStyle"
    [ mkStructField "Color" "" (xml_desc "color" "background color") Color_T ].

(** The tag of [Style.Color]. *)
Definition Color_tag : string :=
  kv "xml" "color" +:+ "," +:+ kv "inherit" "true" +:+ "," +:+ kv "desc" "text color".

(** The tag of [Style.Display] and [Style.Visible]: the xml value lacks its
    opening quote. *)
Definition unopened_xml_tag (xml desc : string) : string :=
  "xml:" +:+ xml +:+ String dquote "," +:+ kv "desc" desc.

Definition Color_field : StructField := mkStructField "Color" "" Color_tag Color_T.
Definition Opacity_field : StructField :=
  mkStructField "Opacity" "" (xml_desc "opacity" "alpha value to apply to all elements")
    (TNamed "float64").
Definition Padding_field : StructField :=
  mkStructField "Padding" ""
    (xml_desc "padding" "transparent space around central content of box -- todo: if 4 values it is top, right, bottom, left; 3 is top, right&left, bottom; 2 is top & bottom, right and left")
    Value_T.

Section StyleStruct.

(** [units.Context], [LayoutStyle], [FontStyle] and [TextStyle] with their
    [SetStylePost] are declared outside the source files. *)
Variable Context_T LayoutStyle_T FontStyle_T TextStyle_T : GoType.

Definition Style_T : GoType :=
  TStruct "Style"
    [ mkStructField "IsSet" ""
        (kv "desc" "has this style been set from object values yet?") (TNamed "bool");
      mkStructField "Display" ""
        (unopened_xml_tag "display" "todo big enum of how to display item -- controls layout etc")
        (TNamed "bool");
      mkStructField "Visible" ""
        (unopened_xml_tag "visible" "todo big enum of how to display item -- controls layout etc")
        (TNamed "bool");
      mkStructField "UnContext" ""
        (kv "desc" "units context -- parameters necessary for anchoring relative units")
        Context_T;
      mkStructField "Layout" ""
        (kv "desc" "layout styles -- do not prefix with any xml") LayoutStyle_T;
      mkStructField "Border" ""
        (xml_desc "border" "border around the box element -- todo: can have separate ones for different sides")
        BorderStyle_T;
      mkStructField "BoxShadow" ""
        (xml_desc "box-shadow" "type of shadow to render around box") ShadowStyle_T;
      Padding_field;
      mkStructField "Font" "" (xml_desc "font" "font parameters") FontStyle_T;
      mkStructField "Text" "" (kv "desc" "text parameters -- no xml prefix") TextStyle_T;
      Color_field;
      mkStructField "Background" "" (xml_desc "background" "background settings")
        BackgroundStyle_T;
      Opacity_field;
      mkStructField "Outline" ""
        (xml_desc "outline" "draw an outline around an element -- mostly same styles as border -- default to none")
        BorderStyle_T;
      mkStructField "PointerEvents" ""
        (xml_desc "pointer-events" "does this element respond to pointer events -- default is true")
        (TNamed "bool") ].

(** The positions of the fields that [SetStyle] names. *)
Definition iIsSet : nat := 0.
Definition iLayout : nat := 4.
Definition iFont : nat := 8.
Definition iText : nat := 9.
Definition iColor : nat := 10.
Definition iOpacity : nat := 12.

Section SetStyle.

Variable Color : Type.
Variable Color_SetFromString : Color -> string -> Color * option string.
Variable UnitsValue : Type.
Variable UnitsValue_SetFromString : UnitsValue -> string -> UnitsValue.
Variable UnitsValue_Set : UnitsValue -> float64 -> Unit -> UnitsValue.
Variable FindEnum : string -> bool.
Variable SetEnumValueFromAltString : string -> Z -> string -> Z.
Variable Layout_SetStylePost Font_SetStylePost Text_SetStylePost :
  Value Color UnitsValue -> Value Color UnitsValue.

(** [SetStyle]: set style values from the property map, inheriting from
    the parent, with a default style for the initial setting. *)
Definition SetStyle (s : Value Color UnitsValue)
    (parent defs : option (Value Color UnitsValue))
    (props : gmap string (Iface UnitsValue))
  : Outcome (Value Color UnitsValue * list LogLine) :=
  let pfi := match parent with Some p => Some (Style_T, p) | None => None end in
  match WalkStyleStruct Color UnitsValue Style_T s pfi defs "" props
          (StyleField Color Color_SetFromString UnitsValue UnitsValue_SetFromString
             UnitsValue_Set FindEnum SetEnumValueFromAltString) with
  | Panics why => Panics why
  | Returns (VStruct fs, lg) =>
    let fs := alter Layout_SetStylePost iLayout fs in
    let fs := alter Font_SetStylePost iFont fs in
    let fs := alter Text_SetStylePost iText fs in
    let fs := <[iIsSet := VBool true]> fs in
    Returns (VStruct fs, lg)
  | Returns other => Returns other
  end.

(** The field of a style at a position. *)
Definition field_at (i : nat) (s : Value Color UnitsValue)
  : option (Value Color UnitsValue) :=
  match s with
  | VStruct fs => fs !! i
  | _ => None
  end.

(** ** The keyword rule in the words of the specification *)

(** The specification's reading of the keywords: for any parent and
    default styles, nil or not, an entry [initial] sets the field to the
    value of the default style. *)
Definition initial_always_takes_default : Prop :=
  forall sf vf pf d hasPar tag (props : gmap string (Iface UnitsValue)),
    props !! tag = Some (IString "initial") ->
    exists lg,
      StyleField Color Color_SetFromString UnitsValue UnitsValue_SetFromString
        UnitsValue_Set FindEnum SetEnumValueFromAltString
        sf vf pf (Some d) hasPar tag props = Returns (d, lg).

End SetStyle.
End StyleStruct.

(** ** A sample instance of the parameters *)

Definition SampleColor : Type := Mesh.RGBA.
Definition red : SampleColor := Mesh.mkRGBA 255 0 0 255.
Definition black : SampleColor := Mesh.mkRGBA 0 0 0 255.

Definition sample_Color_SetFromString (c : SampleColor) (s : string)
  : SampleColor * option string :=
  if String.eqb s "red" then (red, None)
  else if String.eqb s "black" then (black, None)
  else (c, Some ("invalid color: " +:+ s)).

Record SampleUnits := mkSampleUnits { Val : float64; Un : Unit }.

Definition sample_Units_SetFromString (u : SampleUnits) (s : string) : SampleUnits :=
  if String.eqb s "0" then mkSampleUnits (F64.of_int 0) Px else u.
Definition sample_Units_Set (u : SampleUnits) (f : float64) (un : Unit) : SampleUnits :=
  mkSampleUnits f un.

Definition sample_FindEnum (nm : string) : bool :=
  String.eqb nm "BorderDrawStyle" || String.eqb nm "BoxSides".
Definition sample_SetEnum (nm : string) (z : Z) (s : string) : Z :=
  if String.eqb s "solid" then 0 else if String.eqb s "none" then 8 else z.

Abbreviation SampleValue := (Value SampleColor SampleUnits).

(** Stand-ins for the four struct types declared elsewhere. *)
Definition sample_Context_T : GoType := TStruct "Context" [].
Definition sample_LayoutStyle_T : GoType := TStruct "LayoutStyle" [].
Definition sample_FontStyle_T : GoType := TStruct "FontStyle" [].
Definition sample_TextStyle_T : GoType := TStruct "TextStyle" [].
Definition sample_SetStylePost (v : SampleValue) : SampleValue := v.

Definition px (z : Z) : SampleValue := VUnits (mkSampleUnits (F64.of_int z) Px).
Definition sample_border : SampleValue :=
  VStruct [VInt 0; px 1; px 0; VColor black].

(** A style with the given text color and opacity. *)
Definition sample_style (c : SampleColor) (opacity : float64) : SampleValue :=
  VStruct
    [ VBool false; VBool false; VBool false;
      VStruct []; VStruct [];
      sample_border;
      VStruct [px 0; px 0; px 0; px 0; VColor black; VBool false];
      px 2;
      VStruct []; VStruct [];
      VColor c;
      VStruct [VColor black];
      VFloat64 opacity;
      sample_border;
      VBool true ].

Definition sample_SetStyle :=
  SetStyle sample_Context_T sample_LayoutStyle_T sample_FontStyle_T sample_TextStyle_T
    SampleColor sample_Color_SetFromString SampleUnits sample_Units_SetFromString
    sample_Units_Set sample_FindEnum sample_SetEnum
    sample_SetStylePost sample_SetStylePost sample_SetStylePost.

Definition sample_StyleField :=
  StyleField SampleColor sample_Color_SetFromString SampleUnits
    sample_Units_SetFromString sample_Units_Set sample_FindEnum sample_SetEnum.

(** A child with black text under a parent with red text. *)
Definition child_style : SampleValue := sample_style black (F64.of_int 1).
Definition parent_style : SampleValue := sample_style red (F64.of_int 1).

End Style.

(* ================================================================== *)
(** * glos: the draw programs of the OpenGL driver *)
(* ================================================================== *)

Module glos.

Inductive ShaderType := VertexShader | FragmentShader.

(** A GPU program as [initDrawProgs] sets it up. *)
Record Program := mkProgram {
  ProgName   : string;
  Shaders    : list (ShaderType * string);
  Uniforms   : list string;
  Inputs     : list string;
  FragData   : string;
  Compiled   : bool
}.

Definition NewProgram (nm : string) : Program := mkProgram nm [] [] [] "" false.
Definition with_Shader (t : ShaderType) (nm : string) (p : Program) : Program :=
  mkProgram (ProgName p) (Shaders p ++ [(t, nm)]) (Uniforms p) (Inputs p) (FragData p)
    (Compiled p).
Definition AddUniform (nm : string) (p : Program) : Program :=
  mkProgram (ProgName p) (Shaders p) (Uniforms p ++ [nm]) (Inputs p) (FragData p)
    (Compiled p).
Definition AddInput (nm : string) (p : Program) : Program :=
  mkProgram (ProgName p) (Shaders p) (Uniforms p) (Inputs p ++ [nm]) (FragData p)
    (Compiled p).
Definition SetFragDataVar (nm : string) (p : Program) : Program :=
  mkProgram (ProgName p) (Shaders p) (Uniforms p) (Inputs p) nm (Compiled p).
Definition set_Compiled (p : Program) : Program :=
  mkProgram (ProgName p) (Shaders p) (Uniforms p) (Inputs p) (FragData p) true.

(** [quadCoords]: the unit square, corner by corner. *)
Definition quadCoords : list float32 :=
  [F32.of_int 0; F32.of_int 0;    (* top left *)
   F32.of_int 1; F32.of_int 0;    (* top right *)
   F32.of_int 0; F32.of_int 1;    (* bottom left *)
   F32.of_int 1; F32.of_int 1].   (* bottom right *)

(** An input of a program, as [AddInput] returns it: the program it
    belongs to and its name. *)
Definition Input : Type := string * string.
Definition input_of (p : Program) (nm : string) : Input := (ProgName p, nm).

(** The buffer of a quad: the input it feeds, its data, and whether it
    was activated. *)
Record Quads := mkQuads { QInput : Input; QData : list float32; QActive : bool }.

(** The part of [appImpl] that the draw programs live in. *)
Record appImpl := mkApp {
  progInit  : bool;
  drawProg  : option Program;
  drawQuads : option Quads;
  fillProg  : option Program;
  fillQuads : option Quads
}.

Section Init.

(** What the GPU answers: the error, if any, of adding a shader to a
    program, of compiling a program, and of the error check made under a
    given context string. *)
Variable AddShader_err : string -> ShaderType -> string -> option string.
Variable Compile_err : string -> option string.
Variable ErrCheck : string -> option string.

(** [initDrawProgs]: the returned error ([None] is nil) and the app
    afterwards.  The results of the error checks made on the way are
    dropped, as in the source; only the last one is returned. *)
Definition initDrawProgs (app : appImpl) : option string * appImpl :=
  if progInit app then (None, app) else
  let p := NewProgram "draw" in
  match AddShader_err "draw" VertexShader "draw-vert" with
  | Some err => (Some err, app)
  | None =>
    let p := with_Shader VertexShader "draw-vert" p in
    match AddShader_err "draw" FragmentShader "draw-frag" with
    | Some err => (Some err, app)
    | None =>
      let p := with_Shader FragmentShader "draw-frag" p in
      let p := AddUniform "mvp" p in
      let p := AddUniform "uvp" p in
      let p := AddUniform "sample" p in
      let p := AddInput "pos" p in
      let pv := input_of p "pos" in
      let p := SetFragDataVar "outputColor" p in
      match Compile_err "draw" with
      | Some err => (Some err, app)
      | None =>
        let p := set_Compiled p in
        let app := mkApp (progInit app) (Some p) (drawQuads app) (fillProg app)
                     (fillQuads app) in
        let b := mkQuads pv quadCoords true in
        let app := mkApp (progInit app) (drawProg app) (Some b) (fillProg app)
                     (fillQuads app) in
        let p := NewProgram "fill" in
        match AddShader_err "fill" VertexShader "fill-vert" with
        | Some err => (Some err, app)
        | None =>
          let p := with_Shader VertexShader "fill-vert" p in
          match AddShader_err "fill" FragmentShader "fill-frag" with
          | Some err => (Some err, app)
          | None =>
            let p := with_Shader FragmentShader "fill-frag" p in
            let p := AddUniform "mvp" p in
            let p := AddUniform "color" p in
            let p := AddInput "pos" p in
            let p := SetFragDataVar "outputColor" p in
            match Compile_err "fill" with
            | Some err => (Some err, app)
            | None =>
              let p := set_Compiled p in
              let app := mkApp (progInit app) (drawProg app) (drawQuads app) (Some p)
                           (fillQuads app) in
              let b := mkQuads pv quadCoords true in
              let app := mkApp (progInit app) (drawProg app) (drawQuads app)
                           (fillProg app) (Some b) in
              match ErrCheck "initDrawProgs" with
              | Some err => (Some err, app)
              | None =>
                (None, mkApp true (drawProg app) (drawQuads app) (fillProg app)
                         (fillQuads app))
              end
            end
          end
        end
      end
    end
  end.

(** The programs and quads that drawing and filling use are all there.
    Both quads feed the input [pos] of the draw program: the input that
    the fill program adds is not kept. *)
Definition programs_ready (app : appImpl) : Prop :=
  (exists p, drawProg app = Some p /\ Compiled p = true) /\
  (exists p, fillProg app = Some p /\ Compiled p = true) /\
  (exists b, drawQuads app = Some b /\ QData b = quadCoords /\
             QInput b = ("draw", "pos")) /\
  (exists b, fillQuads app = Some b /\ QData b = quadCoords /\
             QInput b = ("draw", "pos")).

End Init.

(** An application that has initialised nothing yet, and a GPU that
    refuses to compile the fill program. *)
Definition fresh_app : appImpl := mkApp false None None None None.
Definition no_error3 (prog : string) (t : ShaderType) (nm : string) : option string := None.
Definition no_error (ctx : string) : option string := None.
Definition fill_does_not_compile (prog : string) : option string :=
  if String.eqb prog "fill" then Some "fill: compile error" else None.

End glos.

(* ================================================================== *)
(** * Properties of the mesh buffers *)
(* ================================================================== *)

Section LoopLemmas.
Import GoInt.
Context {S A : Type}.

Lemma appended_refl (l : list A) : appended l l 0.
Proof. exists []. split; [by rewrite app_nil_r | reflexivity]. Qed.

Lemma appended_one (l extra : list A) : appended l (l ++ extra) (len extra).
Proof. by exists extra. Qed.

Lemma appended_trans (a b c : list A) (n m : Z) :
  appended a b n -> appended b c m -> appended a c (n + m).
Proof.
  intros (x & -> & Hx) (y & -> & Hy). exists (x ++ y). split.
  - by rewrite app_assoc.
  - unfold len in *. rewrite length_app. lia.
Qed.

Lemma appended_len (old new : list A) (n : Z) :
  appended old new n -> len new = len old + n.
Proof. intros (x & -> & Hx). unfold len in *. rewrite length_app. lia. Qed.

(** A loop whose body appends [k] elements to the slice [f] appends
    [k] per iteration. *)
Lemma loop_from_appended (f : S -> list A) (k : Z) (body : Z -> S -> S) :
  (forall i s, appended (f s) (f (body i s)) k) ->
  forall n i s, appended (f s) (f (loop_from n i body s)) (Z.of_nat n * k).
Proof.
  intros Hbody n. induction n as [|n IH]; intros i s.
  - simpl. apply appended_refl.
  - cbn [loop_from].
    replace (Z.of_nat (Datatypes.S n) * k) with (k + Z.of_nat n * k) by lia.
    eapply appended_trans; [apply Hbody | apply IH].
Qed.

Lemma for_range_appended (f : S -> list A) (k hi : Z) (body : Z -> S -> S) :
  0 <= hi ->
  (forall i s, appended (f s) (f (body i s)) k) ->
  forall s, appended (f s) (f (for_range hi body s)) (hi * k).
Proof.
  intros Hhi Hbody s. unfold for_range.
  pose proof (loop_from_appended f k body Hbody (Z.to_nat hi) 0 s) as H.
  by rewrite Z2Nat.id in H.
Qed.

End LoopLemmas.

Section MeshProps.
Import GoInt Mesh.

Lemma wrap_id (z : Z) : is_int z -> wrap z = z.
Proof.
  unfold is_int, wrap, MinInt, MaxInt. intros H.
  rewrite Z.mod_small; lia.
Qed.

Lemma MaxInt2_max (a b : Z) : MaxInt2 a b = Z.max a b.
Proof. unfold MaxInt2. destruct (Z.gtb_spec a b); lia. Qed.

(** [PlaneSize] is the product of the clamped segment counts plus one,
    in the arithmetic of [int]. *)
Lemma PlaneSize_int (wsegs hsegs : Z) :
  PlaneSize wsegs hsegs = mul (add (Z.max wsegs 1) 1) (add (Z.max hsegs 1) 1).
Proof. unfold PlaneSize. by rewrite !MaxInt2_max. Qed.

(** What [Validate] logs is the error it returns. *)
Lemma Validate_logs_error (ms : MeshBase) :
  fst (Validate ms) = match snd (Validate ms) with Some e => [e] | None => [] end.
Proof.
  unfold Validate, fail, ok.
  repeat (match goal with |- context [if ?c then _ else _] => destruct c end;
          try reflexivity).
Qed.

(** C10: a mesh without per-vertex colors is never reported transparent,
    whatever its [Trans] flag says. *)
Theorem C10_no_color_not_transparent (ms : MeshBase) :
  len (Color ms) = 0 -> IsTransparent ms = false.
Proof.
  intros H. unfold IsTransparent, HasColor. rewrite H. reflexivity.
Qed.

Lemma C10_no_color_not_transparent_witness :
  len (Color mesh_point) = 0 /\ Trans mesh_point = true /\
  IsTransparent mesh_point = false.
Proof.
  split; [reflexivity | split; [reflexivity |]].
  apply (C10_no_color_not_transparent mesh_point). reflexivity.
Defined.

(** C2, as stated, fails: one stray float in [Color] makes colors present,
    the color count (0) differs from the vertex count (1), and [Validate]
    still returns nil. *)
Lemma C2_stray_color_counterexample : ~ Validate_as_specified mesh_stray_color.
Proof.
  unfold Validate_as_specified. intros [_ H].
  assert (Hf : Validate_fails mesh_stray_color = true).
  { apply H. right; right; right. split; [reflexivity | discriminate]. }
  discriminate Hf.
Qed.

(** C2, amended: [Validate] returns an error exactly when the vertex count
    is zero, or the normal count or the texcoord count differs from the
    vertex count, or the color count is nonzero and differs from the
    vertex count; otherwise it returns nil and logs nothing. *)
Theorem C2_Validate_exact (ms : MeshBase) :
  let vln := div (len (Vtx ms)) 3 in
  let nln := div (len (Norm ms)) 3 in
  let tln := div (len (TexUV ms)) 2 in
  let cln := div (len (Color ms)) 4 in
  (Validate_fails ms = true <->
     (vln = 0 \/ nln <> vln \/ tln <> vln \/ (cln <> 0 /\ cln <> vln)))
  /\ (Validate_fails ms = false <-> Validate ms = ok).
Proof.
  cbv zeta. unfold Validate_fails, Validate, fail, ok.
  destruct (Z.eqb_spec (div (len (Vtx ms)) 3) 0) as [Hv|Hv]; cbn.
  { split; [split; [tauto | done] | split; done]. }
  destruct (Z.eqb_spec (div (len (Norm ms)) 3) (div (len (Vtx ms)) 3)) as [Hn|Hn]; cbn;
    [| split; [split; [tauto | done] | split; done]].
  destruct (Z.eqb_spec (div (len (TexUV ms)) 2) (div (len (Vtx ms)) 3)) as [Ht|Ht]; cbn;
    [| split; [split; [tauto | done] | split; done]].
  destruct (Z.eqb_spec (div (len (Color ms)) 4) 0) as [Hc|Hc]; cbn.
  { split; [split; [done | intros [?|[?|[?|[? _]]]]; done] | split; done]. }
  destruct (Z.eqb_spec (div (len (Color ms)) 4) (div (len (Vtx ms)) 3)) as [Hcv|Hcv]; cbn.
  - split; [split; [done | intros [?|[?|[?|[_ ?]]]]; done] | split; done].
  - split; [split; [tauto | done] | split; done].
Qed.

(** [MakeVectors] leaves a mesh that fails [Validate] untouched. *)
Lemma MakeVectors_invalid (ms : MeshBase) :
  Validate_fails ms = true -> MakeVectors ms = (Validate ms, ms).
Proof.
  unfold Validate_fails, MakeVectors. by destruct (snd (Validate ms)).
Qed.

(** A mesh that passes [Validate] gets its buffers, so [Activate] and
    the draw call go through. *)
Lemma Activate_valid_returns (ms : MeshBase) :
  Validate_fails ms = false ->
  exists lg ms', Activate ms = Returns (lg, ms') /\ Buff ms' <> None.
Proof.
  unfold Validate_fails, Activate, MakeVectors. intros Hv.
  destruct (Buff ms) as [b|] eqn:Hb.
  - rewrite Hb. eexists _, _. split; [reflexivity | done].
  - destruct (snd (Validate ms)); [done |]. cbn. eexists _, _.
    split; [reflexivity | done].
Qed.

(** C8: on a never-built mesh that fails [Validate], [Activate] drops the
    error of [MakeVectors] and calls a method on the nil buffer manager:
    the mesh is not drawn, but by a panic, not gracefully. *)
Theorem C8_Activate_invalid_mesh_panics (ms : MeshBase) :
  Buff ms = None -> Validate_fails ms = true ->
  Activate ms = Panics nil_deref /\ draw ms = Panics nil_deref.
Proof.
  intros Hb Hv.
  assert (Ha : Activate ms = Panics nil_deref).
  { unfold Activate. rewrite Hb, (MakeVectors_invalid ms Hv). cbn.
    by rewrite Hb. }
  split; [exact Ha |]. unfold draw. by rewrite Ha.
Qed.

Lemma C8_Activate_invalid_mesh_panics_witness :
  Buff mesh_empty = None /\ Validate_fails mesh_empty = true /\
  Activate mesh_empty = Panics nil_deref /\ draw mesh_empty = Panics nil_deref.
Proof.
  split; [reflexivity | split; [reflexivity |]].
  apply (C8_Activate_invalid_mesh_panics mesh_empty); reflexivity.
Defined.

Section PlaneProps.
Variable GiColor : Type.
Variable IsNil : GiColor -> bool.
Variable ColorToVec4f : GiColor -> mat32.Vec4.


End PlaneProps.


End MeshProps.

(* ================================================================== *)
(** * Properties of the widget passes *)
(* ================================================================== *)

Section WidgetProps.
Import Widget.

Variable Style : Type.
Variable BoxSpace : Style -> float32.
Variable ComputeBBox2DBase : image.Rectangle -> image.Point -> Node2DBase -> Node2DBase.
Variable ConnectToViewport : Node2DBase -> Node2DBase.
Variable UpdateStart : Node2D -> Heap Style -> bool * Heap Style.
Variable UpdateEndNoSig : bool -> Node2D -> Heap Style -> Heap Style.
Variable Init2DTree Style2DTree Size2DTree Layout2DTree Render2DTree :
  Node2D -> Heap Style -> Heap Style.

Local Abbreviation Render2D' :=
  (Render2D Style ConnectToViewport UpdateStart UpdateEndNoSig
     Init2DTree Style2DTree Size2DTree Layout2DTree Render2DTree).
Local Abbreviation Render2DChildren' :=
  (Render2DChildren Style ConnectToViewport UpdateStart UpdateEndNoSig
     Init2DTree Style2DTree Size2DTree Layout2DTree Render2DTree).
Local Abbreviation ReRender2DTree' :=
  (ReRender2DTree Style UpdateStart UpdateEndNoSig
     Init2DTree Style2DTree Size2DTree Layout2DTree Render2DTree).
Local Abbreviation FullReRenderIfNeeded' :=
  (FullReRenderIfNeeded Style UpdateStart UpdateEndNoSig
     Init2DTree Style2DTree Size2DTree Layout2DTree Render2DTree).
Local Abbreviation Move2D' := (Move2D Style BoxSpace ComputeBBox2DBase).
Local Abbreviation Move2DChildren' := (Move2DChildren Style BoxSpace ComputeBBox2DBase).
Local Abbreviation Move2DBase' := (Move2DBase Style ComputeBBox2DBase).
Local Abbreviation ComputeBBox2D' := (ComputeBBox2D Style ComputeBBox2DBase).

Implicit Types (n : Node2D) (h : Heap Style) (g a : Addr).

(** ** The heap *)

Lemma modify_eq g f h : modify g f h g = f (h g).
Proof. unfold modify. by rewrite Nat.eqb_refl. Qed.

Lemma modify_ne g a f h : a <> g -> modify g f h a = h a.
Proof. unfold modify. intros Hne. by destruct (Nat.eqb_spec a g). Qed.

(** ** Render *)

(** One step of [Render2D], with the children pass named. *)
Lemma Render2D_unfold n h :
  Render2D' n h =
  match FullReRenderIfNeeded' n h with
  | Some done => Returns done
  | None =>
    match PushBounds Style ConnectToViewport (h (This n)) with
    | Panics why => Panics why
    | Returns (true, g', t1) =>
      match Render2DChildren' (Kids_of n) (modify (This n) (fun _ => g') h) with
      | Panics why => Panics why
      | Returns (h1, t2) =>
        match PopBounds Style (h1 (This n)) with
        | Panics why => Panics why
        | Returns (g'', t3) => Returns (modify (This n) (fun _ => g'') h1, t1 ++ t2 ++ t3)
        end
      end
    | Returns (false, g', t1) =>
      let '(g'', t2) := DisconnectAllEvents RegPri g' in
      Returns (modify (This n) (fun _ => g'') h, t1 ++ t2)
    end
  end.
Proof. destruct n; reflexivity. Qed.

(** The re-pass runs its steps in order, and its layout step starts from
    the layout data the node had on entry. *)
Lemma ReRender2DTree_calls n h :
  snd (ReRender2DTree' n h) =
  full_repass (Nm (Node (h (This n)))) (LayData (h (This n))) (fst (UpdateStart n h)).
Proof.
  unfold ReRender2DTree, full_repass.
  destruct (UpdateStart n h) as [updt h1]. cbn.
  by rewrite modify_eq.
Qed.



(** A dirty node whose cached viewport box is empty is not re-rendered;
    the flag is cleared all the same. *)
Lemma Render2D_dirty_hidden n h :
  IsOverlay (h (This n)) = false ->
  image.Empty (VpBBox (Node (h (This n)))) = true ->
  exists h',
    Render2D' n h = Returns (h', [CDisconnectAllEvents (Nm (Node (h (This n)))) RegPri]) /\
    NeedsFullReRender (h' (This n)) = false.
Proof.
  intros Hov Hempty. eexists. split.
  - rewrite Render2D_unfold. unfold FullReRenderIfNeeded, PushBounds.
    rewrite Hempty, Hov. cbn. reflexivity.
  - by rewrite modify_eq.
Qed.

(** C4: for a non-overlay node whose cached viewport box is empty, the
    render pass pushes no clip bounds, renders no child and makes no other
    call than the disconnection of the node's events; afterwards the node
    has no event binding left, and no other node has changed. *)
Theorem C4_empty_bbox_paints_nothing n h :
  IsOverlay (h (This n)) = false ->
  image.Empty (VpBBox (Node (h (This n)))) = true ->
  exists h',
    Render2D' n h = Returns (h', [CDisconnectAllEvents (Nm (Node (h (This n)))) RegPri]) /\
    EventConns (Node (h' (This n))) = [] /\
    (forall a, a <> This n -> h' a = h a).
Proof.
  intros Hov Hempty. eexists. split; [| split].
  - rewrite Render2D_unfold. unfold FullReRenderIfNeeded, PushBounds.
    rewrite Hempty, Hov. cbn. reflexivity.
  - by rewrite modify_eq.
  - intros a Ha. by rewrite modify_ne.
Qed.

End WidgetProps.


Lemma C4_empty_bbox_paints_nothing_witness :
  Widget.IsOverlay (Widget.hidden_heap 0%nat) = false /\
  image.Empty (Widget.VpBBox (Widget.Node (Widget.hidden_heap 0%nat))) = true /\
  exists h',
    Widget.Render2D Widget.SampleStyle Widget.sample_ConnectToViewport
      Widget.sample_UpdateStart Widget.sample_UpdateEndNoSig
      Widget.sample_pass Widget.sample_pass Widget.sample_pass Widget.sample_pass
      Widget.sample_pass Widget.hidden_tree Widget.hidden_heap
    = Returns (h', [Widget.CDisconnectAllEvents "button" Widget.RegPri]) /\
    Widget.EventConns (Widget.Node (h' 0%nat)) = [] /\
    (forall a, a <> 0%nat -> h' a = Widget.hidden_heap a).
Proof.
  split; [reflexivity | split; [reflexivity |]].
  apply (C4_empty_bbox_paints_nothing Widget.SampleStyle
           Widget.sample_ConnectToViewport
           Widget.sample_UpdateStart Widget.sample_UpdateEndNoSig
           Widget.sample_pass Widget.sample_pass Widget.sample_pass
           Widget.sample_pass Widget.sample_pass
           Widget.hidden_tree Widget.hidden_heap); reflexivity.
Defined.

Section MoveProps.
Import Widget.

Variable Style : Type.
Variable BoxSpace : Style -> float32.
Variable ComputeBBox2DBase : image.Rectangle -> image.Point -> Node2DBase -> Node2DBase.

Local Abbreviation Move2D' := (Move2D Style BoxSpace ComputeBBox2DBase).
Local Abbreviation Move2DChildren' := (Move2DChildren Style BoxSpace ComputeBBox2DBase).
Local Abbreviation Move2DBase' := (Move2DBase Style ComputeBBox2DBase).
Local Abbreviation ComputeBBox2D' := (ComputeBBox2D Style ComputeBBox2DBase).

Implicit Types (n : Node2D) (h : Heap Style) (g a : Addr).

Variable delta : image.Point.

(** Induction on the node tree that also covers the children. *)
Lemma Node2D_tree_ind (P : Node2D -> Prop) :
  (forall g ks, Forall P ks -> P (IsWidget g ks)) ->
  (forall g p ks, P p -> Forall P ks -> P (IsPartsWidget g p ks)) ->
  forall n, P n.
Proof.
  intros HW HP. fix IH 1. intros [g ks | g p ks].
  - apply HW. induction ks as [|k ks IHks]; constructor; [apply IH | exact IHks].
  - apply HP; [apply IH |].
    induction ks as [|k ks IHks]; constructor; [apply IH | exact IHks].
Qed.

Lemma moves_only_refl h : moves_only delta h h.
Proof. intros a. auto. Qed.

Lemma moves_only_trans h1 h2 h3 :
  moves_only delta h1 h2 -> moves_only delta h2 h3 -> moves_only delta h1 h3.
Proof.
  intros H12 H23 a.
  destruct (H12 a) as (Hs1 & Ho1 & Hp1), (H23 a) as (Hs2 & Ho2 & Hp2).
  repeat split; [congruence | congruence |].
  destruct Hp2 as [Hp2 | Hp2]; [destruct Hp1; [left | right]; congruence |].
  right. congruence.
Qed.

Lemma moved_stays h h' a : moves_only delta h h' -> moved delta h a -> moved delta h' a.
Proof.
  unfold moved. intros Hm Ha. destruct (Hm a) as (_ & Ho & [Hp | Hp]); congruence.
Qed.

(** The bounding-box computation leaves all layout data alone. *)
Lemma ComputeBBox2D_LayData parBBox n h a :
  LayData (ComputeBBox2D' parBBox delta n h a) = LayData (h a).
Proof.
  revert h. induction n as [g ks | g p IHp ks]; intros h; cbn.
  - unfold modify. by destruct (Nat.eqb_spec a g) as [-> |].
  - rewrite IHp. unfold modify. by destruct (Nat.eqb_spec a g) as [-> |].
Qed.

Lemma Move2DBase_spec parBBox n h :
  moves_only delta h (Move2DBase' delta parBBox n h) /\
  moved delta (Move2DBase' delta parBBox n h) (This n).
Proof.
  unfold Move2DBase, moved. split.
  - intros a. rewrite ComputeBBox2D_LayData. unfold modify.
    destruct (Nat.eqb_spec a (This n)) as [-> |]; cbn; auto.
  - rewrite ComputeBBox2D_LayData, modify_eq. reflexivity.
Qed.

Lemma Move2DChildren_spec ks :
  Forall (fun k => forall parBBox h,
            moves_only delta h (Move2D' delta parBBox k h) /\
            forall a, a ∈ subtree k -> moved delta (Move2D' delta parBBox k h) a) ks ->
  forall cbb h,
    moves_only delta h (Move2DChildren' delta cbb ks h) /\
    forall a, a ∈ flat_map subtree ks -> moved delta (Move2DChildren' delta cbb ks h) a.
Proof.
  induction 1 as [|k ks Hk _ IH]; intros cbb h; cbn.
  - split; [apply moves_only_refl | intros a Ha; inversion Ha].
  - destruct (Hk cbb h) as [Hk1 Hk2].
    destruct (IH cbb (Move2D' delta cbb k h)) as [IH1 IH2].
    split; [by eapply moves_only_trans |].
    intros a [Ha | Ha]%elem_of_app; [| by apply IH2].
    eapply moved_stays; [exact IH1 | by apply Hk2].
Qed.

Lemma Move2D_unfold parBBox n h :
  Move2D' delta parBBox n h =
  match n with
  | IsWidget g ks =>
    let h := Move2DBase' delta parBBox n h in
    Move2DChildren' delta (ChildrenBBox2D Style BoxSpace (h g)) ks h
  | IsPartsWidget g p ks =>
    let h := Move2DBase' delta parBBox n h in
    let h := Move2D' delta parBBox p h in
    Move2DChildren' delta (ChildrenBBox2D Style BoxSpace (h g)) ks h
  end.
Proof. destruct n; reflexivity. Qed.

(** A move touches positions only, and leaves every node of the subtree
    at its baseline plus delta. *)
Lemma Move2D_spec n :
  forall parBBox h,
    moves_only delta h (Move2D' delta parBBox n h) /\
    forall a, a ∈ subtree n -> moved delta (Move2D' delta parBBox n h) a.
Proof.
  induction n as [g ks IHks | g p ks IHp IHks] using Node2D_tree_ind;
    intros parBBox h; rewrite Move2D_unfold; cbv zeta.
  - destruct (Move2DBase_spec parBBox (IsWidget g ks) h) as [Hb1 Hb2].
    set (h1 := Move2DBase' delta parBBox (IsWidget g ks) h) in *.
    destruct (Move2DChildren_spec ks IHks (ChildrenBBox2D Style BoxSpace (h1 g)) h1)
      as [Hc1 Hc2].
    split; [by eapply moves_only_trans |].
    cbn [subtree]. intros a [-> | Ha]%elem_of_cons; [| by apply Hc2].
    eapply moved_stays; [exact Hc1 | exact Hb2].
  - destruct (Move2DBase_spec parBBox (IsPartsWidget g p ks) h) as [Hb1 Hb2].
    set (h1 := Move2DBase' delta parBBox (IsPartsWidget g p ks) h) in *.
    destruct (IHp parBBox h1) as [Hp1 Hp2].
    set (h2 := Move2D' delta parBBox p h1) in *.
    destruct (Move2DChildren_spec ks IHks (ChildrenBBox2D Style BoxSpace (h2 g)) h2)
      as [Hc1 Hc2].
    split; [eapply moves_only_trans; [| exact Hc1]; by eapply moves_only_trans |].
    cbn [subtree]. intros a [-> | [Ha | Ha]%elem_of_app]%elem_of_cons.
    + eapply moved_stays; [exact Hc1 |]. eapply moved_stays; [exact Hp1 | exact Hb2].
    + eapply moved_stays; [exact Hc1 | by apply Hp2].
    + by apply Hc2.
Qed.

(** C3: after [Move2D(delta, parBBox)] the node's [AllocPos] is its
    [AllocPosOrig] plus delta; so is that of every node of its subtree, its
    parts and children included, which for a node resting at its baseline
    is a shift of its position by exactly delta; and no node has a changed
    [AllocSize] or [AllocPosOrig]. *)
Theorem C3_Move2D_shifts_by_delta parBBox n h :
  let h' := Move2D' delta parBBox n h in
  let d := NewVec2DFmPoint delta in
  AllocPos (LayData (h' (This n))) = Vec2D_Add (AllocPosOrig (LayData (h (This n)))) d /\
  (forall a, a ∈ subtree n ->
     AllocPos (LayData (h' a)) = Vec2D_Add (AllocPosOrig (LayData (h a))) d) /\
  (forall a, a ∈ subtree n ->
     AllocPos (LayData (h a)) = AllocPosOrig (LayData (h a)) ->
     AllocPos (LayData (h' a)) = Vec2D_Add (AllocPos (LayData (h a))) d) /\
  (forall a, AllocSize (LayData (h' a)) = AllocSize (LayData (h a))) /\
  (forall a, AllocPosOrig (LayData (h' a)) = AllocPosOrig (LayData (h a))).
Proof.
  cbv zeta. destruct (Move2D_spec n parBBox h) as [Hm Hs].
  assert (Hsub : forall a, a ∈ subtree n ->
            AllocPos (LayData (Move2D' delta parBBox n h a)) =
            Vec2D_Add (AllocPosOrig (LayData (h a))) (NewVec2DFmPoint delta)).
  { intros a Ha. specialize (Hs a Ha). unfold moved in Hs.
    destruct (Hm a) as (_ & Ho & _). congruence. }
  repeat split.
  - apply Hsub. destruct n; cbn; apply elem_of_cons; by left.
  - exact Hsub.
  - intros a Ha Hrest. rewrite Hrest. by apply Hsub.
  - intros a. by destruct (Hm a) as (Hsz & _).
  - intros a. by destruct (Hm a) as (_ & Ho & _).
Qed.

End MoveProps.

(* ================================================================== *)
(** * Properties of style resolution *)
(* ================================================================== *)

Section StyleProps.
Import reflect Style.

Variable Color : Type.
Variable Color_SetFromString : Color -> string -> Color * option string.
Variable UnitsValue : Type.
Variable UnitsValue_SetFromString : UnitsValue -> string -> UnitsValue.
Variable UnitsValue_Set : UnitsValue -> float64 -> Unit -> UnitsValue.
Variable FindEnum : string -> bool.
Variable SetEnumValueFromAltString : string -> Z -> string -> Z.

Local Abbreviation StyleField' :=
  (StyleField Color Color_SetFromString UnitsValue UnitsValue_SetFromString
     UnitsValue_Set FindEnum SetEnumValueFromAltString).

Implicit Types (sf : StructField) (vf p d : Value Color UnitsValue)
  (pf df : option (Value Color UnitsValue)) (tag kw : string)
  (props : gmap string (Iface UnitsValue)).

(** ** Struct tags *)

(** A tag written the way the library expects, pairs separated by spaces,
    is read. *)
Example Get_space_separated :
  Get (kv "xml" "color" +:+ " " +:+ kv "inherit" "true") "inherit" = "true".
Proof. reflexivity. Qed.

(** The tag of [Style.Color] separates its pairs by commas: the xml name
    is found, but the second pair is read under the name [,inherit], and
    the lookup of [inherit] finds nothing. *)
Lemma Color_tag_lookup :
  Get Color_tag "xml" = "color" /\
  Get Color_tag "inherit" = "" /\
  Get Color_tag ",inherit" = "true".
Proof. repeat split. Qed.

(** ** The inherit flag *)

(** The mechanism: a field whose tag is read as [inherit:"true"] and
    that the property map does not mention takes the parent's value. *)
Lemma StyleField_inherits sf vf p df tag props :
  Get (Tag sf) "inherit" = "true" ->
  props !! tag = None ->
  StyleField' sf vf (Some p) df true tag props = Returns (p, []).
Proof.
  intros Hinh Hprops. unfold StyleField. rewrite Hinh. cbn. by rewrite Hprops.
Qed.

(** C5: [Style.Color] is the field the source tags inheritable; resolved
    without a color property it keeps its own value, whatever the parent's:
    the inherit tag is not read (see [Color_tag_lookup]). *)
Theorem C5_Color_field_not_inherited vf pf df hasPar props :
  props !! "color" = None ->
  StyleField' Color_field vf pf df hasPar "color" props = Returns (vf, []).
Proof.
  intros Hprops. unfold StyleField.
  change (Get (Tag Color_field) "inherit") with "". cbn. by rewrite Hprops.
Qed.

(** ** The keywords *)


(** ** Malformed values *)

(** C9: without a parent, any property value for a field of kind bool,
    float or string, and a bool for a [units.Value] field, make
    [StyleField] panic in [reflect.Value.Convert]. *)
Theorem C9_malformed_values_panic sf pf df tag props prv :
  props !! tag = Some prv ->
  (forall vf, plain_kind vf = true ->
     StyleField' sf vf pf df false tag props = Panics panic_convert) /\
  (forall u b, prv = IBool b ->
     StyleField' sf (VUnits u) pf df false tag props = Panics panic_convert).
Proof.
  intros Hprops. split.
  - intros vf Hplain. unfold StyleField.
    destruct (String.eqb (Get (Tag sf) "inherit") "true"); cbn;
      try destruct (negb (String.eqb (Get (Tag sf) "inherit") "")
                    && negb (String.eqb (Get (Tag sf) "inherit") "false"));
      rewrite Hprops;
      (assert (Hkw : match prv with
                     | IString s =>
                       if String.eqb s "inherit" && false then Some pf
                       else if String.eqb s "initial" && false then Some df
                       else None
                     | _ => None
                     end = None)
         by (destruct prv; try reflexivity; by rewrite !andb_false_r));
      rewrite Hkw; by destruct vf.
  - intros u b ->. unfold StyleField.
    destruct (String.eqb (Get (Tag sf) "inherit") "true"); cbn;
      try destruct (negb (String.eqb (Get (Tag sf) "inherit") "")
                    && negb (String.eqb (Get (Tag sf) "inherit") "false"));
      by rewrite Hprops.
Qed.

End StyleProps.

(** The child of a red parent, resolved with no property at all, keeps its
    black text. *)
Example SetStyle_child_keeps_own_color :
  exists s',
    Style.sample_SetStyle Style.child_style (Some Style.parent_style) None ∅
      = Returns (s', []) /\
    Style.field_at _ _ Style.iColor s' = Some (Style.VColor Style.black) /\
    Style.field_at _ _ Style.iColor Style.parent_style = Some (Style.VColor Style.red).
Proof. eexists. split; [vm_compute; reflexivity | split; reflexivity]. Qed.

(** An opacity given as a number, and a padding given as a bool, both end
    style resolution in a panic. *)
Example SetStyle_opacity_panics :
  Style.sample_SetStyle Style.child_style None None
    {[ "opacity" := Style.IFloat64 (F64.of_int 1) ]} = Panics Style.panic_convert /\
  Style.sample_SetStyle Style.child_style None None
    {[ "padding" := Style.IBool true ]} = Panics Style.panic_convert.
Proof. split; vm_compute; reflexivity. Qed.

Lemma C5_Color_field_not_inherited_witness :
  (∅ : gmap string (Style.Iface Style.SampleUnits)) !! "color" = None /\
  Style.sample_StyleField Style.Color_field (Style.VColor Style.black)
    (Some (Style.VColor Style.red)) None true "color" ∅
  = Returns (Style.VColor Style.black, []).
Proof.
  split; [vm_compute; reflexivity |].
  apply (C5_Color_field_not_inherited Style.SampleColor
           Style.sample_Color_SetFromString Style.SampleUnits
           Style.sample_Units_SetFromString Style.sample_Units_Set
           Style.sample_FindEnum Style.sample_SetEnum).
  vm_compute; reflexivity.
Defined.



Lemma C9_malformed_values_panic_witness :
  ({[ "opacity" := Style.IString "high" ]}
     : gmap string (Style.Iface Style.SampleUnits)) !! "opacity"
    = Some (Style.IString "high") /\
  Style.sample_StyleField Style.Opacity_field (Style.VFloat64 (F64.of_int 1))
    None None false "opacity" {[ "opacity" := Style.IString "high" ]}
  = Panics Style.panic_convert.
Proof.
  split; [vm_compute; reflexivity |].
  apply (C9_malformed_values_panic Style.SampleColor
           Style.sample_Color_SetFromString Style.SampleUnits
           Style.sample_Units_SetFromString Style.sample_Units_Set
           Style.sample_FindEnum Style.sample_SetEnum
           Style.Opacity_field None None "opacity"
           {[ "opacity" := Style.IString "high" ]} (Style.IString "high"));
    vm_compute; reflexivity.
Defined.

(* ================================================================== *)
(** * More properties of the mesh: planes, buffers and in-place updates *)
(* ================================================================== *)

Section PlaneLoops.
Import GoInt.
Context {S A : Type}.

(** A loop whose body appends [g i] to the slice [f s] appends, in all,
    the chunks of its rounds in order. *)
Lemma loop_from_flat_map (f : S -> list A) (g : Z -> list A) (body : Z -> S -> S) :
  (forall i s, f (body i s) = f s ++ g i) ->
  forall n i s, f (loop_from n i body s) = f s ++ flat_map g (seqZ i (Z.of_nat n)).
Proof.
  intros Hbody. induction n as [|n IH]; intros i s.
  - cbn. by rewrite app_nil_r.
  - cbn [loop_from]. rewrite IH, Hbody.
    replace (Z.of_nat (Datatypes.S n)) with (Z.succ (Z.of_nat n)) by lia.
    rewrite (seqZ_cons i) by lia. cbn [flat_map].
    replace (Z.succ i) with (i + 1) by lia.
    replace (Z.pred (Z.succ (Z.of_nat n))) with (Z.of_nat n) by lia.
    by rewrite <- app_assoc.
Qed.

Lemma for_range_flat_map (f : S -> list A) (g : Z -> list A) (hi : Z) (body : Z -> S -> S) s :
  (forall i s, f (body i s) = f s ++ g i) ->
  f (for_range hi body s) = f s ++ flat_map g (seqZ 0 hi).
Proof.
  intros Hbody. unfold for_range. rewrite (loop_from_flat_map f g body Hbody).
  destruct (Z_le_gt_dec 0 hi).
  - by rewrite Z2Nat.id.
  - by rewrite (seqZ_nil 0 hi), (seqZ_nil 0 (Z.of_nat _)) by lia.
Qed.

End PlaneLoops.

Section PlaneSpec.
Import GoInt Mesh.
Variable GiColor : Type.
Variable IsNil : GiColor -> bool.
Variable ColorToVec4f : GiColor -> mat32.Vec4.

Lemma for_range_keeps {S X : Type} (f : S -> X) (hi : Z) (body : Z -> S -> S) s :
  (forall i s, f (body i s) = f s) -> f (for_range hi body s) = f s.
Proof.
  intros Hbody. unfold for_range. generalize 0 at 1. revert s.
  induction (Z.to_nat hi) as [|n IH]; intros s i; cbn; [done |].
  by rewrite IH, Hbody.
Qed.

Local Abbreviation AddPlane' := (AddPlane GiColor IsNil ColorToVec4f).

(** What [AddPlane] appends, array by array. *)
Lemma AddPlane_spec waxis haxis wdir hdir width height woff hoff zoff wsegs hsegs clr ms :
  let ms' := AddPlane' waxis haxis wdir hdir width height woff hoff zoff wsegs hsegs clr ms in
  let W := MaxInt2 wsegs 1 in
  let H := MaxInt2 hsegs 1 in
  Vtx ms' = Vtx ms ++
    grid (add W 1) (add H 1) (fun ix iy =>
      Vec3_floats (plane_vertex waxis haxis wdir hdir width height woff hoff zoff
                     wsegs hsegs ix iy)) /\
  Norm ms' = Norm ms ++
    grid (add W 1) (add H 1) (fun _ _ => Vec3_floats (plane_normal waxis haxis zoff)) /\
  TexUV ms' = TexUV ms ++
    grid (add W 1) (add H 1) (fun ix iy => plane_texuv wsegs hsegs ix iy) /\
  Color ms' = Color ms ++
    grid (add W 1) (add H 1) (fun _ _ =>
      if IsNil clr then [] else Vec4_floats (ColorToVec4f clr)) /\
  Idx ms' = Idx ms ++
    grid W H (fun ix iy => plane_quad (add W 1) (div (len (Vtx ms)) 3) ix iy) /\
  Buff ms' = Buff ms /\ Nm ms' = Nm ms /\ Dynamic ms' = Dynamic ms /\ Trans ms' = Trans ms.
Proof.
  cbv zeta. unfold AddPlane, grid.
  repeat split.
  - rewrite (for_range_keeps Vtx) by (intros; apply (for_range_keeps Vtx); done).
    apply (for_range_flat_map Vtx). intros iy s.
    apply (for_range_flat_map Vtx). intros ix s'. by destruct (IsNil clr).
  - rewrite (for_range_keeps Norm) by (intros; apply (for_range_keeps Norm); done).
    apply (for_range_flat_map Norm). intros iy s.
    apply (for_range_flat_map Norm). intros ix s'.
    unfold plane_normal. by destruct (IsNil clr), (F32.gtb zoff F32.zero).
  - rewrite (for_range_keeps TexUV) by (intros; apply (for_range_keeps TexUV); done).
    apply (for_range_flat_map TexUV). intros iy s.
    apply (for_range_flat_map TexUV). intros ix s'. by destruct (IsNil clr).
  - rewrite (for_range_keeps Color) by (intros; apply (for_range_keeps Color); done).
    apply (for_range_flat_map Color). intros iy s.
    apply (for_range_flat_map Color). intros ix s'.
    destruct (IsNil clr); cbn; [by rewrite app_nil_r | done].
  - rewrite (for_range_flat_map Idx (fun iy => flat_map (fun ix =>
               plane_quad (add (MaxInt2 wsegs 1) 1) (div (len (Vtx ms)) 3) ix iy)
               (seqZ 0 (MaxInt2 wsegs 1)))).
    + f_equal. rewrite (for_range_keeps Idx); [done |].
      intros. apply (for_range_keeps Idx). intros. by destruct (IsNil clr).
    + intros iy s. by apply (for_range_flat_map Idx).
  - rewrite !(for_range_keeps Buff); [done | |];
      intros; apply (for_range_keeps Buff); intros; by try destruct (IsNil clr).
  - rewrite !(for_range_keeps Nm); [done | |];
      intros; apply (for_range_keeps Nm); intros; by try destruct (IsNil clr).
  - rewrite !(for_range_keeps Dynamic); [done | |];
      intros; apply (for_range_keeps Dynamic); intros; by try destruct (IsNil clr).
  - rewrite !(for_range_keeps Trans); [done | |];
      intros; apply (for_range_keeps Trans); intros; by try destruct (IsNil clr).
Qed.


Lemma len_app {A} (a b : list A) : len (a ++ b) = len a + len b.
Proof. unfold len. rewrite length_app. lia. Qed.

Lemma grid_len {A} (W H c : Z) (cell : Z -> Z -> list A) :
  (forall ix iy, len (cell ix iy) = c) -> 0 <= W -> 0 <= H ->
  len (grid W H cell) = H * W * c.
Proof.
  intros Hc HW HH. unfold grid, len.
  rewrite (flat_map_constant_length (c := Z.to_nat (W * c))).
  - rewrite length_seqZ.
    assert (0 <= c) by (rewrite <- (Hc 0 0); unfold len; lia). nia.
  - intros iy _. rewrite (flat_map_constant_length (c := Z.to_nat c)).
    + rewrite length_seqZ.
      assert (0 <= c) by (rewrite <- (Hc 0 0); unfold len; lia). nia.
    + intros ix _. specialize (Hc ix iy). unfold len in Hc. lia.
Qed.

(** The lengths of the arrays after [AddPlane], when the grid fits an
    [int]. *)
Lemma AddPlane_len waxis haxis wdir hdir width height woff hoff zoff wsegs hsegs clr ms :
  (Z.max wsegs 1 + 1) * (Z.max hsegs 1 + 1) <= MaxInt ->
  let ms' := AddPlane' waxis haxis wdir hdir width height woff hoff zoff wsegs hsegs clr ms in
  let n := (Z.max wsegs 1 + 1) * (Z.max hsegs 1 + 1) in
  len (Vtx ms') = len (Vtx ms) + 3 * n /\
  len (Norm ms') = len (Norm ms) + 3 * n /\
  len (TexUV ms') = len (TexUV ms) + 2 * n /\
  len (Color ms') = len (Color ms) + (if IsNil clr then 0 else 4 * n) /\
  len (Idx ms') = len (Idx ms) + 6 * Z.max wsegs 1 * Z.max hsegs 1.
Proof.
  intros Hfit. cbv zeta.
  destruct (AddPlane_spec waxis haxis wdir hdir width height
              woff hoff zoff wsegs hsegs clr ms) as (Hv & Hn & Ht & Hc & Hi & _).
  cbv zeta in *. rewrite Hv, Hn, Ht, Hc, Hi. clear Hv Hn Ht Hc Hi.
  rewrite !MaxInt2_max.
  set (W := Z.max wsegs 1) in *. set (H := Z.max hsegs 1) in *.
  assert (HW : 1 <= W) by lia. assert (HH : 1 <= H) by lia.
  assert (HW1 : add W 1 = W + 1).
  { apply wrap_id. unfold is_int, MinInt, MaxInt in *. nia. }
  assert (HH1 : add H 1 = H + 1).
  { apply wrap_id. unfold is_int, MinInt, MaxInt in *. nia. }
  rewrite HW1, HH1, !len_app.
  repeat split; f_equal.
  - rewrite (grid_len _ _ 3); [lia | done | lia | lia].
  - rewrite (grid_len _ _ 3); [lia | done | lia | lia].
  - rewrite (grid_len _ _ 2); [lia | done | lia | lia].
  - destruct (IsNil clr).
    + rewrite (grid_len _ _ 0); [lia | done | lia | lia].
    + rewrite (grid_len _ _ 4); [lia | done | lia | lia].
  - rewrite (grid_len _ _ 6); [lia | done | lia | lia].
Qed.


Lemma div_add_chunks (a n c : Z) : 0 <= a -> 0 <= n -> 0 < c -> div (a + c * n) c = div a c + n.
Proof.
  intros Ha Hn Hc. unfold div.
  rewrite !Z.quot_div_nonneg by nia.
  rewrite (Z.mul_comm c n). apply Z.div_add. lia.
Qed.

Lemma len_nonneg {A} (l : list A) : 0 <= len l.
Proof. unfold len. lia. Qed.

(** When [Validate] passes. *)
Lemma Validate_passes_iff (ms : MeshBase) :
  Validate_fails ms = false <->
  div (len (Vtx ms)) 3 <> 0 /\
  div (len (Norm ms)) 3 = div (len (Vtx ms)) 3 /\
  div (len (TexUV ms)) 2 = div (len (Vtx ms)) 3 /\
  (div (len (Color ms)) 4 = 0 \/ div (len (Color ms)) 4 = div (len (Vtx ms)) 3).
Proof.
  unfold Validate_fails, Validate, fail, ok.
  destruct (Z.eqb_spec (div (len (Vtx ms)) 3) 0); cbn; [split; [done | tauto] |].
  destruct (Z.eqb_spec (div (len (Norm ms)) 3) (div (len (Vtx ms)) 3)); cbn;
    [| split; [done | tauto]].
  destruct (Z.eqb_spec (div (len (TexUV ms)) 2) (div (len (Vtx ms)) 3)); cbn;
    [| split; [done | tauto]].
  destruct (Z.eqb_spec (div (len (Color ms)) 4) 0); cbn; [tauto |].
  destruct (Z.eqb_spec (div (len (Color ms)) 4) (div (len (Vtx ms)) 3)); cbn;
    [tauto | split; [done | tauto]].
Qed.

Lemma Validate_fails_ok (ms : MeshBase) : Validate_fails ms = false -> Validate ms = ok.
Proof.
  unfold Validate_fails. intros H. pose proof (Validate_logs_error ms) as Hl.
  destruct (Validate ms) as [lg [e|]]; cbn in *; [done | by subst].
Qed.

Lemma PlaneSize_fits (wsegs hsegs : Z) :
  (Z.max wsegs 1 + 1) * (Z.max hsegs 1 + 1) <= MaxInt ->
  PlaneSize wsegs hsegs = (Z.max wsegs 1 + 1) * (Z.max hsegs 1 + 1).
Proof.
  intros Hfit. rewrite PlaneSize_int.
  assert (1 <= Z.max wsegs 1) by lia. assert (1 <= Z.max hsegs 1) by lia.
  assert (HW1 : add (Z.max wsegs 1) 1 = Z.max wsegs 1 + 1).
  { apply wrap_id. unfold is_int, MinInt, MaxInt in *. nia. }
  assert (HH1 : add (Z.max hsegs 1) 1 = Z.max hsegs 1 + 1).
  { apply wrap_id. unfold is_int, MinInt, MaxInt in *. nia. }
  rewrite HW1, HH1. apply wrap_id. unfold is_int, MinInt, MaxInt in *. nia.
Qed.

(** A plane added to a mesh that was reset is a valid mesh of exactly the
    plane's vertices. *)
Theorem AddPlane_after_Reset_is_valid
    waxis haxis wdir hdir width height woff hoff zoff wsegs hsegs clr ms :
  (Z.max wsegs 1 + 1) * (Z.max hsegs 1 + 1) <= MaxInt ->
  let ms' := AddPlane' waxis haxis wdir hdir width height woff hoff zoff wsegs hsegs clr
               (Reset ms) in
  Validate ms' = ok /\
  div (len (Vtx ms')) 3 = PlaneSize wsegs hsegs /\
  HasColor ms' = negb (IsNil clr).
Proof.
  intros Hfit ms'.
  destruct (AddPlane_len waxis haxis wdir hdir width height
              woff hoff zoff wsegs hsegs clr (Reset ms) Hfit) as (Hv & Hn & Ht & Hc & _).
  cbv zeta in *. fold ms' in Hv, Hn, Ht, Hc.
  set (n := (Z.max wsegs 1 + 1) * (Z.max hsegs 1 + 1)) in *.
  change (len (Vtx (Reset ms))) with 0 in Hv. change (len (Norm (Reset ms))) with 0 in Hn.
  change (len (TexUV (Reset ms))) with 0 in Ht. change (len (Color (Reset ms))) with 0 in Hc.
  rewrite Z.add_0_l in Hv, Hn, Ht, Hc.
  assert (Hn4 : 4 <= n) by (unfold n; nia).
  assert (Hq : forall c, 0 < c -> div (c * n) c = n).
  { intros c Hc0. rewrite <- (Z.add_0_l (c * n)), div_add_chunks by lia. done. }
  split; [| split].
  - apply Validate_fails_ok, Validate_passes_iff.
    rewrite Hv, Hn, Ht, Hc. rewrite !Hq by lia.
    repeat split; [lia |]. destruct (IsNil clr); [by left | right; by apply Hq].
  - rewrite Hv, Hq by lia. by rewrite PlaneSize_fits.
  - unfold HasColor. rewrite Hc. destruct (IsNil clr); cbn; [done |].
    apply Z.gtb_lt. lia.
Qed.

(** A plane added to a valid mesh leaves it valid exactly when the plane
    agrees with the mesh about colors. *)
Theorem AddPlane_keeps_valid_iff
    waxis haxis wdir hdir width height woff hoff zoff wsegs hsegs clr ms :
  (Z.max wsegs 1 + 1) * (Z.max hsegs 1 + 1) <= MaxInt ->
  Validate_fails ms = false ->
  Validate_fails
    (AddPlane' waxis haxis wdir hdir width height woff hoff zoff wsegs hsegs clr ms) = false
  <-> (if IsNil clr then div (len (Color ms)) 4 = 0
       else div (len (Color ms)) 4 = div (len (Vtx ms)) 3).
Proof.
  intros Hfit Hvalid.
  destruct (AddPlane_len waxis haxis wdir hdir width height
              woff hoff zoff wsegs hsegs clr ms Hfit) as (Hv & Hn & Ht & Hc & _).
  cbv zeta in *.
  set (n := (Z.max wsegs 1 + 1) * (Z.max hsegs 1 + 1)) in *.
  assert (Hn4 : 4 <= n) by (unfold n; nia).
  apply Validate_passes_iff in Hvalid as (Hv0 & Hn0 & Ht0 & Hc0).
  rewrite Validate_passes_iff, Hv, Hn, Ht, Hc.
  pose proof (len_nonneg (Vtx ms)). pose proof (len_nonneg (Norm ms)).
  pose proof (len_nonneg (TexUV ms)). pose proof (len_nonneg (Color ms)).
  rewrite !div_add_chunks by lia.
  assert (0 <= div (len (Vtx ms)) 3) by (unfold div; apply Z.quot_pos; lia).
  assert (0 <= div (len (Color ms)) 4) by (unfold div; apply Z.quot_pos; lia).
  destruct (IsNil clr).
  - rewrite Z.add_0_r. split; [| intros ->; repeat split; [lia | lia | lia | by left]].
    intros (_ & _ & _ & [Hc' | Hc']); [done | lia].
  - rewrite !div_add_chunks by lia. split.
    + intros (_ & _ & _ & [Hc' | Hc']); lia.
    + intros ->. repeat split; [lia | lia | lia | by right].
Qed.


Lemma Forall_grid {A} (P : A -> Prop) (W H : Z) (cell : Z -> Z -> list A) :
  (forall ix iy, 0 <= ix < W -> 0 <= iy < H -> Forall P (cell ix iy)) ->
  Forall P (grid W H cell).
Proof.
  intros Hcell. unfold grid.
  apply Forall_flat_map, Forall_forall. intros iy Hiy%elem_of_seqZ.
  apply Forall_flat_map, Forall_forall. intros ix Hix%elem_of_seqZ.
  apply Hcell; lia.
Qed.

(** Every index [AddPlane] appends names a vertex of the plane it
    appends. *)
Theorem AddPlane_indexes_in_range
    waxis haxis wdir hdir width height woff hoff zoff wsegs hsegs clr ms :
  let idxSt := div (len (Vtx ms)) 3 in
  let n := (Z.max wsegs 1 + 1) * (Z.max hsegs 1 + 1) in
  idxSt + n <= 2 ^ 32 ->
  exists added,
    Idx (AddPlane' waxis haxis wdir hdir width height woff hoff zoff wsegs hsegs clr ms)
      = Idx ms ++ added /\
    Forall (fun i => idxSt <= i < idxSt + n) added.
Proof.
  intros idxSt n Hfit.
  destruct (AddPlane_spec waxis haxis wdir hdir width height
              woff hoff zoff wsegs hsegs clr ms) as (_ & _ & _ & _ & Hi & _).
  cbv zeta in Hi. eexists. split; [exact Hi |].
  fold idxSt. rewrite !MaxInt2_max.
  set (W := Z.max wsegs 1) in *. set (H := Z.max hsegs 1) in *.
  assert (HW : 1 <= W) by lia. assert (HH : 1 <= H) by lia.
  assert (Hst : 0 <= idxSt).
  { unfold idxSt, div. apply Z.quot_pos; [apply len_nonneg | lia]. }
  assert (Hn : n = (W + 1) * (H + 1)) by done.
  assert (HW1 : add W 1 = W + 1).
  { apply wrap_id. unfold is_int, MinInt, MaxInt. nia. }
  rewrite HW1.
  apply Forall_grid. intros ix iy Hix Hiy. unfold plane_quad.
  assert (Hiy1 : add iy 1 = iy + 1) by (apply wrap_id; unfold is_int, MinInt, MaxInt; nia).
  assert (Hix1 : add ix 1 = ix + 1) by (apply wrap_id; unfold is_int, MinInt, MaxInt; nia).
  rewrite Hiy1, Hix1.
  assert (Hm0 : mul (W + 1) iy = (W + 1) * iy)
    by (apply wrap_id; unfold is_int, MinInt, MaxInt; nia).
  assert (Hm1 : mul (W + 1) (iy + 1) = (W + 1) * (iy + 1))
    by (apply wrap_id; unfold is_int, MinInt, MaxInt; nia).
  rewrite Hm0, Hm1.
  assert (Hcell : forall p q, 0 <= p <= W -> 0 <= q <= H ->
            idxSt <= uint32 (add (add p ((W + 1) * q)) idxSt) < idxSt + n).
  { intros p q Hp Hq.
    assert (Hq' : 0 <= (W + 1) * q <= (W + 1) * H) by nia.
    assert (Ha : add p ((W + 1) * q) = p + (W + 1) * q)
      by (apply wrap_id; unfold is_int, MinInt, MaxInt; nia).
    rewrite Ha.
    assert (Hb : add (p + (W + 1) * q) idxSt = p + (W + 1) * q + idxSt)
      by (apply wrap_id; unfold is_int, MinInt, MaxInt; nia).
    rewrite Hb. unfold uint32. rewrite Z.mod_small; nia. }
  repeat constructor; apply Hcell; lia.
Qed.

Lemma grid_constant {A} (W H : Z) (l : list A) :
  0 <= W -> 0 <= H ->
  grid W H (fun _ _ => l) = concat (replicate (Z.to_nat (W * H)) l).
Proof.
  intros HW HH. unfold grid.
  assert (Hrow : forall (xs : list Z), flat_map (fun _ => l) xs = concat (replicate (length xs) l)).
  { induction xs as [|x xs IH]; cbn; [done | by rewrite IH]. }
  assert (Hrows : forall (ys : list Z) (r : nat),
            flat_map (fun _ => concat (replicate r l)) ys
            = concat (replicate (length ys * r) l)).
  { induction ys as [|y ys IH]; intros r; cbn; [done |].
    by rewrite IH, replicate_add, concat_app. }
  rewrite (flat_map_ext _ (fun _ => concat (replicate (Z.to_nat W) l))).
  - rewrite Hrows, length_seqZ. do 2 f_equal. nia.
  - intros iy. by rewrite Hrow, length_seqZ.
Qed.

(** Every vertex of the plane gets the same normal: the unit vector along
    the axis orthogonal to the plane, pointing to the positive side
    exactly when [zoff > 0]. *)
Theorem AddPlane_normals
    waxis haxis wdir hdir width height woff hoff zoff wsegs hsegs clr ms :
  (Z.max wsegs 1 + 1) * (Z.max hsegs 1 + 1) <= MaxInt ->
  let w := plane_normal_axis waxis haxis in
  let norm := mat32.SetDim mat32.Vec3_zero w
                (F32.of_int (if F32.gtb zoff F32.zero then 1 else -1)) in
  (waxis <> haxis -> w <> waxis /\ w <> haxis) /\
  Norm (AddPlane' waxis haxis wdir hdir width height woff hoff zoff wsegs hsegs clr ms)
  = Norm ms ++
    concat (replicate (Z.to_nat (PlaneSize wsegs hsegs))
              [mat32.v3x norm; mat32.v3y norm; mat32.v3z norm]).
Proof.
  intros Hfit w norm. split.
  - unfold w. by destruct waxis, haxis.
  - destruct (AddPlane_spec waxis haxis wdir hdir width height
                woff hoff zoff wsegs hsegs clr ms) as (_ & Hn & _).
    cbv zeta in Hn. rewrite Hn, PlaneSize_fits by done. f_equal.
    rewrite !MaxInt2_max.
    assert (1 <= Z.max wsegs 1) by lia. assert (1 <= Z.max hsegs 1) by lia.
    assert (HW1 : add (Z.max wsegs 1) 1 = Z.max wsegs 1 + 1).
    { apply wrap_id. unfold is_int, MinInt, MaxInt in *. nia. }
    assert (HH1 : add (Z.max hsegs 1) 1 = Z.max hsegs 1 + 1).
    { apply wrap_id. unfold is_int, MinInt, MaxInt in *. nia. }
    rewrite HW1, HH1, grid_constant by lia.
    unfold plane_normal, norm, w. by destruct (F32.gtb zoff F32.zero).
Qed.

(** ** Building and drawing *)

(** After [MakeVectors] has succeeded, whatever buffer the mesh had, the
    mesh arrays are as before and drawing submits the indexes of [Idx]. *)
Theorem draw_after_MakeVectors (ms : MeshBase) :
  Validate_fails ms = false ->
  exists b,
    MakeVectors ms = (ok, set_Buff (Some b) ms) /\
    vb_len (Vectors b) = div (len (Vtx ms)) 3 /\
    NumVectors (Vectors b) = (if HasColor ms then 4 else 3) /\
    ib_data (Indexes b) = Idx ms /\
    draw (snd (MakeVectors ms)) = Returns [TrianglesIndexed 0 (len (Idx ms))].
Proof.
  intros Hv. pose proof (Validate_fails_ok ms Hv) as Hok.
  unfold MakeVectors. rewrite Hok. cbn [snd ok].
  eexists. split; [reflexivity |]. repeat split.
  - by destruct (HasColor ms), (negb _).
  - destruct (HasColor ms); cbn;
      match goal with |- context [negb (?a =? ?b)] => destruct (Z.eqb_spec a b) end;
      cbn; done.
Qed.

(** A mesh that has a buffer is drawn from it: [Activate] does not build
    again, so what [Reset] or [AddPlane] did to the arrays since does not
    reach the draw call. *)
Theorem draw_built_mesh_is_stale
    waxis haxis wdir hdir width height woff hoff zoff wsegs hsegs clr ms b :
  Buff ms = Some b ->
  draw ms = Returns [TrianglesIndexed 0 (ib_len (Indexes b))] /\
  draw (Reset ms) = draw ms /\
  draw (AddPlane' waxis haxis wdir hdir width height woff hoff zoff wsegs hsegs clr ms)
    = draw ms.
Proof.
  intros Hb.
  assert (Hdraw : forall m, Buff m = Some b ->
            draw m = Returns [TrianglesIndexed 0 (ib_len (Indexes b))]).
  { intros m Hm. unfold draw, Activate, Render3D. by rewrite !Hm. }
  rewrite (Hdraw ms Hb). split; [done |]. split; apply Hdraw; [done |].
  destruct (AddPlane_spec waxis haxis wdir hdir width height
              woff hoff zoff wsegs hsegs clr ms) as (_ & _ & _ & _ & _ & Hbuff & _).
  cbv zeta in Hbuff. by rewrite Hbuff.
Qed.

End PlaneSpec.

Section SetPlane.
Import GoInt Mesh.
Variable GiColor : Type.
Variable IsNil : GiColor -> bool.
Variable ColorToVec4f : GiColor -> mat32.Vec4.

Local Abbreviation AddPlane' := (AddPlane GiColor IsNil ColorToVec4f).
Local Abbreviation SetPlaneVtx' := (SetPlaneVtx GiColor IsNil ColorToVec4f).
Local Abbreviation round := (SetPlaneVtx_round GiColor IsNil ColorToVec4f).

(** ** Stores into the middle of an array *)

Lemma store_mid {A} (pre post : list A) (x0 x : A) (i : Z) :
  i = len pre -> mat32.store (pre ++ x0 :: post) i x = Returns (pre ++ x :: post).
Proof.
  intros ->. unfold mat32.store, len. rewrite length_app. cbn [length].
  destruct (Z.leb_spec 0 (Z.of_nat (length pre))); [| lia].
  destruct (Z.ltb_spec (Z.of_nat (length pre)) (Z.of_nat (length pre + Datatypes.S (length post))));
    [| lia].
  cbn. rewrite Nat2Z.id, insert_app_r_alt by lia. by rewrite Nat.sub_diag.
Qed.

Lemma len_snoc {A} (l : list A) (x : A) : len (l ++ [x]) = len l + 1.
Proof. rewrite len_app. reflexivity. Qed.

Lemma add_small (a b : Z) : 0 <= a -> 0 <= b -> a + b <= MaxInt -> add a b = a + b.
Proof. intros. apply wrap_id. unfold is_int, MinInt, MaxInt in *. lia. Qed.

Lemma Vec3_ToArray_mid (v : mat32.Vec3) (pre post : list float32) (m0 m1 m2 : float32)
    (off : Z) :
  off = len pre -> len pre + 3 <= MaxInt ->
  mat32.Vec3_ToArray v (pre ++ m0 :: m1 :: m2 :: post) off
  = Returns (pre ++ Vec3_floats v ++ post).
Proof.
  intros -> Hfit. unfold mat32.Vec3_ToArray. pose proof (len_nonneg pre).
  rewrite store_mid by done.
  rewrite (cons_middle (mat32.v3x v)), app_assoc.
  rewrite store_mid by (rewrite len_snoc; apply add_small; lia).
  rewrite (cons_middle (mat32.v3y v)), app_assoc.
  rewrite store_mid by (rewrite !len_snoc, add_small; lia).
  by rewrite <- !app_assoc.
Qed.

Lemma Vec4_ToArray_mid (v : mat32.Vec4) (pre post : list float32) (m0 m1 m2 m3 : float32)
    (off : Z) :
  off = len pre -> len pre + 4 <= MaxInt ->
  mat32.Vec4_ToArray v (pre ++ m0 :: m1 :: m2 :: m3 :: post) off
  = Returns (pre ++ Vec4_floats v ++ post).
Proof.
  intros -> Hfit. unfold mat32.Vec4_ToArray. pose proof (len_nonneg pre).
  rewrite store_mid by done.
  rewrite (cons_middle (mat32.v4x v)), app_assoc.
  rewrite store_mid by (rewrite len_snoc; apply add_small; lia).
  rewrite (cons_middle (mat32.v4y v)), app_assoc.
  rewrite store_mid by (rewrite !len_snoc, add_small; lia).
  rewrite (cons_middle (mat32.v4z v)), app_assoc.
  rewrite store_mid by (rewrite !len_snoc, add_small; lia).
  by rewrite <- !app_assoc.
Qed.

(** ** Nested loops as one pass over the grid cells *)

Lemma loop_from_foldl {S} (body : Z -> S -> S) :
  forall n i s, loop_from n i body s = foldl (fun s i => body i s) s (seqZ i (Z.of_nat n)).
Proof.
  induction n as [|n IH]; intros i s; [done |].
  cbn [loop_from]. rewrite IH.
  replace (Z.of_nat (Datatypes.S n)) with (Z.succ (Z.of_nat n)) by lia.
  rewrite (seqZ_cons i) by lia. cbn [foldl].
  replace (Z.succ i) with (i + 1) by lia.
  by replace (Z.pred (Z.succ (Z.of_nat n))) with (Z.of_nat n) by lia.
Qed.

Lemma for_range_foldl {S} (hi : Z) (body : Z -> S -> S) (s : S) :
  for_range hi body s = foldl (fun s i => body i s) s (seqZ 0 hi).
Proof.
  unfold for_range. rewrite loop_from_foldl.
  destruct (Z_le_gt_dec 0 hi).
  - by rewrite Z2Nat.id.
  - by rewrite (seqZ_nil 0 hi), (seqZ_nil 0 (Z.of_nat _)) by lia.
Qed.

Lemma foldl_flat_map {S B C} (f : S -> C -> S) (g : B -> list C) (l : list B) (s : S) :
  foldl f s (flat_map g l) = foldl (fun s x => foldl f s (g x)) s l.
Proof.
  revert s. induction l as [|x l IH]; intros s; cbn; [done |].
  by rewrite foldl_app, IH.
Qed.

Lemma foldl_ext_all {S B} (f g : S -> B -> S) (l : list B) (s : S) :
  (forall s x, f s x = g s x) -> foldl f s l = foldl g s l.
Proof.
  intros Hfg. revert s. induction l as [|x l IH]; intros s; cbn; [done |].
  by rewrite Hfg, IH.
Qed.

Lemma flat_map_flat_map {A B C} (f : B -> list C) (g : A -> list B) (l : list A) :
  flat_map f (flat_map g l) = flat_map (fun x => flat_map f (g x)) l.
Proof.
  induction l as [|x l IH]; cbn; [done |]. by rewrite flat_map_app, IH.
Qed.

Lemma nested_for_range {S} (W H : Z) (body : Z -> Z -> S -> S) (s : S) :
  for_range H (fun iy s => for_range W (fun ix s => body ix iy s) s) s
  = foldl (fun s p => body p.1 p.2 s) s (grid W H (fun ix iy => [(ix, iy)])).
Proof.
  unfold grid. rewrite for_range_foldl, foldl_flat_map.
  apply foldl_ext_all. intros s' iy. by rewrite for_range_foldl, foldl_flat_map.
Qed.

Lemma grid_cells {A} (W H : Z) (cell : Z -> Z -> list A) :
  grid W H cell = flat_map (fun p => cell p.1 p.2) (grid W H (fun ix iy => [(ix, iy)])).
Proof.
  unfold grid. rewrite flat_map_flat_map.
  apply flat_map_ext. intros iy. rewrite flat_map_flat_map.
  apply flat_map_ext. intros ix. cbn. by rewrite app_nil_r.
Qed.


Lemma SetPlaneVtx_as_rounds
    startIdx waxis haxis wdir hdir width height woff hoff zoff wsegs hsegs clr ms :
  SetPlaneVtx' startIdx waxis haxis wdir hdir width height woff hoff zoff wsegs hsegs clr ms =
  match
    foldl (fun st p =>
             round clr (plane_vertex waxis haxis wdir hdir width height woff hoff zoff
                          wsegs hsegs p.1 p.2) st)
      (Returns (ms, mul startIdx 3, mul startIdx 4))
      (grid (add (MaxInt2 wsegs 1) 1) (add (MaxInt2 hsegs 1) 1) (fun ix iy => [(ix, iy)]))
  with
  | Panics why => Panics why
  | Returns (ms, _, _) => Returns ms
  end.
Proof.
  rewrite <- (nested_for_range _ _ (fun ix iy st =>
    round clr (plane_vertex waxis haxis wdir hdir width height woff hoff zoff
                 wsegs hsegs ix iy) st)).
  reflexivity.
Qed.

Lemma len_cons {A} (x : A) (l : list A) : len (x :: l) = 1 + len l.
Proof. unfold len. cbn [length]. lia. Qed.

(** The rounds, when every store lands inside its array. *)
Lemma rounds_in_range clr (vtxf : Z * Z -> mat32.Vec3) :
  forall cells ms pre mid post cpre cmid cpost cidx,
    Vtx ms = pre ++ mid ++ post ->
    len mid = 3 * len cells ->
    len (Vtx ms) <= MaxInt ->
    Color ms = cpre ++ cmid ++ cpost ->
    (IsNil clr = false ->
     cidx = len cpre /\ len cmid = 4 * len cells /\ len (Color ms) <= MaxInt) ->
    exists ms' vidx' cidx',
      foldl (fun st p => round clr (vtxf p) st) (Returns (ms, len pre, cidx)) cells
        = Returns (ms', vidx', cidx') /\
      Vtx ms' = pre ++ flat_map (fun p => Vec3_floats (vtxf p)) cells ++ post /\
      Color ms' = cpre ++ (if IsNil clr then cmid
                           else flat_map (fun _ => Vec4_floats (ColorToVec4f clr)) cells)
                       ++ cpost /\
      Norm ms' = Norm ms /\ TexUV ms' = TexUV ms /\ Idx ms' = Idx ms /\
      Buff ms' = Buff ms /\ Nm ms' = Nm ms /\ Dynamic ms' = Dynamic ms /\
      Trans ms' = Trans ms.
Proof.
  induction cells as [|p cells IH];
    intros ms pre mid post cpre cmid cpost cidx Hv Hmid Hmax Hc Hcol.
  - cbn [foldl]. exists ms, (len pre), cidx. split; [done |].
    destruct mid; [| rewrite len_cons in Hmid; pose proof (len_nonneg mid);
                     change (len []) with 0 in Hmid; lia].
    split; [done |]. split; [| done].
    destruct (IsNil clr) eqn:Hnil; [done |].
    destruct (Hcol eq_refl) as (_ & Hcm & _).
    destruct cmid; [done |].
    rewrite len_cons in Hcm. pose proof (len_nonneg cmid).
    change (len []) with 0 in Hcm. lia.
  - rewrite len_cons in Hmid.
    destruct mid as [|m0 [|m1 [|m2 mid]]];
      try (rewrite ?len_cons in Hmid; change (len []) with 0 in Hmid;
           pose proof (len_nonneg cells); lia).
    rewrite !len_cons in Hmid.
    assert (Hfit : len pre + 3 <= MaxInt).
    { rewrite Hv in Hmax; repeat rewrite ?len_app, ?len_cons in Hmax.
      pose proof (len_nonneg mid). pose proof (len_nonneg post). lia. }
    cbn [foldl]. unfold SetPlaneVtx_round at 2.
    change ((m0 :: m1 :: m2 :: mid) ++ post) with (m0 :: m1 :: m2 :: mid ++ post) in Hv.
    rewrite Hv, Vec3_ToArray_mid by done.
    assert (Hvidx : add (len pre) 3 = len (pre ++ Vec3_floats (vtxf p))).
    { rewrite len_app, add_small; [done | apply len_nonneg | lia | done]. }
    rewrite Hvidx.
    destruct (IsNil clr) eqn:Hnil; cbn [negb].
    + destruct (IH (set_Vtx (pre ++ Vec3_floats (vtxf p) ++ mid ++ post) ms)
                  (pre ++ Vec3_floats (vtxf p)) mid post cpre cmid cpost cidx)
        as (ms' & vidx' & cidx' & Hfold & Hv' & Hc' & Hrest).
      * cbn. by rewrite <- !app_assoc.
      * lia.
      * cbn [Vtx set_Vtx]. rewrite Hv in Hmax; repeat rewrite ?len_app, ?len_cons in Hmax.
        rewrite !len_app. change (len (Vec3_floats (vtxf p))) with 3. lia.
      * done.
      * intros Hf. discriminate Hf.
      * exists ms', vidx', cidx'. split; [exact Hfold |].
        split; [rewrite Hv'; cbn; by rewrite <- !app_assoc |].
        split; [by rewrite Hc' |]. exact Hrest.
    + destruct (Hcol eq_refl) as (-> & Hcm & Hcmax).
      rewrite len_cons in Hcm.
      destruct cmid as [|c0 [|c1 [|c2 [|c3 cmid]]]];
        try (rewrite ?len_cons in Hcm; change (len []) with 0 in Hcm;
             pose proof (len_nonneg cells); lia).
      rewrite !len_cons in Hcm.
      assert (Hcfit : len cpre + 4 <= MaxInt).
      { rewrite Hc in Hcmax; repeat rewrite ?len_app, ?len_cons in Hcmax.
        pose proof (len_nonneg cmid). pose proof (len_nonneg cpost). lia. }
      change ((c0 :: c1 :: c2 :: c3 :: cmid) ++ cpost)
        with (c0 :: c1 :: c2 :: c3 :: cmid ++ cpost) in Hc.
      cbn [Color set_Vtx]. rewrite Hc, Vec4_ToArray_mid by done.
      assert (Hcidx : add (len cpre) 4 = len (cpre ++ Vec4_floats (ColorToVec4f clr))).
      { rewrite len_app, add_small; [done | apply len_nonneg | lia | done]. }
      rewrite Hcidx.
      destruct (IH (set_Color (cpre ++ Vec4_floats (ColorToVec4f clr) ++ cmid ++ cpost)
                      (set_Vtx (pre ++ Vec3_floats (vtxf p) ++ mid ++ post) ms))
                  (pre ++ Vec3_floats (vtxf p)) mid post
                  (cpre ++ Vec4_floats (ColorToVec4f clr)) cmid cpost
                  (len (cpre ++ Vec4_floats (ColorToVec4f clr))))
        as (ms' & vidx' & cidx' & Hfold & Hv' & Hc' & Hrest).
      * cbn. by rewrite <- !app_assoc.
      * lia.
      * cbn [Vtx set_Vtx set_Color]. rewrite Hv in Hmax; repeat rewrite ?len_app, ?len_cons in Hmax.
        rewrite !len_app. change (len (Vec3_floats (vtxf p))) with 3. lia.
      * cbn. by rewrite <- !app_assoc.
      * intros _. split; [done |]. split; [lia |].
        cbn [Color set_Color]. rewrite Hc in Hcmax; repeat rewrite ?len_app, ?len_cons in Hcmax.
        rewrite !len_app. change (len (Vec4_floats (ColorToVec4f clr))) with 4. lia.
      * exists ms', vidx', cidx'. split; [exact Hfold |].
        split; [rewrite Hv'; cbn; by rewrite <- !app_assoc |].
        split; [rewrite Hc'; cbn; by rewrite <- !app_assoc |]. exact Hrest.
Qed.


(** A window of an array: what lies before it, in it and after it. *)
Lemma window {A} (a : list A) (off m : Z) :
  0 <= off -> 0 <= m -> off + m <= len a ->
  a = take (Z.to_nat off) a ++ take (Z.to_nat m) (drop (Z.to_nat off) a)
        ++ drop (Z.to_nat (off + m)) a /\
  len (take (Z.to_nat off) a) = off /\
  len (take (Z.to_nat m) (drop (Z.to_nat off) a)) = m.
Proof.
  intros Hoff Hm Hlen. unfold len in *. split; [| split].
  - rewrite Z2Nat.inj_add by lia. rewrite <- drop_drop.
    by rewrite !take_drop.
  - rewrite length_take. lia.
  - rewrite length_take, length_drop. lia.
Qed.

Lemma cells_len (W H : Z) :
  0 <= W -> 0 <= H -> len (grid W H (fun ix iy => [(ix, iy)])) = H * W.
Proof. intros. rewrite (grid_len _ _ 1); [lia | done | done | done]. Qed.

(** What [SetPlaneVtx] writes when the plane lies within the arrays. *)
Lemma SetPlaneVtx_in_range
    startIdx waxis haxis wdir hdir width height woff hoff zoff wsegs hsegs clr ms :
  let W1 := Z.max wsegs 1 + 1 in
  let H1 := Z.max hsegs 1 + 1 in
  0 <= startIdx ->
  3 * (startIdx + W1 * H1) <= len (Vtx ms) <= MaxInt ->
  (IsNil clr = false -> 4 * (startIdx + W1 * H1) <= len (Color ms) <= MaxInt) ->
  exists ms',
    SetPlaneVtx' startIdx waxis haxis wdir hdir width height woff hoff zoff wsegs hsegs clr ms
      = Returns ms' /\
    Vtx ms' = take (Z.to_nat (3 * startIdx)) (Vtx ms) ++
              grid W1 H1 (fun ix iy =>
                Vec3_floats (plane_vertex waxis haxis wdir hdir width height woff hoff zoff
                               wsegs hsegs ix iy)) ++
              drop (Z.to_nat (3 * (startIdx + W1 * H1))) (Vtx ms) /\
    Color ms' = (if IsNil clr then Color ms else
                 take (Z.to_nat (4 * startIdx)) (Color ms) ++
                 grid W1 H1 (fun _ _ => Vec4_floats (ColorToVec4f clr)) ++
                 drop (Z.to_nat (4 * (startIdx + W1 * H1))) (Color ms)) /\
    Norm ms' = Norm ms /\ TexUV ms' = TexUV ms /\ Idx ms' = Idx ms /\ Buff ms' = Buff ms.
Proof.
  intros W1 H1 Hst Hv Hc.
  assert (HW : 2 <= W1) by (unfold W1; lia). assert (HH : 2 <= H1) by (unfold H1; lia).
  assert (Hn : 4 <= W1 * H1) by nia.
  rewrite SetPlaneVtx_as_rounds, !MaxInt2_max.
  assert (HW1 : add (Z.max wsegs 1) 1 = W1).
  { apply wrap_id. unfold is_int, MinInt, MaxInt, W1 in *. nia. }
  assert (HH1 : add (Z.max hsegs 1) 1 = H1).
  { apply wrap_id. unfold is_int, MinInt, MaxInt, H1 in *. nia. }
  rewrite HW1, HH1.
  assert (Hm3 : mul startIdx 3 = 3 * startIdx).
  { unfold mul. rewrite wrap_id; [lia |]. unfold is_int, MinInt, MaxInt in *. nia. }
  rewrite Hm3.
  destruct (window (Vtx ms) (3 * startIdx) (3 * (W1 * H1))) as (Hva & Hvp & Hvm); [lia.. |].
  set (cells := grid W1 H1 (fun ix iy => [(ix, iy)])).
  assert (Hcells : len cells = W1 * H1) by (unfold cells; rewrite cells_len; lia).
  set (vtxf := fun p : Z * Z =>
                 plane_vertex waxis haxis wdir hdir width height woff hoff zoff
                   wsegs hsegs p.1 p.2).
  destruct (IsNil clr) eqn:Hnil.
  - destruct (rounds_in_range clr vtxf cells ms
                _ _ _ [] (Color ms) [] (mul startIdx 4) Hva)
      as (ms' & vidx' & cidx' & Hfold & Hv' & Hc' & Hn' & Ht' & Hi' & Hb' & _).
    + rewrite Hvm. lia.
    + lia.
    + by rewrite app_nil_r.
    + rewrite Hnil. discriminate.
    + rewrite Hvp in Hfold. exists ms'. unfold vtxf in Hfold. rewrite Hfold.
      split; [done |]. rewrite Hnil in Hc'. cbn in Hc'. rewrite app_nil_r in Hc'.
      split; [| done].
      rewrite Hv'. rewrite (grid_cells W1 H1). do 3 f_equal. lia.
  - specialize (Hc eq_refl).
    assert (Hm4 : mul startIdx 4 = 4 * startIdx).
    { unfold mul. rewrite wrap_id; [lia |]. unfold is_int, MinInt, MaxInt in *. nia. }
    rewrite Hm4.
    destruct (window (Color ms) (4 * startIdx) (4 * (W1 * H1))) as (Hca & Hcp & Hcm); [lia.. |].
    destruct (rounds_in_range clr vtxf cells ms
                _ _ _ (take (Z.to_nat (4 * startIdx)) (Color ms))
                (take (Z.to_nat (4 * (W1 * H1))) (drop (Z.to_nat (4 * startIdx)) (Color ms)))
                (drop (Z.to_nat (4 * startIdx + 4 * (W1 * H1))) (Color ms))
                (4 * startIdx) Hva)
      as (ms' & vidx' & cidx' & Hfold & Hv' & Hc' & Hn' & Ht' & Hi' & Hb' & _).
    + rewrite Hvm. lia.
    + lia.
    + exact Hca.
    + intros _. rewrite Hcp, Hcm. repeat split; lia.
    + rewrite Hvp in Hfold. exists ms'. unfold vtxf in Hfold. rewrite Hfold.
      split; [done |]. rewrite Hnil in Hc'.
      split; [| split; [| done]].
      * rewrite Hv'. rewrite (grid_cells W1 H1). do 3 f_equal. lia.
      * rewrite Hc'. rewrite (grid_cells W1 H1 (fun _ _ => _)). do 3 f_equal. lia.
Qed.

(** Within the arrays, [SetPlaneVtx] returns, having written the vertices
    of the plane (and its colors, if any) over the window that starts at
    the vertex index [startIdx]; no array changes its length, and the
    normals, texture coordinates, indexes and GPU buffer are untouched. *)
Theorem SetPlaneVtx_rewrites_in_place
    startIdx waxis haxis wdir hdir width height woff hoff zoff wsegs hsegs clr ms :
  let W1 := Z.max wsegs 1 + 1 in
  let H1 := Z.max hsegs 1 + 1 in
  0 <= startIdx ->
  3 * (startIdx + W1 * H1) <= len (Vtx ms) <= MaxInt ->
  (IsNil clr = false -> 4 * (startIdx + W1 * H1) <= len (Color ms) <= MaxInt) ->
  exists ms',
    SetPlaneVtx' startIdx waxis haxis wdir hdir width height woff hoff zoff wsegs hsegs clr ms
      = Returns ms' /\
    Vtx ms' = take (Z.to_nat (3 * startIdx)) (Vtx ms) ++
              grid W1 H1 (fun ix iy =>
                Vec3_floats (plane_vertex waxis haxis wdir hdir width height woff hoff zoff
                               wsegs hsegs ix iy)) ++
              drop (Z.to_nat (3 * (startIdx + W1 * H1))) (Vtx ms) /\
    Color ms' = (if IsNil clr then Color ms else
                 take (Z.to_nat (4 * startIdx)) (Color ms) ++
                 grid W1 H1 (fun _ _ => Vec4_floats (ColorToVec4f clr)) ++
                 drop (Z.to_nat (4 * (startIdx + W1 * H1))) (Color ms)) /\
    len (Vtx ms') = len (Vtx ms) /\ len (Color ms') = len (Color ms) /\
    Norm ms' = Norm ms /\ TexUV ms' = TexUV ms /\ Idx ms' = Idx ms /\ Buff ms' = Buff ms.
Proof.
  intros W1 H1 Hst Hv Hc.
  destruct (SetPlaneVtx_in_range startIdx waxis haxis wdir hdir width height woff hoff zoff
              wsegs hsegs clr ms Hst Hv Hc)
    as (ms' & Hret & Hv' & Hc' & Hrest).
  fold W1 H1 in Hv', Hc'.
  assert (HW : 2 <= W1) by (unfold W1; lia). assert (HH : 2 <= H1) by (unfold H1; lia).
  exists ms'. split; [exact Hret |]. split; [exact Hv' |]. split; [exact Hc' |].
  split; [| split; [| exact Hrest]].
  - rewrite Hv', !len_app, (grid_len _ _ 3) by (done || lia).
    unfold len. rewrite length_take, length_drop. unfold len in Hv. lia.
  - rewrite Hc'. destruct (IsNil clr); [done |]. specialize (Hc eq_refl).
    rewrite !len_app, (grid_len _ _ 4) by (done || lia).
    unfold len. rewrite length_take, length_drop. unfold len in Hc. lia.
Qed.



(** A store either lands inside the array, which keeps its length, or
    panics. *)
Lemma store_cases {A} (a : list A) (i : Z) (x : A) :
  mat32.store a i x = Panics mat32.index_out_of_range \/
  exists a', mat32.store a i x = Returns a' /\ len a' = len a /\ 0 <= i < len a.
Proof.
  unfold mat32.store.
  destruct (Z.leb_spec 0 i), (Z.ltb_spec i (len a)); cbn; try by left.
  right. eexists. split; [done |]. split; [| lia].
  unfold len. by rewrite length_insert.
Qed.

Lemma Vec3_ToArray_cases (v : mat32.Vec3) (a : list float32) (off : Z) :
  len a <= MaxInt ->
  mat32.Vec3_ToArray v a off = Panics mat32.index_out_of_range \/
  exists a', mat32.Vec3_ToArray v a off = Returns a' /\ len a' = len a /\
             0 <= off /\ off + 3 <= len a.
Proof.
  intros Hmax. unfold mat32.Vec3_ToArray.
  destruct (store_cases a off (mat32.v3x v)) as [-> | (a1 & -> & Hl1 & Hr1)]; [by left |].
  rewrite add_small by lia.
  destruct (store_cases a1 (off + 1) (mat32.v3y v)) as [-> | (a2 & -> & Hl2 & Hr2)];
    [by left |].
  rewrite add_small by lia.
  destruct (store_cases a2 (off + 2) (mat32.v3z v)) as [-> | (a3 & -> & Hl3 & Hr3)];
    [by left |].
  right. exists a3. repeat split; lia.
Qed.

Lemma Vec4_ToArray_cases (v : mat32.Vec4) (a : list float32) (off : Z) :
  len a <= MaxInt ->
  mat32.Vec4_ToArray v a off = Panics mat32.index_out_of_range \/
  exists a', mat32.Vec4_ToArray v a off = Returns a' /\ len a' = len a /\
             0 <= off /\ off + 4 <= len a.
Proof.
  intros Hmax. unfold mat32.Vec4_ToArray.
  destruct (store_cases a off (mat32.v4x v)) as [-> | (a1 & -> & Hl1 & Hr1)]; [by left |].
  rewrite add_small by lia.
  destruct (store_cases a1 (off + 1) (mat32.v4y v)) as [-> | (a2 & -> & Hl2 & Hr2)];
    [by left |].
  rewrite add_small by lia.
  destruct (store_cases a2 (off + 2) (mat32.v4z v)) as [-> | (a3 & -> & Hl3 & Hr3)];
    [by left |].
  rewrite add_small by lia.
  destruct (store_cases a3 (off + 3) (mat32.v4w v)) as [-> | (a4 & -> & Hl4 & Hr4)];
    [by left |].
  right. exists a4. repeat split; lia.
Qed.

Lemma rounds_after_panic clr (vtxf : Z * Z -> mat32.Vec3) (cells : list (Z * Z)) why :
  foldl (fun st p => round clr (vtxf p) st) (Panics why) cells = Panics why.
Proof. by induction cells. Qed.

(** The rounds, when some store falls outside its array. *)
Lemma rounds_out_of_range clr (vtxf : Z * Z -> mat32.Vec3) :
  forall cells ms vidx cidx,
    0 < len cells ->
    len (Vtx ms) <= MaxInt -> len (Color ms) <= MaxInt ->
    (vidx < 0 \/ len (Vtx ms) < vidx + 3 * len cells \/
     (IsNil clr = false /\ (cidx < 0 \/ len (Color ms) < cidx + 4 * len cells))) ->
    foldl (fun st p => round clr (vtxf p) st) (Returns (ms, vidx, cidx)) cells
    = Panics mat32.index_out_of_range.
Proof.
  induction cells as [|p cells IH]; intros ms vidx cidx Hk Hvmax Hcmax Hshort;
    [change (len []) with 0 in Hk; lia |].
  rewrite len_cons in Hshort. pose proof (len_nonneg cells) as Hk'.
  cbn [foldl]. unfold SetPlaneVtx_round at 2.
  destruct (Vec3_ToArray_cases (vtxf p) (Vtx ms) vidx Hvmax)
    as [-> | (a' & -> & Hl & Hv0 & Hv3)]; [apply rounds_after_panic |].
  destruct (IsNil clr) eqn:Hnil; cbn [negb].
  - rewrite add_small by lia. apply IH.
    + destruct Hshort as [? | [? | [? _]]]; [lia | lia | done].
    + cbn. lia.
    + done.
    + cbn [Vtx set_Vtx]. destruct Hshort as [? | [? | [? _]]]; [lia | | done].
      right. left. lia.
  - cbn [Color set_Vtx].
    destruct (Vec4_ToArray_cases (ColorToVec4f clr) (Color ms) cidx Hcmax)
      as [-> | (c' & -> & Hlc & Hc0 & Hc4)]; [apply rounds_after_panic |].
    rewrite !add_small by lia. apply IH.
    + destruct Hshort as [? | [? | [_ [? | ?]]]]; lia.
    + cbn. lia.
    + cbn. lia.
    + cbn [Vtx Color set_Vtx set_Color].
      destruct Hshort as [? | [? | [_ [? | ?]]]]; [lia | | lia |].
      * right. left. lia.
      * right. right. split; [done |]. right. lia.
Qed.


(** Segment counts below one count as one, in all three plane functions. *)
Theorem plane_segment_counts_are_clamped
    startIdx waxis haxis wdir hdir width height woff hoff zoff wsegs hsegs clr ms :
  PlaneSize wsegs hsegs = PlaneSize (Z.max wsegs 1) (Z.max hsegs 1) /\
  AddPlane' waxis haxis wdir hdir width height woff hoff zoff wsegs hsegs clr ms
  = AddPlane' waxis haxis wdir hdir width height woff hoff zoff
      (Z.max wsegs 1) (Z.max hsegs 1) clr ms /\
  SetPlaneVtx' startIdx waxis haxis wdir hdir width height woff hoff zoff wsegs hsegs clr ms
  = SetPlaneVtx' startIdx waxis haxis wdir hdir width height woff hoff zoff
      (Z.max wsegs 1) (Z.max hsegs 1) clr ms.
Proof.
  assert (Hclamp : forall z, MaxInt2 (Z.max z 1) 1 = MaxInt2 z 1)
    by (intros z; rewrite !MaxInt2_max; lia).
  unfold PlaneSize, AddPlane, SetPlaneVtx. by rewrite !Hclamp.
Qed.

End SetPlane.

(** ** Instances *)

Lemma AddPlane_after_Reset_is_valid_witness :
  (Z.max 2 1 + 1) * (Z.max 0 1 + 1) <= GoInt.MaxInt /\
  Mesh.Validate
    (Mesh.AddPlane Mesh.RGBA Mesh.RGBA_IsNil Mesh.RGBA_ToVec4f mat32.X mat32.Y 1 1
       Mesh.f1 Mesh.f1 F32.zero F32.zero Mesh.f1 2 0 Mesh.red (Mesh.Reset Mesh.mesh_point))
  = Mesh.ok.
Proof.
  split; [vm_compute; discriminate |].
  destruct (AddPlane_after_Reset_is_valid Mesh.RGBA Mesh.RGBA_IsNil Mesh.RGBA_ToVec4f
              mat32.X mat32.Y 1 1 Mesh.f1 Mesh.f1 F32.zero F32.zero Mesh.f1 2 0
              Mesh.red Mesh.mesh_point) as (H & _); [vm_compute; discriminate | exact H].
Defined.

Lemma AddPlane_keeps_valid_iff_witness :
  (Z.max 2 1 + 1) * (Z.max 0 1 + 1) <= GoInt.MaxInt /\
  Mesh.Validate_fails Mesh.mesh_point = false /\
  (Mesh.Validate_fails
     (Mesh.AddPlane Mesh.RGBA Mesh.RGBA_IsNil Mesh.RGBA_ToVec4f mat32.X mat32.Y 1 1
        Mesh.f1 Mesh.f1 F32.zero F32.zero Mesh.f1 2 0 Mesh.red Mesh.mesh_point) = false
   <-> GoInt.div (GoInt.len (Mesh.Color Mesh.mesh_point)) 4
       = GoInt.div (GoInt.len (Mesh.Vtx Mesh.mesh_point)) 3).
Proof.
  split; [vm_compute; discriminate |]. split; [reflexivity |].
  apply (AddPlane_keeps_valid_iff Mesh.RGBA Mesh.RGBA_IsNil Mesh.RGBA_ToVec4f
           mat32.X mat32.Y 1 1 Mesh.f1 Mesh.f1 F32.zero F32.zero Mesh.f1 2 0
           Mesh.red Mesh.mesh_point); [vm_compute; discriminate | reflexivity].
Defined.

Lemma AddPlane_indexes_in_range_witness :
  GoInt.div (GoInt.len (Mesh.Vtx Mesh.mesh_point)) 3
    + (Z.max 2 1 + 1) * (Z.max 0 1 + 1) <= 2 ^ 32 /\
  exists added,
    Mesh.Idx (Mesh.AddPlane Mesh.RGBA Mesh.RGBA_IsNil Mesh.RGBA_ToVec4f mat32.X mat32.Y 1 1
                Mesh.f1 Mesh.f1 F32.zero F32.zero Mesh.f1 2 0 Mesh.red Mesh.mesh_point)
      = Mesh.Idx Mesh.mesh_point ++ added /\
    Forall (fun i => GoInt.div (GoInt.len (Mesh.Vtx Mesh.mesh_point)) 3 <= i
                     < GoInt.div (GoInt.len (Mesh.Vtx Mesh.mesh_point)) 3
                       + (Z.max 2 1 + 1) * (Z.max 0 1 + 1)) added.
Proof.
  split; [vm_compute; discriminate |].
  apply (AddPlane_indexes_in_range Mesh.RGBA Mesh.RGBA_IsNil Mesh.RGBA_ToVec4f
           mat32.X mat32.Y 1 1 Mesh.f1 Mesh.f1 F32.zero F32.zero Mesh.f1 2 0
           Mesh.red Mesh.mesh_point).
  vm_compute; discriminate.
Defined.

Lemma AddPlane_normals_witness :
  (Z.max 2 1 + 1) * (Z.max 0 1 + 1) <= GoInt.MaxInt /\
  Mesh.Norm Mesh.mesh_plane = concat (replicate 6 [F32.zero; F32.zero; F32.of_int 1]).
Proof.
  split; [vm_compute; discriminate |].
  destruct (AddPlane_normals Mesh.RGBA Mesh.RGBA_IsNil Mesh.RGBA_ToVec4f
              mat32.X mat32.Y 1 1 Mesh.f1 Mesh.f1 F32.zero F32.zero Mesh.f1 2 0
              Mesh.red Mesh.mesh_empty) as (_ & H); [vm_compute; discriminate | exact H].
Defined.

Lemma draw_after_MakeVectors_witness :
  Mesh.Validate_fails Mesh.mesh_plane = false /\
  Mesh.draw (snd (Mesh.MakeVectors Mesh.mesh_plane))
  = Returns [Mesh.TrianglesIndexed 0 (GoInt.len (Mesh.Idx Mesh.mesh_plane))].
Proof.
  split; [reflexivity |].
  destruct (draw_after_MakeVectors Mesh.mesh_plane) as (b & _ & _ & _ & _ & H);
    [reflexivity | exact H].
Defined.

Lemma draw_built_mesh_is_stale_witness :
  Mesh.Buff Mesh.mesh_rebuilt_late = Some Mesh.old_buffer /\
  GoInt.len (Mesh.Idx Mesh.mesh_rebuilt_late) = 12 /\
  Mesh.draw Mesh.mesh_rebuilt_late = Returns [Mesh.TrianglesIndexed 0 3].
Proof.
  split; [reflexivity |]. split; [reflexivity |].
  destruct (draw_built_mesh_is_stale Mesh.RGBA Mesh.RGBA_IsNil Mesh.RGBA_ToVec4f
              mat32.X mat32.Y 1 1 Mesh.f1 Mesh.f1 F32.zero F32.zero Mesh.f1 2 0
              Mesh.red Mesh.mesh_rebuilt_late Mesh.old_buffer) as (H & _);
    [reflexivity | exact H].
Defined.

Lemma SetPlaneVtx_rewrites_in_place_witness :
  0 <= 0 /\
  3 * (0 + (Z.max 2 1 + 1) * (Z.max 0 1 + 1)) <= GoInt.len (Mesh.Vtx Mesh.mesh_plane)
    <= GoInt.MaxInt /\
  exists ms',
    Mesh.SetPlaneVtx Mesh.RGBA Mesh.RGBA_IsNil Mesh.RGBA_ToVec4f 0 mat32.X mat32.Y 1 1
      Mesh.f1 Mesh.f1 F32.zero F32.zero F32.zero 2 0 Mesh.red Mesh.mesh_plane = Returns ms' /\
    GoInt.len (Mesh.Vtx ms') = GoInt.len (Mesh.Vtx Mesh.mesh_plane) /\
    Mesh.Idx ms' = Mesh.Idx Mesh.mesh_plane.
Proof.
  split; [lia |]. split; [vm_compute; split; discriminate |].
  destruct (SetPlaneVtx_rewrites_in_place Mesh.RGBA Mesh.RGBA_IsNil Mesh.RGBA_ToVec4f
              0 mat32.X mat32.Y 1 1 Mesh.f1 Mesh.f1 F32.zero F32.zero F32.zero 2 0
              Mesh.red Mesh.mesh_plane)
    as (ms' & Hret & _ & _ & Hlen & _ & _ & _ & Hidx & _).
  - lia.
  - vm_compute; split; discriminate.
  - intros _. vm_compute; split; discriminate.
  - exists ms'. split; [exact Hret |]. split; [exact Hlen | exact Hidx].
Defined.



(* ================================================================== *)
(** * More properties of the widget passes *)
(* ================================================================== *)

Section RenderProps.
Import Widget.

Variable Style : Type.
Variable ConnectToViewport : Node2DBase -> Node2DBase.
Variable UpdateStart : Node2D -> Heap Style -> bool * Heap Style.
Variable UpdateEndNoSig : bool -> Node2D -> Heap Style -> Heap Style.
Variable Init2DTree Style2DTree Size2DTree Layout2DTree Render2DTree :
  Node2D -> Heap Style -> Heap Style.

Local Abbreviation Render2D' :=
  (Render2D Style ConnectToViewport UpdateStart UpdateEndNoSig
     Init2DTree Style2DTree Size2DTree Layout2DTree Render2DTree).
Local Abbreviation Render2DChildren' :=
  (Render2DChildren Style ConnectToViewport UpdateStart UpdateEndNoSig
     Init2DTree Style2DTree Size2DTree Layout2DTree Render2DTree).
Local Abbreviation FullReRenderIfNeeded' :=
  (FullReRenderIfNeeded Style UpdateStart UpdateEndNoSig
     Init2DTree Style2DTree Size2DTree Layout2DTree Render2DTree).

Implicit Types (n : Node2D) (h : Heap Style) (g a : Addr).

(** Unless it takes the re-render path, [Render2D] leaves the dirty flag
    of its node cleared whenever it returns. *)
Theorem Render2D_clears_dirty_flag n h h' t :
  FullReRenderIfNeeded' n h = None ->
  Render2D' n h = Returns (h', t) ->
  NeedsFullReRender (h' (This n)) = false.
Proof.
  intros Hno. rewrite Render2D_unfold, Hno.
  destruct (PushBounds Style ConnectToViewport (h (This n)))
    as [[[[] g'] t1] | why] eqn:Hpush; [| | done].
  - destruct (Render2DChildren' _ _) as [[h1 t2] | why]; [| done].
    unfold PopBounds.
    destruct (Viewport (Node (ClearFullReRender (h1 (This n))))); [| done].
    intros [= <- _]. by rewrite modify_eq.
  - cbn. intros [= <- _]. rewrite modify_eq. cbn.
    unfold PushBounds in Hpush.
    destruct (IsOverlay (h (This n))).
    + destruct (Viewport (Node (ClearFullReRender (h (This n))))); [| done].
      by destruct (Viewport (Node (set_Node _ _))).
    + destruct (image.Empty (VpBBox (Node (h (This n))))).
      * by injection Hpush as <- _.
      * by destruct (Viewport (Node (h (This n)))).
Qed.

(** [Render2D] needs a viewport: on a node that has none it panics, as
    soon as the node is visible, and for an overlay after the children
    are rendered. *)
Theorem Render2D_without_viewport_panics n h :
  Viewport (Node (h (This n))) = None ->
  FullReRenderIfNeeded' n h = None ->
  (IsOverlay (h (This n)) = false ->
   image.Empty (VpBBox (Node (h (This n)))) = false ->
   Render2D' n h = Panics nil_deref) /\
  (IsOverlay (h (This n)) = true -> Kids_of n = [] ->
   Render2D' n h = Panics nil_deref).
Proof.
  intros Hvp Hno. split.
  - intros Hov Hvis. rewrite Render2D_unfold, Hno. unfold PushBounds.
    by rewrite Hov, Hvis, Hvp.
  - intros Hov Hkids. rewrite Render2D_unfold, Hno. unfold PushBounds.
    rewrite Hov. cbn. rewrite Hvp, Hkids. cbn. rewrite modify_eq.
    unfold PopBounds. cbn. by rewrite Hvp.
Qed.

End RenderProps.

Section ReadyTree.
Import Widget.

Variable Style : Type.
Variable ConnectToViewport : Node2DBase -> Node2DBase.
Variable UpdateStart : Node2D -> Heap Style -> bool * Heap Style.
Variable UpdateEndNoSig : bool -> Node2D -> Heap Style -> Heap Style.
Variable Init2DTree Style2DTree Size2DTree Layout2DTree Render2DTree :
  Node2D -> Heap Style -> Heap Style.

Local Abbreviation Render2D' :=
  (Render2D Style ConnectToViewport UpdateStart UpdateEndNoSig
     Init2DTree Style2DTree Size2DTree Layout2DTree Render2DTree).
Local Abbreviation Render2DChildren' :=
  (Render2DChildren Style ConnectToViewport UpdateStart UpdateEndNoSig
     Init2DTree Style2DTree Size2DTree Layout2DTree Render2DTree).
Local Abbreviation FullReRenderIfNeeded' :=
  (FullReRenderIfNeeded Style UpdateStart UpdateEndNoSig
     Init2DTree Style2DTree Size2DTree Layout2DTree Render2DTree).

Implicit Types (n : Node2D) (h : Heap Style) (g a : Addr) (t : list Call).

(** Connecting a ready node to its viewport leaves it ready. *)
Hypothesis connect_keeps_ready : forall b : Node2DBase,
  FullReRender b = false -> Viewport b <> None ->
  FullReRender (ConnectToViewport b) = false /\ Viewport (ConnectToViewport b) <> None.

(** What a render pass over ready nodes does: it returns, keeps ready
    nodes ready, keeps all layout data and styles, stays within the
    subtree, and pops every clip bound it pushes. *)
Local Abbreviation renders_quietly sub h r :=
  (exists h' t,
     r = Returns (h', t) /\
     (forall a, ready (h a) -> ready (h' a)) /\
     (forall a, LayData (h' a) = LayData (h a) /\ Sty (h' a) = Sty (h a)) /\
     (forall a, a ∉ sub -> h' a = h a) /\
     pushes t = pops t).

Lemma pushes_app t1 t2 : pushes (t1 ++ t2) = (pushes t1 + pushes t2)%nat.
Proof. unfold pushes. by rewrite List.filter_app, length_app. Qed.

Lemma pops_app t1 t2 : pops (t1 ++ t2) = (pops t1 + pops t2)%nat.
Proof. unfold pops. by rewrite List.filter_app, length_app. Qed.

Lemma Render2DChildren_quiet ks :
  Forall (fun k => forall h, (forall a, a ∈ subtree k -> ready (h a)) ->
                   renders_quietly (subtree k) h (Render2D' k h)) ks ->
  forall h, (forall a, a ∈ flat_map subtree ks -> ready (h a)) ->
    renders_quietly (flat_map subtree ks) h (Render2DChildren' ks h).
Proof.
  induction 1 as [|k ks Hk _ IH]; intros h Hready.
  - exists h, []. split; [done |]. split; [done |]. split; [done |]. split; done.
  - cbn [Render2DChildren flat_map].
    destruct (Hk h) as (h1 & t1 & -> & Hr1 & Hl1 & Hf1 & Hb1).
    { intros a Ha. apply Hready. cbn. apply elem_of_app. by left. }
    destruct (IH h1) as (h2 & t2 & -> & Hr2 & Hl2 & Hf2 & Hb2).
    { intros a Ha. apply Hr1, Hready. cbn. apply elem_of_app. by right. }
    exists h2, (t1 ++ t2). split; [done |]. split; [| split; [| split]].
    + intros a Ha. by apply Hr2, Hr1.
    + intros a. destruct (Hl1 a), (Hl2 a). split; congruence.
    + intros a Ha. rewrite Hf2, Hf1; [done | |];
        intros Hin; apply Ha, elem_of_app; ((by left) || (by right)).
    + rewrite pushes_app, pops_app. lia.
Qed.

Lemma PushBounds_ready (w : WidgetBase Style) :
  ready w ->
  exists b w' t1,
    PushBounds Style ConnectToViewport w = Returns (b, w', t1) /\
    ready w' /\ LayData w' = LayData w /\ Sty w' = Sty w /\
    pushes t1 = (if b then 1%nat else 0%nat) /\ pops t1 = 0%nat.
Proof.
  intros [Hclean Hvp]. unfold PushBounds.
  destruct (connect_keeps_ready (Node (ClearFullReRender w))) as [Hc1 Hc2]; [done | done |].
  destruct (connect_keeps_ready (Node w)) as [Hd1 Hd2]; [done | done |].
  destruct (IsOverlay w).
  - destruct (Viewport (Node (ClearFullReRender w))) eqn:Hv1; [| done].
    cbn [Node set_Node] in *.
    destruct (Viewport (ConnectToViewport _)) eqn:Hv2; [| done].
    eexists _, _, _. split; [done |].
    split; [split; [exact Hc1 | intros Hv3; cbn [Node set_Node] in Hv3; congruence]
           | by repeat split].
  - destruct (image.Empty (VpBBox (Node w))).
    + eexists _, _, _. split; [done |]. by repeat split.
    + destruct (Viewport (Node w)) eqn:Hv; [| done].
      eexists _, _, _. split; [done |]. by repeat split.
Qed.

Lemma PopBounds_ready (w : WidgetBase Style) :
  ready w ->
  exists w' t3,
    PopBounds Style w = Returns (w', t3) /\
    ready w' /\ LayData w' = LayData w /\ Sty w' = Sty w /\
    pushes t3 = 0%nat /\ pops t3 = 1%nat.
Proof.
  intros [Hclean Hvp]. unfold PopBounds.
  destruct (Viewport (Node (ClearFullReRender w))) eqn:Hv; [| done].
  eexists _, _. split; [done |]. repeat split; done.
Qed.

Lemma Render2D_quiet_node n :
  Forall (fun k => forall h, (forall a, a ∈ subtree k -> ready (h a)) ->
                   renders_quietly (subtree k) h (Render2D' k h)) (Kids_of n) ->
  forall h, (forall a, a ∈ subtree n -> ready (h a)) ->
    renders_quietly (subtree n) h (Render2D' n h).
Proof.
  intros IHks h Hready.
  assert (Hthis : This n ∈ subtree n) by (destruct n; cbn; apply elem_of_cons; by left).
  assert (Hsub : forall a, a ∈ flat_map subtree (Kids_of n) -> a ∈ subtree n).
  { intros a Ha. destruct n; cbn in *; apply elem_of_cons; right; [done |].
    apply elem_of_app. by right. }
  pose proof (Hready _ Hthis) as Hg.
  rewrite Render2D_unfold. unfold FullReRenderIfNeeded, NeedsFullReRender.
  rewrite (proj1 Hg), andb_false_r.
  destruct (PushBounds_ready _ Hg) as (b & w1 & t1 & -> & Hw1 & Hl1 & Hs1 & Hp1 & Hq1).
  destruct b.
  - set (h1 := modify (This n) (fun _ => w1) h).
    assert (Hr1 : forall a, ready (h a) -> ready (h1 a)).
    { intros a Ha. unfold h1, modify. by destruct (Nat.eqb_spec a (This n)). }
    destruct (Render2DChildren_quiet _ IHks h1) as (h2 & t2 & -> & Hr2 & Hl2 & Hf2 & Hb2).
    { intros a Ha. by apply Hr1, Hready, Hsub. }
    assert (Hg2 : ready (h2 (This n))) by (apply Hr2, Hr1, Hg).
    destruct (PopBounds_ready _ Hg2) as (w3 & t3 & -> & Hw3 & Hl3 & Hs3 & Hp3 & Hq3).
    eexists _, _. split; [done |]. split; [| split; [| split]].
    + intros a Ha. unfold modify. destruct (Nat.eqb_spec a (This n)); [done |].
      by apply Hr2, Hr1.
    + intros a. unfold modify. destruct (Nat.eqb_spec a (This n)) as [-> |].
      * destruct (Hl2 (This n)) as [Hx Hy]. unfold h1 in Hx, Hy.
        rewrite modify_eq in Hx, Hy. split; congruence.
      * destruct (Hl2 a) as [Hx Hy]. unfold h1 in Hx, Hy.
        rewrite modify_ne in Hx, Hy by done. done.
    + intros a Ha. rewrite modify_ne by (intros ->; done).
      rewrite Hf2 by (intros Hin; by apply Ha, Hsub).
      unfold h1. by rewrite modify_ne by (intros ->; done).
    + rewrite !pushes_app, !pops_app. lia.
  - cbn. eexists _, _. split; [done |]. split; [| split; [| split]].
    + intros a Ha. unfold modify. destruct (Nat.eqb_spec a (This n)); [| done].
      destruct Hw1. by split.
    + intros a. unfold modify. destruct (Nat.eqb_spec a (This n)) as [-> |]; [| done].
      by split.
    + intros a Ha. by rewrite modify_ne by (intros ->; done).
    + rewrite !pushes_app, !pops_app. cbn. lia.
Qed.

(** Rendering a tree whose nodes are all ready returns: it does not
    panic, keeps ready nodes ready, changes no layout data and no style,
    touches no node outside the tree, and pops as many clip bounds as it
    pushes. *)
Theorem Render2D_ready_tree_returns n :
  forall h, (forall a, a ∈ subtree n -> ready (h a)) ->
    exists h' t,
      Render2D' n h = Returns (h', t) /\
      (forall a, ready (h a) -> ready (h' a)) /\
      (forall a, LayData (h' a) = LayData (h a) /\ Sty (h' a) = Sty (h a)) /\
      (forall a, a ∉ subtree n -> h' a = h a) /\
      pushes t = pops t.
Proof.
  induction n as [g ks IHks | g p ks _ IHks] using Node2D_tree_ind;
    intros h Hready; by apply Render2D_quiet_node.
Qed.

End ReadyTree.

Section LayoutProps.
Import Widget.

Variable Style : Type.
Variable BoxSpace : Style -> float32.
Variable ComputeBBox2DBase : image.Rectangle -> image.Point -> Node2DBase -> Node2DBase.
Variable RectFromPosSize : Vec2D -> Vec2D -> image.Rectangle.
Variable SetUnitContext : option Viewport2D -> Vec2D -> Style -> Style.
Variable Init2D Style2D : Node2D -> Heap Style -> Heap Style.
Variable AsViewport2D : Node2D -> bool.
Variable ParentWidget : Node2D -> option Addr.
Variable IsField : Node2D -> bool.

Local Abbreviation Move2D' := (Move2D Style BoxSpace ComputeBBox2DBase).
Local Abbreviation Layout2DBase' :=
  (Layout2DBase Style ComputeBBox2DBase RectFromPosSize SetUnitContext Init2D Style2D
     AsViewport2D ParentWidget IsField).
Local Abbreviation AddParentPos' := (AddParentPos Style ParentWidget IsField).

Implicit Types (n : Node2D) (h : Heap Style) (g a : Addr).

(** Moves do not add up: a second move of a subtree starts again from
    the baseline, so the position after two moves is that after the last
    one alone. *)
Theorem Move2D_deltas_do_not_add_up d1 d2 pb1 pb2 n h a :
  a ∈ subtree n ->
  AllocPos (LayData (Move2D' d2 pb2 n (Move2D' d1 pb1 n h) a))
    = Vec2D_Add (AllocPosOrig (LayData (h a))) (NewVec2DFmPoint d2) /\
  AllocPos (LayData (Move2D' d2 pb2 n (Move2D' d1 pb1 n h) a))
    = AllocPos (LayData (Move2D' d2 pb2 n h a)).
Proof.
  intros Ha.
  destruct (Move2D_spec Style BoxSpace ComputeBBox2DBase d1 n pb1 h) as [Hm1 _].
  destruct (Move2D_spec Style BoxSpace ComputeBBox2DBase d2 n pb2 (Move2D' d1 pb1 n h))
    as [Hm2 Hs2].
  destruct (Move2D_spec Style BoxSpace ComputeBBox2DBase d2 n pb2 h) as [Hm3 Hs3].
  specialize (Hs2 a Ha). specialize (Hs3 a Ha). unfold moved in Hs2, Hs3.
  destruct (Hm1 a) as (_ & Ho1 & _), (Hm2 a) as (_ & Ho2 & _), (Hm3 a) as (_ & Ho3 & _).
  split; congruence.
Qed.

Lemma AddParentPos_frame n h a :
  AllocSize (LayData ((AddParentPos' n h).2 a)) = AllocSize (LayData (h a)) /\
  AllocPosRel (LayData ((AddParentPos' n h).2 a)) = AllocPosRel (LayData (h a)) /\
  (a <> This n -> (AddParentPos' n h).2 a = h a).
Proof.
  unfold AddParentPos. destruct (ParentWidget n) as [pw|]; [| done].
  destruct (IsField n); cbn; [done |].
  unfold modify. by destruct (Nat.eqb_spec a (This n)) as [-> |].
Qed.

(** [Layout2DBase] makes the position it computes the baseline of later
    moves: afterwards [AllocPosOrig] equals [AllocPos], and a move by
    [delta] puts the node at that position plus [delta]. *)
Theorem Layout2DBase_sets_move_baseline parBBox initStyle n h delta pb :
  let h' := Layout2DBase' parBBox initStyle n h in
  AllocPosOrig (LayData (h' (This n))) = AllocPos (LayData (h' (This n))) /\
  AllocPos (LayData (Move2D' delta pb n h' (This n)))
    = Vec2D_Add (AllocPos (LayData (h' (This n)))) (NewVec2DFmPoint delta).
Proof.
  intros h'.
  assert (Hbase : AllocPosOrig (LayData (h' (This n))) = AllocPos (LayData (h' (This n)))).
  { unfold h', Layout2DBase.
    destruct (AddParentPos' n _) as [psize h1].
    rewrite (ComputeBBox2D_LayData Style ComputeBBox2DBase).
    rewrite modify_eq. destruct initStyle; by rewrite !modify_eq. }
  split; [exact Hbase |].
  destruct (Move2D_spec Style BoxSpace ComputeBBox2DBase delta n pb h') as [Hm Hs].
  rewrite <- Hbase. destruct (Hm (This n)) as (_ & <- & _).
  apply Hs. destruct n; cbn; apply elem_of_cons; by left.
Qed.

(** With its viewport set, [Layout2DBase] places a node that is not a
    field at its parent's position plus its own relative position, and
    changes no size. *)
Theorem Layout2DBase_places_relative_to_parent parBBox initStyle n h pw :
  Viewport (Node (h (This n))) <> None ->
  ParentWidget n = Some pw -> IsField n = false ->
  let h' := Layout2DBase' parBBox initStyle n h in
  AllocPos (LayData (h' (This n)))
    = Vec2D_Add (AllocPos (LayData (h pw))) (AllocPosRel (LayData (h (This n)))) /\
  (forall a, AllocSize (LayData (h' a)) = AllocSize (LayData (h a))).
Proof.
  intros Hvp Hpw Hfield h'. unfold h', Layout2DBase.
  destruct (Viewport (Node (h (This n)))); [| done].
  unfold AddParentPos. rewrite Hpw, Hfield. cbn [negb].
  split.
  - rewrite (ComputeBBox2D_LayData Style ComputeBBox2DBase).
    rewrite modify_eq. destruct initStyle; rewrite !modify_eq; reflexivity.
  - intros a. rewrite (ComputeBBox2D_LayData Style ComputeBBox2DBase).
    destruct (decide (a = This n)) as [-> | Hne].
    + rewrite modify_eq. destruct initStyle; rewrite !modify_eq; reflexivity.
    + rewrite modify_ne by done. destruct initStyle; rewrite !modify_ne by done; reflexivity.
Qed.

End LayoutProps.

Section ConfigPartsProps.
Import Widget GoInt.
Variable IconName_IsValid : string -> bool.

Local Abbreviation ConfigPartsIconLabel' := (ConfigPartsIconLabel IconName_IsValid).

Local Ltac not_in_list :=
  let Hin := fresh "Hin" in
  intros Hin;
  repeat (apply elem_of_cons in Hin as [Hin | Hin]; [discriminate Hin |]);
  by apply elem_of_nil in Hin.

(** The indexes [ConfigPartsIconLabel] returns point at the icon and at
    the label of the config it returns; a part that is left out has the
    index -1 and is not in the config; when both are there the label is
    at index 2 and the space right before it; the label, if any, comes
    last; and no name is used twice. *)
Theorem ConfigPartsIconLabel_indexes icnm txt :
  let '(config, icIdx, lbIdx) := ConfigPartsIconLabel' icnm txt in
  (IconName_IsValid icnm = true ->
   icIdx = 0 /\ config !! 0%nat = Some (KiT_Icon, "icon")) /\
  (IconName_IsValid icnm = false -> icIdx = -1 /\ ((KiT_Icon, "icon") ∉ config)) /\
  (txt <> "" ->
   lbIdx = len config - 1 /\ config !! Z.to_nat lbIdx = Some (KiT_Label, "label")) /\
  (txt = "" ->
   lbIdx = -1 /\ ((KiT_Label, "label") ∉ config) /\ ((KiT_Space, "space") ∉ config)) /\
  (IconName_IsValid icnm = true -> txt <> "" ->
   lbIdx = 2 /\ config !! 1%nat = Some (KiT_Space, "space")) /\
  NoDup (config.*2).
Proof.
  unfold ConfigPartsIconLabel.
  destruct (IconName_IsValid icnm), (String.eqb_spec txt "") as [Htxt | Htxt]; cbn;
    repeat split; intros; try done; try not_in_list;
    repeat (constructor; [not_in_list |]); constructor.
Qed.

End ConfigPartsProps.

(** ** Instances *)

Lemma Render2D_clears_dirty_flag_witness :
  Widget.NeedsFullReRender (Widget.hidden_heap 0%nat) = true /\
  exists h' t,
    Widget.Render2D Widget.SampleStyle Widget.sample_ConnectToViewport
      Widget.sample_UpdateStart Widget.sample_UpdateEndNoSig
      Widget.sample_pass Widget.sample_pass Widget.sample_pass Widget.sample_pass
      Widget.sample_pass Widget.hidden_tree Widget.hidden_heap = Returns (h', t) /\
    Widget.NeedsFullReRender (h' 0%nat) = false.
Proof.
  split; [reflexivity |]. eexists _, _. split; [reflexivity |].
  apply (Render2D_clears_dirty_flag Widget.SampleStyle Widget.sample_ConnectToViewport
           Widget.sample_UpdateStart Widget.sample_UpdateEndNoSig
           Widget.sample_pass Widget.sample_pass Widget.sample_pass Widget.sample_pass
           Widget.sample_pass Widget.hidden_tree Widget.hidden_heap _
           [Widget.CDisconnectAllEvents "button" Widget.RegPri]);
    reflexivity.
Defined.

Lemma Render2D_without_viewport_panics_witness :
  Widget.Viewport (Widget.Node (Widget.unbound_heap 0%nat)) = None /\
  Widget.Render2D Widget.SampleStyle Widget.sample_ConnectToViewport
    Widget.sample_UpdateStart Widget.sample_UpdateEndNoSig
    Widget.sample_pass Widget.sample_pass Widget.sample_pass Widget.sample_pass
    Widget.sample_pass Widget.sample_tree Widget.unbound_heap
  = Panics Widget.nil_deref.
Proof.
  split; [reflexivity |].
  destruct (Render2D_without_viewport_panics Widget.SampleStyle Widget.sample_ConnectToViewport
              Widget.sample_UpdateStart Widget.sample_UpdateEndNoSig
              Widget.sample_pass Widget.sample_pass Widget.sample_pass Widget.sample_pass
              Widget.sample_pass Widget.sample_tree Widget.unbound_heap) as [H _];
    [reflexivity | reflexivity |].
  apply H; reflexivity.
Defined.

Lemma Render2D_ready_tree_returns_witness :
  exists h' t,
    Widget.Render2D Widget.SampleStyle Widget.sample_ConnectToViewport
      Widget.sample_UpdateStart Widget.sample_UpdateEndNoSig
      Widget.sample_pass Widget.sample_pass Widget.sample_pass Widget.sample_pass
      Widget.sample_pass Widget.sample_tree Widget.calm_heap = Returns (h', t) /\
    Widget.pushes t = Widget.pops t.
Proof.
  destruct (Render2D_ready_tree_returns Widget.SampleStyle Widget.sample_ConnectToViewport
              Widget.sample_UpdateStart Widget.sample_UpdateEndNoSig
              Widget.sample_pass Widget.sample_pass Widget.sample_pass Widget.sample_pass
              Widget.sample_pass) with (n := Widget.sample_tree) (h := Widget.calm_heap)
    as (h' & t & Hret & _ & _ & _ & Hbal).
  - intros b Hclean Hvp. split; [exact Hclean | exact Hvp].
  - intros a _. split; [reflexivity | discriminate].
  - exists h', t. split; [exact Hret | exact Hbal].
Defined.

Lemma Move2D_deltas_do_not_add_up_witness :
  0%nat ∈ Widget.subtree Widget.sample_tree /\
  Widget.AllocPos
    (Widget.LayData
       (Widget.Move2D Widget.SampleStyle Widget.sample_BoxSpace
          Widget.sample_ComputeBBox2DBase (image.mkPoint 0 5) (Widget.rect 0 0 100 100)
          Widget.sample_tree
          (Widget.Move2D Widget.SampleStyle Widget.sample_BoxSpace
             Widget.sample_ComputeBBox2DBase (image.mkPoint 3 4) (Widget.rect 0 0 100 100)
             Widget.sample_tree Widget.sample_heap) 0%nat))
  = Widget.vec 10 15.
Proof.
  split; [apply elem_of_cons; by left |].
  destruct (Move2D_deltas_do_not_add_up Widget.SampleStyle Widget.sample_BoxSpace
              Widget.sample_ComputeBBox2DBase (image.mkPoint 3 4) (image.mkPoint 0 5)
              (Widget.rect 0 0 100 100) (Widget.rect 0 0 100 100)
              Widget.sample_tree Widget.sample_heap 0%nat) as [H _];
    [apply elem_of_cons; by left |].
  rewrite H. vm_compute. reflexivity.
Defined.

Lemma Layout2DBase_places_relative_to_parent_witness :
  Widget.sample_ParentWidget (Widget.IsWidget 3%nat []) = Some 0%nat /\
  Widget.AllocPos
    (Widget.LayData
       (Widget.Layout2DBase Widget.SampleStyle Widget.sample_ComputeBBox2DBase
          Widget.sample_RectFromPosSize Widget.sample_SetUnitContext
          Widget.sample_pass Widget.sample_pass Widget.sample_AsViewport2D
          Widget.sample_ParentWidget Widget.sample_IsField
          (Widget.rect 0 0 100 100) true (Widget.IsWidget 3%nat []) Widget.sample_heap
          3%nat))
  = Widget.Vec2D_Add (Widget.vec 10 10) (Widget.vec 0 0).
Proof.
  split; [reflexivity |].
  destruct (Layout2DBase_places_relative_to_parent Widget.SampleStyle
              Widget.sample_ComputeBBox2DBase
              Widget.sample_RectFromPosSize Widget.sample_SetUnitContext
              Widget.sample_pass Widget.sample_pass Widget.sample_AsViewport2D
              Widget.sample_ParentWidget Widget.sample_IsField
              (Widget.rect 0 0 100 100) true (Widget.IsWidget 3%nat []) Widget.sample_heap
              0%nat) as [H _]; [discriminate | reflexivity | reflexivity |].
  exact H.
Defined.

(* ================================================================== *)
(** * More properties of style resolution *)
(* ================================================================== *)

Section WalkProps.
Import reflect Style.

Variable Color : Type.
Variable Color_SetFromString : Color -> string -> Color * option string.
Variable UnitsValue : Type.
Variable UnitsValue_SetFromString : UnitsValue -> string -> UnitsValue.
Variable UnitsValue_Set : UnitsValue -> float64 -> Unit -> UnitsValue.
Variable FindEnum : string -> bool.
Variable SetEnumValueFromAltString : string -> Z -> string -> Z.

Local Abbreviation StyleField' :=
  (StyleField Color Color_SetFromString UnitsValue UnitsValue_SetFromString
     UnitsValue_Set FindEnum SetEnumValueFromAltString).
Local Abbreviation Walk := (WalkStyleStruct Color UnitsValue).
Local Abbreviation Fields := (WalkFields Color UnitsValue).
Local Abbreviation StyleUnitsValue' :=
  (StyleUnitsValue UnitsValue UnitsValue_SetFromString UnitsValue_Set).

Implicit Types (sf : StructField) (vf obj : Value Color UnitsValue)
  (pf df defs : option (Value Color UnitsValue)) (tag outer : string)
  (props : gmap string (Iface UnitsValue)) (vs : list (Value Color UnitsValue))
  (f : WalkStyleFieldFun Color UnitsValue).

(** ** The walk, one level at a time *)

Lemma Walk_struct nm fields obj parent defs outer props f :
  Walk (TStruct nm fields) obj parent defs outer props f =
  let '(parent, lg0) :=
    match parent with
    | Some (pt, pv) =>
      if GoType_eqb pt (TStruct nm fields) then (Some pv, [])
      else (None, [LogInheritanceType nm (Name_of pt)])
    | None => (None, [])
    end in
  let hasPar := match parent with Some _ => true | None => false end in
  match obj, fields_of Color UnitsValue parent, fields_of Color UnitsValue defs with
  | VStruct vs, Returns ps, Returns ds =>
    match Fields hasPar outer props f fields vs ps ds with
    | Panics why => Panics why
    | Returns (vs', lg) => Returns (VStruct vs', lg0 ++ lg)
    end
  | VStruct _, Panics why, _ | VStruct _, _, Panics why => Panics why
  | _, _, _ => Panics panic_field_index
  end.
Proof. reflexivity. Qed.

Lemma walkable_struct nm fields vs :
  walkable (TStruct nm fields) (VStruct vs : Value Color UnitsValue)
  = walkable_fields fields vs.
Proof. reflexivity. Qed.

(** Induction on a type that also covers the types of its fields. *)
Lemma GoType_fields_ind (P : GoType -> Prop) :
  (forall nm, P (TNamed nm)) ->
  (forall nm fields, Forall (fun sf => P (Typ sf)) fields -> P (TStruct nm fields)) ->
  forall t, P t.
Proof.
  intros HN HS. fix IH 1. intros [nm | nm fields]; [apply HN | apply HS].
  induction fields as [|[n p tg ft] fields IHf]; constructor; [apply IH | exact IHf].
Qed.

(** One round of the loop: the field's outcome, then the fields after it. *)
Lemma Fields_cons hasPar outer props f sf fields vf vs ps ds vs' lg :
  Fields hasPar outer props f (sf :: fields) (vf :: vs) ps ds = Returns (vs', lg) ->
  exists vf' vs2 lg2,
    Fields hasPar outer props f fields vs (rest_fields Color UnitsValue ps)
      (rest_fields Color UnitsValue ds) = Returns (vs2, lg2) /\
    vs' = vf' :: vs2.
Proof.
  cbn [WalkFields]. destruct sf as [n pk tg ft].
  set (rest := Fields hasPar outer props f fields vs _ _).
  assert (Hcont : forall r : Outcome (Value Color UnitsValue * list LogLine),
            match r with
            | Panics why => Panics why
            | Returns (vf', lg1) =>
              match rest with
              | Panics why => Panics why
              | Returns (vs'', lg2) => Returns (vf' :: vs'', lg1 ++ lg2)
              end
            end = Returns (vs', lg) ->
            exists vf' vs2 lg2, rest = Returns (vs2, lg2) /\ vs' = vf' :: vs2).
  { intros [[vf' lg1] | why]; [| done].
    destruct rest as [[vs2 lg2] | why]; [| done].
    intros [= <- _]. by eexists _, _, _. }
  destruct (negb (String.eqb pk "")); [apply (Hcont (Returns (vf, []))) |].
  destruct (String.eqb (Get tg "xml") "-"); [apply (Hcont (Returns (vf, []))) |].
  destruct (next_field Color UnitsValue ps) as [[pf ?] | why]; [| done].
  destruct (next_field Color UnitsValue ds) as [[df ?] | why]; [| done].
  destruct (walks_into ft); [apply Hcont |].
  destruct (String.eqb (Get tg "xml") "");
    [apply (Hcont (Returns (vf, []))) | apply Hcont].
Qed.

(** The loop returns as many fields as it was given, one for each field
    of the type at least. *)
Lemma Fields_length hasPar outer props f :
  forall fields vs ps ds vs' lg,
    Fields hasPar outer props f fields vs ps ds = Returns (vs', lg) ->
    length vs' = length vs /\ (length fields <= length vs)%nat.
Proof.
  induction fields as [|sf fields IH]; intros vs ps ds vs' lg Hret.
  - cbn in Hret. destruct vs; injection Hret as <- _; cbn; split; (done || lia).
  - destruct vs as [|vf vs]; [done |].
    apply Fields_cons in Hret as (vf' & vs2 & lg2 & Hrest & ->).
    apply IH in Hrest as [Hlen Hle]. cbn. split; lia.
Qed.

(** A walk over a struct type returns a struct value, with a field for
    each field of the type at least. *)
Lemma Walk_struct_result nm fields obj parent defs outer props f v lg :
  Walk (TStruct nm fields) obj parent defs outer props f = Returns (v, lg) ->
  exists vs', v = VStruct vs' /\ (length fields <= length vs')%nat.
Proof.
  rewrite Walk_struct.
  destruct (match parent with
            | Some (pt, pv) =>
              if GoType_eqb pt (TStruct nm fields) then (Some pv, [])
              else (None, [LogInheritanceType nm (Name_of pt)])
            | None => (None, [])
            end) as [parent' lg0].
  cbv zeta.
  destruct obj as [| | | | | |vs]; try done.
  destruct (fields_of Color UnitsValue parent') as [ps | why]; [| done].
  destruct (fields_of Color UnitsValue defs) as [ds | why]; [| done].
  destruct (Fields (match parent' with Some _ => true | None => false end)
              outer props f fields vs ps ds) as [[vs' lg1] | why] eqn:Hloop; [| done].
  intros [= <- _]. exists vs'. split; [done |].
  apply Fields_length in Hloop. lia.
Qed.

End WalkProps.

Section WalkProps2.
Import reflect Style.

Variable Color : Type.
Variable Color_SetFromString : Color -> string -> Color * option string.
Variable UnitsValue : Type.
Variable UnitsValue_SetFromString : UnitsValue -> string -> UnitsValue.
Variable UnitsValue_Set : UnitsValue -> float64 -> Unit -> UnitsValue.
Variable FindEnum : string -> bool.
Variable SetEnumValueFromAltString : string -> Z -> string -> Z.

Local Abbreviation StyleField' :=
  (StyleField Color Color_SetFromString UnitsValue UnitsValue_SetFromString
     UnitsValue_Set FindEnum SetEnumValueFromAltString).
Local Abbreviation Walk := (WalkStyleStruct Color UnitsValue).
Local Abbreviation Fields := (WalkFields Color UnitsValue).
Local Abbreviation StyleUnitsValue' :=
  (StyleUnitsValue UnitsValue UnitsValue_SetFromString UnitsValue_Set).

Implicit Types (sf : StructField) (vf obj : Value Color UnitsValue)
  (pf df defs : option (Value Color UnitsValue)) (tag outer : string)
  (props : gmap string (Iface UnitsValue)) (vs : list (Value Color UnitsValue))
  (f : WalkStyleFieldFun Color UnitsValue).

(** ** A walk that changes nothing *)

Section Keeps.
Variable props : gmap string (Iface UnitsValue).
Variable f : WalkStyleFieldFun Color UnitsValue.

(** The field function hands every field back as it was. *)
Hypothesis f_keeps : forall sf vf df tag,
  exists lg, f sf vf None df false tag props = Returns (vf, lg).

Local Abbreviation kept t :=
  (forall obj defs outer,
     walkable t obj = true -> walkable_or_nil t defs = true ->
     exists lg, Walk t obj None defs outer props f = Returns (obj, lg)).

Lemma Fields_keep outer fields :
  Forall (fun sf => kept (Typ sf)) fields ->
  forall vs ds,
    walkable_fields fields vs = true ->
    match ds with Some l => walkable_fields fields l = true | None => True end ->
    exists lg, Fields false outer props f fields vs None ds = Returns (vs, lg).
Proof.
  induction 1 as [|[n pk tg ft] fields Hsf _ IH]; intros vs ds Hvs Hds.
  - destruct vs; by eexists.
  - destruct vs as [|vf vs]; [done |]. cbn [walkable_fields] in Hvs.
    apply andb_true_iff in Hvs as [Hvf Hvs].
    assert (Hds' : match rest_fields Color UnitsValue ds with
                   | Some l => walkable_fields fields l = true
                   | None => True
                   end /\
                   exists df, next_field Color UnitsValue ds
                              = Returns (df, rest_fields Color UnitsValue ds) /\
                     (walks_into ft = true -> walkable_or_nil ft df = true)).
    { destruct ds as [[|d l] |]; [done | | by split; [| exists None]].
      cbn [walkable_fields] in Hds. apply andb_true_iff in Hds as [Hd Hl].
      split; [done |]. exists (Some d). split; [done |]. intros Hw. by rewrite Hw in Hd. }
    destruct Hds' as (Hrest & df & Hnext & Hdf).
    destruct (IH vs (rest_fields Color UnitsValue ds) Hvs Hrest) as [lg2 Hloop].
    cbn [WalkFields]. cbn [rest_fields] in *. rewrite Hloop, Hnext. cbn [next_field].
    destruct (negb (String.eqb pk "")); [by eexists |].
    destruct (String.eqb (Get tg "xml") "-"); [by eexists |].
    destruct (walks_into ft) eqn:Hw.
    + cbn [Typ] in Hsf.
      destruct (Hsf vf df (Get tg "xml")) as [lg1 ->]; [done | by apply Hdf |].
      by eexists.
    + destruct (String.eqb (Get tg "xml") ""); [by eexists |].
      destruct (f_keeps (mkStructField n pk tg ft) vf df
                  (effective_tag outer (Get tg "xml"))) as [lg1 ->].
      by eexists.
Qed.

Lemma Walk_keeps t : kept t.
Proof.
  induction t as [nm | nm fields IH] using GoType_fields_ind;
    intros obj defs outer Hobj Hdefs.
  - by eexists.
  - rewrite Walk_struct. destruct obj as [| | | | | |vs]; try done.
    rewrite walkable_struct in Hobj.
    destruct defs as [[| | | | | |l] |]; try done; cbn [fields_of].
    + destruct (Fields_keep outer fields IH vs (Some l) Hobj) as [lg ->]; [done |].
      by eexists.
    + destruct (Fields_keep outer fields IH vs None Hobj) as [lg ->]; [done |].
      by eexists.
Qed.

End Keeps.

(** With no parent and no matching property, [StyleField] hands the
    field back as it was. *)
Lemma StyleField_keeps sf vf df tag props :
  props !! tag = None ->
  exists lg, StyleField' sf vf None df false tag props = Returns (vf, lg).
Proof.
  intros Hprops. unfold StyleField.
  destruct (String.eqb (Get (Tag sf) "inherit") "true"); cbn;
    [rewrite Hprops; by eexists |].
  destruct (negb _ && negb _); rewrite Hprops; by eexists.
Qed.

End WalkProps2.

Section SetStyleProps.
Import reflect Style.

Variable Context_T LayoutStyle_T FontStyle_T TextStyle_T : GoType.
Variable Color : Type.
Variable Color_SetFromString : Color -> string -> Color * option string.
Variable UnitsValue : Type.
Variable UnitsValue_SetFromString : UnitsValue -> string -> UnitsValue.
Variable UnitsValue_Set : UnitsValue -> float64 -> Unit -> UnitsValue.
Variable FindEnum : string -> bool.
Variable SetEnumValueFromAltString : string -> Z -> string -> Z.
Variable Layout_SetStylePost Font_SetStylePost Text_SetStylePost :
  Value Color UnitsValue -> Value Color UnitsValue.

Local Abbreviation StyleField' :=
  (StyleField Color Color_SetFromString UnitsValue UnitsValue_SetFromString
     UnitsValue_Set FindEnum SetEnumValueFromAltString).
Local Abbreviation StyleUnitsValue' :=
  (StyleUnitsValue UnitsValue UnitsValue_SetFromString UnitsValue_Set).
Local Abbreviation Style_T' := (Style_T Context_T LayoutStyle_T FontStyle_T TextStyle_T).
Local Abbreviation SetStyle' :=
  (SetStyle Context_T LayoutStyle_T FontStyle_T TextStyle_T
     Color Color_SetFromString UnitsValue UnitsValue_SetFromString UnitsValue_Set
     FindEnum SetEnumValueFromAltString
     Layout_SetStylePost Font_SetStylePost Text_SetStylePost).

Implicit Types (sf : StructField) (vf s : Value Color UnitsValue)
  (pf df parent defs : option (Value Color UnitsValue)) (tag : string)
  (props : gmap string (Iface UnitsValue)).

(** Resolving a style with no parent and no property cannot panic and
    changes nothing, but for what [SetStyle] does after the walk: the
    three [SetStylePost] hooks and [IsSet]. *)
Theorem SetStyle_without_parent_or_props s defs :
  walkable Style_T' s = true ->
  walkable_or_nil Style_T' defs = true ->
  exists fs lg,
    s = VStruct fs /\
    SetStyle' s None defs ∅
    = Returns (VStruct (<[iIsSet := VBool true]>
                          (alter Text_SetStylePost iText
                             (alter Font_SetStylePost iFont
                                (alter Layout_SetStylePost iLayout fs)))), lg).
Proof.
  intros Hs Hdefs.
  destruct (Walk_keeps Color UnitsValue ∅ StyleField'
              (fun sf vf df tag =>
                 StyleField_keeps Color Color_SetFromString UnitsValue
                   UnitsValue_SetFromString UnitsValue_Set FindEnum
                   SetEnumValueFromAltString sf vf df tag ∅ (lookup_empty tag))
              Style_T' s defs "" Hs Hdefs) as [lg Hwalk].
  destruct s as [| | | | | |fs]; try done.
  exists fs, lg. split; [done |].
  unfold SetStyle. by rewrite Hwalk.
Qed.

(** Whenever [SetStyle] returns, the style it returns is marked as set. *)
Theorem SetStyle_marks_the_style_set s parent defs props s' lg :
  SetStyle' s parent defs props = Returns (s', lg) ->
  field_at Color UnitsValue iIsSet s' = Some (VBool true).
Proof.
  unfold SetStyle.
  destruct (WalkStyleStruct _ _ _ _ _ _ _ _ _) as [[v lg0] | why] eqn:Hwalk; [| done].
  apply (Walk_struct_result Color UnitsValue "Style") in Hwalk as (fs & -> & Hlen).
  intros [= <- _]. cbn [field_at]. simpl length in Hlen.
  apply list_lookup_insert_eq. rewrite !length_alter. unfold iIsSet. lia.
Qed.

(** ** Units values, resolved by hand *)


End SetStyleProps.

(** ** Instances *)

Lemma SetStyle_without_parent_or_props_witness :
  Style.walkable
    (Style.Style_T Style.sample_Context_T Style.sample_LayoutStyle_T
       Style.sample_FontStyle_T Style.sample_TextStyle_T) Style.child_style = true /\
  exists fs lg,
    Style.child_style = Style.VStruct fs /\
    Style.sample_SetStyle Style.child_style None None ∅
    = Returns (Style.VStruct
                 (<[Style.iIsSet := Style.VBool true]>
                    (alter Style.sample_SetStylePost Style.iText
                       (alter Style.sample_SetStylePost Style.iFont
                          (alter Style.sample_SetStylePost Style.iLayout fs)))), lg).
Proof.
  split; [vm_compute; reflexivity |].
  apply (SetStyle_without_parent_or_props
           Style.sample_Context_T Style.sample_LayoutStyle_T
           Style.sample_FontStyle_T Style.sample_TextStyle_T
           Style.SampleColor Style.sample_Color_SetFromString Style.SampleUnits
           Style.sample_Units_SetFromString Style.sample_Units_Set
           Style.sample_FindEnum Style.sample_SetEnum
           Style.sample_SetStylePost Style.sample_SetStylePost Style.sample_SetStylePost
           Style.child_style None); vm_compute; reflexivity.
Defined.

Lemma SetStyle_marks_the_style_set_witness :
  exists s' lg,
    Style.sample_SetStyle Style.child_style (Some Style.parent_style) None
      {[ "color" := Style.IString "inherit" ]} = Returns (s', lg) /\
    Style.field_at Style.SampleColor Style.SampleUnits Style.iIsSet s'
    = Some (Style.VBool true).
Proof.
  eexists _, _. split; [vm_compute; reflexivity |].
  eapply (SetStyle_marks_the_style_set
            Style.sample_Context_T Style.sample_LayoutStyle_T
            Style.sample_FontStyle_T Style.sample_TextStyle_T
            Style.SampleColor Style.sample_Color_SetFromString Style.SampleUnits
            Style.sample_Units_SetFromString Style.sample_Units_Set
            Style.sample_FindEnum Style.sample_SetEnum
            Style.sample_SetStylePost Style.sample_SetStylePost Style.sample_SetStylePost
            Style.child_style (Some Style.parent_style) None
            {[ "color" := Style.IString "inherit" ]}).
  vm_compute; reflexivity.
Defined.

(* ================================================================== *)
(** * Properties of the draw programs *)
(* ================================================================== *)

Section DrawProgs.
Import glos.

Variable AddShader_err : string -> ShaderType -> string -> option string.
Variable Compile_err : string -> option string.
Variable ErrCheck : string -> option string.

Local Abbreviation initDrawProgs' := (initDrawProgs AddShader_err Compile_err ErrCheck).

Local Ltac step :=
  match goal with
  | |- context [match ?o with Some _ => _ | None => _ end] =>
    destruct o eqn:?; cbn
  end.

(** [initDrawProgs] does nothing once the programs are initialised; it
    marks them initialised exactly when it returns no error, and then both
    programs are compiled and both quads are in place; after an error the
    app is still not initialised, so that the next call starts again. *)
Theorem initDrawProgs_outcomes (app : appImpl) :
  (progInit app = true -> initDrawProgs' app = (None, app)) /\
  (forall app', initDrawProgs' app = (None, app') ->
     progInit app' = true /\ (progInit app = false -> programs_ready app')) /\
  (forall err app', initDrawProgs' app = (Some err, app') ->
     progInit app = false /\ progInit app' = false).
Proof.
  split; [| split].
  - intros Hinit. unfold initDrawProgs. by rewrite Hinit.
  - intros app'. unfold initDrawProgs.
    destruct (progInit app) eqn:Hinit; [by intros [= <-] |].
    repeat (step; [done |]). intros [= <-]. split; [done |]. intros _.
    unfold programs_ready. cbn. repeat split; by eexists.
  - intros err app'. unfold initDrawProgs.
    destruct (progInit app) eqn:Hinit; [done |].
    repeat (step; [by intros [= _ <-] |]). done.
Qed.

(** When only the fill program fails to compile, the error is returned
    with the draw program and its quad already in place. *)
Theorem initDrawProgs_keeps_what_was_built (app : appImpl) err :
  progInit app = false ->
  (forall t nm, AddShader_err "draw" t nm = None) ->
  (forall t nm, AddShader_err "fill" t nm = None) ->
  Compile_err "draw" = None -> Compile_err "fill" = Some err ->
  exists app',
    initDrawProgs' app = (Some err, app') /\
    progInit app' = false /\
    (exists p, drawProg app' = Some p /\ Compiled p = true) /\
    (exists b, drawQuads app' = Some b /\ QData b = quadCoords) /\
    fillProg app' = fillProg app /\ fillQuads app' = fillQuads app.
Proof.
  intros Hinit Hd Hf Hcd Hcf. unfold initDrawProgs.
  rewrite Hinit, !Hd, !Hf, Hcd, Hcf. eexists. split; [done |]. cbn.
  repeat split; try done; by eexists.
Qed.

End DrawProgs.

Lemma initDrawProgs_keeps_what_was_built_witness :
  exists app',
    glos.initDrawProgs glos.no_error3 glos.fill_does_not_compile glos.no_error
      glos.fresh_app = (Some "fill: compile error", app') /\
    glos.progInit app' = false /\
    glos.fillProg app' = None.
Proof.
  destruct (initDrawProgs_keeps_what_was_built glos.no_error3 glos.fill_does_not_compile
              glos.no_error glos.fresh_app "fill: compile error")
    as (app' & Hret & Hinit & _ & _ & Hfill & _); try reflexivity.
  exists app'. split; [exact Hret |]. split; [exact Hinit | exact Hfill].
Defined.
